(** * Two Truths & AI: the round-generation and distribution core

    A shallow embedding of [src/main.py]: the session history store (Redis or
    the in-memory fallback), the round generator, the preload scheduler and the
    broadcast hub, with the properties the design document states about them.

    Python values are embedded as follows.
    - [str] is a sequence of Unicode code points ([list N]).
    - a value that went through [json.loads] is a [json] tree; a [dict] is an
      association list in insertion order.
    - module-level globals that the functions mutate live in the record
      [World]; globals that are set once at import time are in [Config].
    - what the process does not control (the [json] module, the Redis server's
      faults, [uuid.uuid4], the language model, the clock) is the record [Env].
    - a function that can raise is a computation in the monad [M], which
      threads the [World] and returns [Ok v] or [Raise e]. *)

From Stdlib Require Import ZArith List Ascii String Lia DecimalString.
From stdpp Require Import base option list gmap.

Local Open Scope Z_scope.

(** ** Text *)

Abbreviation str := (list N).

(** A literal of the source, character by character. *)
Fixpoint lit (s : string) : str :=
  match s with
  | EmptyString => []
  | String a r => N_of_ascii a :: lit r
  end.

Definition nl : str := [10%N].
Definition dquote : str := [34%N].
Definition backslash : str := [92%N].

(** [str(n)] for a Python [int]. *)
Definition str_of_Z (n : Z) : str := lit (NilZero.string_of_int (Z.to_int n)).

(** ** JSON values, as [json.loads] returns them *)

#[local] Set Warnings "-register-all".

Inductive json : Type :=
| JNull
| JBool (b : bool)
| JInt (n : Z)
| JFloat (literal : str)
| JString (s : str)
| JArray (items : list json)
| JObject (fields : list (str * json)).

Definition str_eqb (a b : str) : bool := bool_decide (a = b).

(** [d.get(key)] on a dict. *)
Fixpoint dict_get (key : str) (fields : list (str * json)) : option json :=
  match fields with
  | [] => None
  | (k, v) :: rest => if str_eqb k key then Some v else dict_get key rest
  end.

(** ** Exceptions *)

Inductive exn : Type :=
| RedisError (msg : str)
| JSONDecodeError (msg : str)
| TypeError (msg : str)
| AttributeError (msg : str)
| IndexError (msg : str)
| UnboundLocalError (msg : str)
| APIConnectionError (msg : str)
| RateLimitError (msg : str)
| AuthenticationError (msg : str)
| APIStatusError (status_code : Z) (msg : str)
| OtherError (msg : str).

(** [str(e)], what an f-string prints for [{e}]. *)
Definition exn_message (e : exn) : str :=
  match e with
  | RedisError m | JSONDecodeError m | TypeError m | AttributeError m
  | IndexError m | UnboundLocalError m | APIConnectionError m
  | RateLimitError m | AuthenticationError m | APIStatusError _ m
  | OtherError m => m
  end.

Inductive res (A : Type) : Type :=
| Ok (a : A)
| Raise (e : exn).
Arguments Ok {A} a.
Arguments Raise {A} e.

(** ** The environment *)

Inductive llm_outcome : Type :=
| LLMText (response_text : str)
| LLMRaise (e : exn).

Record Env : Type := {
  (** [json.loads]: the value, or the message of the [JSONDecodeError]. *)
  json_loads : str -> json + str;
  (** [json.dumps]: [None] when it raises [TypeError]. *)
  json_dumps : json -> option str;
  (** the n-th Redis command of the process fails with this message. *)
  redis_fault : nat -> option str;
  (** the n-th [uuid.uuid4()]. *)
  uuid4 : nat -> str;
  (** the n-th call of [messages.create], given the prompt. *)
  llm : nat -> str -> llm_outcome;
  (** the n-th [datetime.now().isoformat()]. *)
  now : nat -> str;
  (** [bool(x)] for the float a number literal denotes. *)
  float_truthy : str -> bool;
  (** [str(v)] for a float, a list or a dict. *)
  py_repr : json -> str
}.

(** ** Configuration and state *)

Record Config : Type := {
  redis_client : bool;          (* [redis_client is not None] *)
  anthropic_client : bool;      (* [anthropic_client is not None] *)
  claude_prompt : option str    (* [None], or the string of config.yaml *)
}.

Record History : Type := {
  round_count : Z;
  rounds : list json
}.

(** The keys of the Redis server. A session hash holds the single field
    [round_count]; the other keys are lists of JSON documents. Session ids are
    uuid4 strings, so a hash key never coincides with a list key and the two
    kinds are kept apart. [expire] has no effect here: time does not pass. *)
Record Redis : Type := {
  hashes : gmap str Z;
  lists : gmap str (list str)
}.

Record World : Type := {
  redis : Redis;
  redis_calls : nat;
  session_history : History;
  current_session_id : option str;
  uuid_calls : nat;
  llm_calls : list str;
  clock_reads : nat
}.

Definition REDIS_SESSION_PREFIX : str := lit "twotruths:session:".
Definition REDIS_STATEMENT_PREFIX : str := lit "twotruths:statements:".
Definition REDIS_MAX_HISTORY : Z := 100.

Definition set_redis (r : Redis) (w : World) : World :=
  {| redis := r; redis_calls := redis_calls w;
     session_history := session_history w;
     current_session_id := current_session_id w; uuid_calls := uuid_calls w;
     llm_calls := llm_calls w; clock_reads := clock_reads w |}.

Definition set_redis_calls (n : nat) (w : World) : World :=
  {| redis := redis w; redis_calls := n;
     session_history := session_history w;
     current_session_id := current_session_id w; uuid_calls := uuid_calls w;
     llm_calls := llm_calls w; clock_reads := clock_reads w |}.

Definition set_session_history (h : History) (w : World) : World :=
  {| redis := redis w; redis_calls := redis_calls w;
     session_history := h;
     current_session_id := current_session_id w; uuid_calls := uuid_calls w;
     llm_calls := llm_calls w; clock_reads := clock_reads w |}.

Definition set_session_id (s : option str) (n : nat) (w : World) : World :=
  {| redis := redis w; redis_calls := redis_calls w;
     session_history := session_history w;
     current_session_id := s; uuid_calls := n;
     llm_calls := llm_calls w; clock_reads := clock_reads w |}.

Definition set_llm_calls (l : list str) (w : World) : World :=
  {| redis := redis w; redis_calls := redis_calls w;
     session_history := session_history w;
     current_session_id := current_session_id w; uuid_calls := uuid_calls w;
     llm_calls := l; clock_reads := clock_reads w |}.

Definition set_clock_reads (n : nat) (w : World) : World :=
  {| redis := redis w; redis_calls := redis_calls w;
     session_history := session_history w;
     current_session_id := current_session_id w; uuid_calls := uuid_calls w;
     llm_calls := llm_calls w; clock_reads := n |}.

(** ** The monad of a Python function body *)

Definition M (A : Type) : Type := World -> res A * World.

Definition ret {A} (a : A) : M A := fun w => (Ok a, w).
Definition raise {A} (e : exn) : M A := fun w => (Raise e, w).
Definition bind {A B} (m : M A) (k : A -> M B) : M B :=
  fun w => match m w with
           | (Ok a, w') => k a w'
           | (Raise e, w') => (Raise e, w')
           end.
(** [try: m except Exception as e: h e] *)
Definition try_except {A} (m : M A) (h : exn -> M A) : M A :=
  fun w => match m w with
           | (Ok a, w') => (Ok a, w')
           | (Raise e, w') => h e w'
           end.
Definition get_world : M World := fun w => (Ok w, w).
Definition modify (f : World -> World) : M unit := fun w => (Ok tt, f w).

Declare Scope py_scope.
Delimit Scope py_scope with py.
Notation "x <- m ;; k" := (bind m (fun x => k))
  (at level 100, m at next level, right associativity) : py_scope.
Notation "m ;;; k" := (bind m (fun _ => k))
  (at level 100, right associativity) : py_scope.
Local Open Scope py_scope.

(** ** Python's text operations *)

Definition py_isspace (c : N) : bool :=
  (((9 <=? c) && (c <=? 13)) || ((28 <=? c) && (c <=? 32))
   || (c =? 133) || (c =? 160) || (c =? 5760)
   || ((8192 <=? c) && (c <=? 8202))
   || (c =? 8232) || (c =? 8233) || (c =? 8239) || (c =? 8287)
   || (c =? 12288))%N.

Fixpoint lstrip (s : str) : str :=
  match s with
  | [] => []
  | c :: t => if py_isspace c then lstrip t else s
  end.
Definition rstrip (s : str) : str := rev (lstrip (rev s)).
(** [s.strip()] *)
Definition strip (s : str) : str := rstrip (lstrip s).

Fixpoint is_prefix (p s : str) : bool :=
  match p, s with
  | [], _ => true
  | _ :: _, [] => false
  | a :: p', b :: s' => (a =? b)%N && is_prefix p' s'
  end.

(** Index of the first occurrence of [p] in [s]. *)
Fixpoint find_sub (p s : str) {struct s} : option nat :=
  if is_prefix p s then Some 0%nat
  else match s with
       | [] => None
       | _ :: t => S <$> find_sub p t
       end.

(** Index of the last occurrence of [p] in [s]. *)
Fixpoint rfind_sub (p s : str) {struct s} : option nat :=
  match s with
  | [] => if is_prefix p [] then Some 0%nat else None
  | _ :: t =>
      match rfind_sub p t with
      | Some i => Some (S i)
      | None => if is_prefix p s then Some 0%nat else None
      end
  end.

(** [s.find(p)] and [s.rfind(p)]: -1 when [p] does not occur. *)
Definition py_find (p s : str) : Z :=
  match find_sub p s with Some i => Z.of_nat i | None => -1 end.
Definition py_rfind (p s : str) : Z :=
  match rfind_sub p s with Some i => Z.of_nat i | None => -1 end.

(** [s[a:b]] for [0 <= a]. *)
Definition py_slice (s : str) (a b : Z) : str :=
  take (Z.to_nat (b - a)) (drop (Z.to_nat a) s).

(** [s.replace('\\"', '"')]: every backslash followed by a double quote
    loses the backslash, left to right. *)
Fixpoint replace_escaped_quotes (s : str) : str :=
  match s with
  | [] => []
  | c :: t =>
      match t with
      | d :: t' =>
          if ((c =? 92) && (d =? 34))%N then 34%N :: replace_escaped_quotes t'
          else c :: replace_escaped_quotes t
      | [] => [c]
      end
  end.

Definition fence : str := lit "```".

(** [re.findall(r"```(?:json)?(.*?)```", s, re.DOTALL)]: the captures of the
    non-overlapping matches, left to right. An opening fence is the first
    fence of the remaining text, an optional [json] after it is consumed, and
    the lazy group ends at the next fence; when no fence closes the block there
    is no further match. Every match consumes at least six characters, so
    [length s] rounds are enough. *)
Fixpoint findall_fuel (fuel : nat) (s : str) : list str :=
  match fuel with
  | O => []
  | S fuel' =>
      match find_sub fence s with
      | None => []
      | Some i =>
          let after_open := drop (i + 3) s in
          let body := if is_prefix (lit "json") after_open
                      then drop 4 after_open else after_open in
          match find_sub fence body with
          | None => []
          | Some j => take j body :: findall_fuel fuel' (drop (j + 3) body)
          end
      end
  end.

Definition re_findall_code_blocks (s : str) : list str :=
  findall_fuel (length s) s.

(** Step 1 of the response processing: the text handed to [json.loads]. *)
Definition extract_payload (response_text : str) : str :=
  let code_blocks := re_findall_code_blocks response_text in
  match last code_blocks with
  | Some block => strip block
  | None =>
      let json_start := py_find (lit "{") response_text in
      let json_end := py_rfind (lit "}") response_text + 1 in
      if (json_start >=? 0) && (json_end >? json_start)
      then py_slice response_text json_start json_end
      else response_text
  end.

(** The clean-up in the handler of the first [json.loads]. *)
Definition cleaned_json (potential_json : str) : str :=
  let cleaned := strip potential_json in
  if py_find (backslash ++ dquote) cleaned >=? 0
  then replace_escaped_quotes cleaned
  else cleaned.

(** ** Python's operations on decoded values *)

Definition type_name (v : json) : str :=
  match v with
  | JNull => lit "NoneType"
  | JBool _ => lit "bool"
  | JInt _ => lit "int"
  | JFloat _ => lit "float"
  | JString _ => lit "str"
  | JArray _ => lit "list"
  | JObject _ => lit "dict"
  end.

Definition is_str (v : json) (s : str) : bool :=
  match v with
  | JString t => str_eqb t s
  | _ => false
  end.

(** [key in v] for a string [key] (messages as CPython 3.12 words them). *)
Definition py_contains (key : str) (v : json) : res bool :=
  match v with
  | JObject f => Ok (bool_decide (is_Some (dict_get key f)))
  | JArray l => Ok (existsb (fun x => is_str x key) l)
  | JString s => Ok (bool_decide (is_Some (find_sub key s)))
  | _ => Raise (TypeError (lit "argument of type '" ++ type_name v
                           ++ lit "' is not iterable"))
  end.

(** [v[key]] for a string [key]. *)
Definition py_getitem (v : json) (key : str) : res json :=
  match v with
  | JObject f =>
      match dict_get key f with
      | Some x => Ok x
      | None => Raise (OtherError (lit "'" ++ key ++ lit "'"))
      end
  | JArray _ =>
      Raise (TypeError (lit "list indices must be integers or slices, not str"))
  | JString _ =>
      Raise (TypeError (lit "string indices must be integers, not 'str'"))
  | _ => Raise (TypeError (lit "'" ++ type_name v
                           ++ lit "' object is not subscriptable"))
  end.

(** [for x in v]: the elements the loop visits. *)
Definition py_iter (v : json) : res (list json) :=
  match v with
  | JArray l => Ok l
  | JObject f => Ok (map (fun kv => JString (fst kv)) f)
  | JString s => Ok (map (fun c => JString [c]) s)
  | _ => Raise (TypeError (lit "'" ++ type_name v
                           ++ lit "' object is not iterable"))
  end.

(** [v.get(key, dflt)] *)
Definition py_get (v : json) (key : str) (dflt : json) : res json :=
  match v with
  | JObject f => Ok (default dflt (dict_get key f))
  | _ => Raise (AttributeError (lit "'" ++ type_name v
                                ++ lit "' object has no attribute 'get'"))
  end.

(** [isinstance(v, dict) and "error" in v] *)
Definition is_error (v : json) : bool :=
  match v with
  | JObject f => bool_decide (is_Some (dict_get (lit "error") f))
  | _ => false
  end.

Definition error_result (msg : str) : json :=
  JObject [(lit "error", JString msg)].

Definition res_bind {A B} (r : res A) (k : A -> res B) : res B :=
  match r with
  | Ok a => k a
  | Raise e => Raise e
  end.

(** [for x in l: body(x)], collecting the results. *)
Fixpoint res_map {A B} (f : A -> res B) (l : list A) : res (list B) :=
  match l with
  | [] => Ok []
  | x :: t => res_bind (f x) (fun y =>
              res_bind (res_map f t) (fun ys => Ok (y :: ys)))
  end.

Definition lift {A} (r : res A) : M A := fun w => (r, w).

(** ** Redis commands

    Every command first consults the fault schedule of the environment: a
    faulty command raises and leaves the keys as they were. *)

Section Program.
Context (E : Env) (cfg : Config).

Definition redis_cmd {A} (f : Redis -> A * Redis) : M A :=
  fun w =>
    let n := redis_calls w in
    let w1 := set_redis_calls (S n) w in
    match redis_fault E n with
    | Some msg => (Raise (RedisError msg), w1)
    | None => let '(a, r) := f (redis w) in (Ok a, set_redis r w1)
    end.

Definition list_at (r : Redis) (key : str) : list str :=
  default [] (lists r !! key).

Definition with_hashes (h : gmap str Z) (r : Redis) : Redis :=
  {| hashes := h; lists := lists r |}.
Definition with_lists (l : gmap str (list str)) (r : Redis) : Redis :=
  {| hashes := hashes r; lists := l |}.

(** [hgetall(key)]: the [round_count] field, [None] for an empty result. *)
Definition hgetall (key : str) : M (option Z) :=
  redis_cmd (fun r => (hashes r !! key, r)).
Definition hget (key : str) : M (option Z) :=
  redis_cmd (fun r => (hashes r !! key, r)).
Definition hset (key : str) (v : Z) : M unit :=
  redis_cmd (fun r => (tt, with_hashes (<[key := v]> (hashes r)) r)).
Definition hincrby (key : str) (amount : Z) : M Z :=
  redis_cmd (fun r =>
    let n := default 0 (hashes r !! key) + amount in
    (n, with_hashes (<[key := n]> (hashes r)) r)).
Definition expire (key : str) : M unit :=
  redis_cmd (fun r => (tt, r)).
(** [lrange(key, start, stop)] for [0 <= start <= stop]. *)
Definition lrange (key : str) (start stop : Z) : M (list str) :=
  redis_cmd (fun r =>
    (take (Z.to_nat (stop + 1 - start)) (drop (Z.to_nat start) (list_at r key)),
     r)).
Definition lpush (key : str) (v : str) : M unit :=
  redis_cmd (fun r => (tt, with_lists (<[key := v :: list_at r key]> (lists r)) r)).
(** [ltrim(key, start, stop)] for [0 <= start <= stop]; a list that becomes
    empty is removed. *)
Definition ltrim (key : str) (start stop : Z) : M unit :=
  redis_cmd (fun r =>
    let kept := take (Z.to_nat (stop + 1 - start))
                     (drop (Z.to_nat start) (list_at r key)) in
    (tt, with_lists (match kept with
                     | [] => delete key (lists r)
                     | _ => <[key := kept]> (lists r)
                     end) r)).
Definition llen (key : str) : M Z :=
  redis_cmd (fun r => (Z.of_nat (length (list_at r key)), r)).
Definition redis_delete (key : str) : M unit :=
  redis_cmd (fun r =>
    (tt, {| hashes := delete key (hashes r); lists := delete key (lists r) |})).

(** [json.dumps(v)] inside a function body. *)
Definition dumps (v : json) : M str :=
  match json_dumps E v with
  | Some s => ret s
  | None => raise (TypeError (lit "Object is not JSON serializable"))
  end.

(** ** Session management functions *)

Definition get_session_id : M str :=
  fun w =>
    match current_session_id w with
    | Some (c :: s) => (Ok (c :: s), w)
    | _ =>
        let new_id := uuid4 E (uuid_calls w) in
        (Ok new_id, set_session_id (Some new_id) (S (uuid_calls w)) w)
    end.

(** The loop of [get_session_history] over the stored documents: a document
    that does not decode is skipped. *)
Definition decode_rounds (docs : list str) : list json :=
  omap (fun d => match json_loads E d with
                 | inl v => Some v
                 | inr _ => None
                 end) docs.

Definition get_session_history (session_id : str) : M History :=
  if negb (redis_client cfg) then
    w <- get_world ;; ret (session_history w)
  else
    try_except
      (let session_key := REDIS_SESSION_PREFIX ++ session_id in
       session_data <- hgetall session_key ;;
       count <- match session_data with
                | Some n => ret n
                | None => hset session_key 0 ;;; expire session_key ;;; ret 0
                end ;;
       let statements_key := REDIS_STATEMENT_PREFIX ++ session_id in
       statement_history <- lrange statements_key 0 (REDIS_MAX_HISTORY - 1) ;;
       ret {| round_count := count;
              rounds := decode_rounds statement_history |})
      (fun _ => w <- get_world ;; ret (session_history w)).

(** [l[-n:]] *)
Definition py_last_n {A} (n : nat) (l : list A) : list A :=
  drop (length l - n)%nat l.

(** The body guarded by [history_lock] in [update_session_history]. *)
Definition memory_append (statements : json) (h : History) : History :=
  let rounds1 := rounds h ++ [statements] in
  {| round_count := round_count h + 1;
     rounds := if Z.of_nat (length rounds1) >? REDIS_MAX_HISTORY
               then py_last_n (Z.to_nat REDIS_MAX_HISTORY) rounds1
               else rounds1 |}.

Definition update_memory (statements : json) : M unit :=
  modify (fun w => set_session_history
                     (memory_append statements (session_history w)) w).

Definition update_session_history (session_id : str) (statements : json)
  : M unit :=
  if negb (redis_client cfg) then update_memory statements
  else
    try_except
      (let session_key := REDIS_SESSION_PREFIX ++ session_id in
       let statements_key := REDIS_STATEMENT_PREFIX ++ session_id in
       new_count <- hincrby session_key 1 ;;
       expire session_key ;;;
       statements_json <- dumps statements ;;
       lpush statements_key statements_json ;;;
       ltrim statements_key 0 (REDIS_MAX_HISTORY - 1) ;;;
       expire statements_key ;;;
       llen statements_key ;;;
       ret tt)
      (fun _ => update_memory statements).

(** ** Round generation *)

(** [bool(v)] *)
Definition truthy (v : json) : bool :=
  match v with
  | JNull => false
  | JBool b => b
  | JInt n => negb (n =? 0)
  | JFloat l => float_truthy E l
  | JString s => negb (bool_decide (s = []))
  | JArray l => negb (bool_decide (l = []))
  | JObject f => negb (bool_decide (f = []))
  end.

(** [str(v)], what an f-string prints for [{v}]. *)
Definition py_str (v : json) : str :=
  match v with
  | JNull => lit "None"
  | JBool true => lit "True"
  | JBool false => lit "False"
  | JInt n => str_of_Z n
  | JString s => s
  | _ => py_repr E v
  end.

(** One line of the history context. *)
Definition render_statement (stmt : json) : res str :=
  res_bind (py_get stmt (lit "isLie") (JBool false)) (fun is_lie =>
  res_bind (py_get stmt (lit "text") (JString (lit "Unknown"))) (fun text =>
  Ok (lit "- " ++ (if truthy is_lie then lit "LIE" else lit "TRUTH")
      ++ lit ": " ++ py_str text ++ nl))).

(** The text one previous round adds to the history context. *)
Definition render_round (round_idx : Z) (prev_round : json) : res str :=
  res_bind (py_iter prev_round) (fun stmts =>
  res_bind (res_map render_statement stmts) (fun lines =>
  Ok (lit "Round " ++ str_of_Z round_idx ++ lit ":" ++ nl ++ concat lines))).

(** The loop over [enumerate(recent_rounds)], from index [idx]. *)
Fixpoint render_rounds (count : Z) (n : Z) (idx : Z) (recent : list json)
  : res str :=
  match recent with
  | [] => Ok []
  | prev_round :: rest =>
      res_bind (render_round (count - n + idx + 1) prev_round) (fun t =>
      res_bind (render_rounds count n (idx + 1) rest) (fun ts =>
      Ok (t ++ ts)))
  end.

(** [history["rounds"][:15]] *)
Definition recent_rounds (history : History) : list json :=
  take 15 (rounds history).

Definition build_history_text (history : History) : res str :=
  match rounds history with
  | [] => Ok []
  | _ :: _ =>
      let recent := recent_rounds history in
      let n := Z.of_nat (length recent) in
      res_bind (render_rounds (round_count history) n 0 recent) (fun body =>
      Ok (lit "Here are the previous statements used in this session:" ++ nl
          ++ body ++ nl
          ++ lit "IMPORTANT: You've now seen " ++ str_of_Z n
          ++ lit " previous rounds. Please generate completely new statements that don't overlap with ANY previous topics or facts."))
  end.

Definition easter_egg_text (round_number : Z) : str :=
  nl ++ nl ++ lit "IMPORTANT: This is set number " ++ str_of_Z round_number
  ++ lit ", which is divisible by 3. PLEASE INCLUDE AN EASTER EGG about Erin and John Poore as described in instruction #7.".

Definition easter_egg_set (round_number : Z) : bool :=
  round_number mod 3 =? 0.

Definition easter_egg_instruction (round_number : Z) : str :=
  if easter_egg_set round_number then easter_egg_text round_number else [].

Definition prompt_to_send (prompt history_text : str) (round_number : Z)
  : str :=
  match history_text with
  | _ :: _ =>
      prompt ++ nl ++ nl ++ history_text ++ nl ++ nl
      ++ lit "IMPORTANT: DO NOT repeat any of the facts or topics above. This is round "
      ++ str_of_Z round_number ++ lit ", so ensure complete variety."
      ++ easter_egg_instruction round_number
  | [] =>
      prompt ++ nl ++ nl ++ lit "This is round " ++ str_of_Z round_number
      ++ lit "." ++ easter_egg_instruction round_number
  end.

Definition read_clock : M str :=
  fun w => (Ok (now E (clock_reads w)),
            set_clock_reads (S (clock_reads w)) w).

(** [anthropic_client.messages.create(...)] and [message.content[0].text]. *)
Definition call_model (prompt : str) : M str :=
  fun w =>
    let w1 := set_llm_calls (llm_calls w ++ [prompt]) w in
    match llm E (length (llm_calls w)) prompt with
    | LLMText t => (Ok t, w1)
    | LLMRaise e => (Raise e, w1)
    end.

(** The guarded block that pushes a log entry on a bounded Redis list. *)
Definition store_log (key : str) (entry : json) : M unit :=
  if redis_client cfg then
    try_except
      (entry_json <- dumps entry ;;
       lpush key entry_json ;;;
       ltrim key 0 (REDIS_MAX_HISTORY - 1) ;;;
       expire key)
      (fun _ => ret tt)
  else ret tt.

Definition prompt_log (round_number : Z) (prompt history_text full : str)
  (timestamp : str) : json :=
  JObject [(lit "round_number", JInt round_number);
           (lit "prompt", JString prompt);
           (lit "history_context",
            match history_text with [] => JNull | _ => JString history_text end);
           (lit "full_prompt", JString full);
           (lit "is_easter_egg_set", JBool (easter_egg_set round_number));
           (lit "timestamp", JString timestamp)].

Definition response_log (round_number : Z) (response_text timestamp : str)
  : json :=
  JObject [(lit "round_number", JInt round_number);
           (lit "response", JString response_text);
           (lit "timestamp", JString timestamp)].

(** Step 2 of the response processing: [json.loads] with one clean-up. *)
Definition json_text (potential_json : str) : str :=
  match json_loads E potential_json with
  | inl _ => potential_json
  | inr _ => cleaned_json potential_json
  end.

Definition parse_response (response_text : str) : json + str :=
  json_loads E (json_text (extract_payload response_text)).

Definition loads (s : str) : M json :=
  match json_loads E s with
  | inl v => ret v
  | inr msg => raise (JSONDecodeError msg)
  end.

(** The loop that collects the topics for the log. *)
Definition topic_of (stmt : json) : res unit :=
  res_bind (py_get stmt (lit "text") (JString [])) (fun text =>
  match text with
  | JString _ => Ok tt
  | _ => Raise (AttributeError (lit "'" ++ type_name text
                                ++ lit "' object has no attribute 'split'"))
  end).

Definition log_topics (statements : json) : res unit :=
  res_bind (py_iter statements) (fun stmts =>
  res_bind (res_map topic_of stmts) (fun _ => Ok tt)).

(** [statements = []; if "statements" in round_data: ...] *)
Definition statements_of (round_data : json) : res json :=
  res_bind (py_contains (lit "statements") round_data) (fun present =>
  if (present : bool) then py_getitem round_data (lit "statements")
  else Ok (JArray [])).

(** The inner [try] block: from the extraction to [return round_data]. *)
Definition process_response (response_text : str) : M json :=
  try_except
    (round_data <- loads (json_text (extract_payload response_text)) ;;
     statements <- lift (statements_of round_data) ;;
     session_id <- get_session_id ;;
     update_session_history session_id statements ;;;
     lift (log_topics statements) ;;;
     (if redis_client cfg then
        try_except (llen (REDIS_STATEMENT_PREFIX ++ session_id) ;;; ret tt)
                   (fun _ => ret tt)
      else ret tt) ;;;
     ret round_data)
    (fun e => match e with
              | JSONDecodeError msg =>
                  ret (error_result
                         (lit "Failed to parse response from LLM: " ++ msg))
              | _ => raise e
              end).

(** The [except] clauses of the outer [try], in their order. *)
Definition api_error (e : exn) : json :=
  match e with
  | APIConnectionError m => error_result (lit "API Connection Error: " ++ m)
  | RateLimitError m => error_result (lit "API Rate Limit Error: " ++ m)
  | AuthenticationError m =>
      error_result (lit "API Authentication Error: " ++ m
                    ++ lit ". Check your API key.")
  | APIStatusError code _ =>
      error_result (lit "API Status Error: " ++ str_of_Z code)
  | _ => error_result (lit "Unexpected API Error: " ++ exn_message e)
  end.

(** The outer [try] block. *)
Definition request_round (session_id prompt history_text : str)
  (round_number : Z) : M json :=
  try_except
    (let full := prompt_to_send prompt history_text round_number in
     t1 <- read_clock ;;
     store_log (REDIS_SESSION_PREFIX ++ session_id ++ lit ":prompts")
               (prompt_log round_number prompt history_text full t1) ;;;
     response_text <- call_model full ;;
     t2 <- read_clock ;;
     store_log (REDIS_SESSION_PREFIX ++ session_id ++ lit ":responses")
               (response_log round_number response_text t2) ;;;
     process_response response_text)
    (fun e => ret (api_error e)).

Definition client_not_initialized : json :=
  error_result (lit "Anthropic client not initialized. Check API key.").
Definition prompt_not_loaded : json :=
  error_result (lit "Claude prompt not loaded. Check config.yaml.").

Definition generate_new_round : M json :=
  if negb (anthropic_client cfg) then ret client_not_initialized
  else
    match claude_prompt cfg with
    | None | Some [] => ret prompt_not_loaded
    | Some prompt =>
        session_id <- get_session_id ;;
        history <- get_session_history session_id ;;
        let round_number := round_count history + 1 in
        history_text <- lift (build_history_text history) ;;
        request_round session_id prompt history_text round_number
    end.

(** ** The [POST] branch of [manage_session] *)

(** In [manage_session] the name [session_history] is assigned (in the
    in-memory branch of the reset) and the function has no
    [global session_history]: the name is a local variable of the function,
    and it is unbound when the branch reads it. *)
Definition local_session_history : option History := None.

Definition session_reset_message (n : Z) : json :=
  JObject [(lit "message",
            JString (lit "Session reset. Cleared " ++ str_of_Z n
                     ++ lit " rounds."))].

Definition invalid_action : json :=
  JObject [(lit "error",
            JString (lit "Invalid action. Use 'reset' to clear session history or 'new' to create a new session."))].

(** The response body and the status code. *)
Definition manage_session_post (request_json : list (str * json))
  : M (json * Z) :=
  session_id <- get_session_id ;;
  let action := default (JString []) (dict_get (lit "action") request_json) in
  if is_str action (lit "reset") then
    if redis_client cfg then
      try_except
        (let session_key := REDIS_SESSION_PREFIX ++ session_id in
         let statements_key := REDIS_STATEMENT_PREFIX ++ session_id in
         stored <- hget session_key ;;
         let round_count := default 0 stored in
         redis_delete session_key ;;;
         redis_delete statements_key ;;;
         redis_delete (REDIS_SESSION_PREFIX ++ session_id ++ lit ":prompts") ;;;
         redis_delete (REDIS_SESSION_PREFIX ++ session_id ++ lit ":responses") ;;;
         hset session_key 0 ;;;
         expire session_key ;;;
         ret (session_reset_message round_count, 200))
        (fun _ => ret (JObject [], 200))
    else
      match local_session_history with
      | None =>
          raise (UnboundLocalError
                   (lit "cannot access local variable 'session_history' where it is not associated with a value"))
      | Some h =>
          ret (session_reset_message (round_count h), 200)
      end
  else if is_str action (lit "new") then
    fun w =>
      let new_id := uuid4 E (uuid_calls w) in
      (Ok (JObject [(lit "message", JString (lit "New session created"));
                    (lit "session_id", JString new_id)], 200),
       set_session_id (Some new_id) (S (uuid_calls w)) w)
  else ret (invalid_action, 400).

(** ** Preloading *)

Record Sched : Type := {
  new_round_requested : bool;
  preloaded_round : option json;
  is_preloading : bool
}.

Definition set_is_preloading (b : bool) (s : Sched) : Sched :=
  {| new_round_requested := new_round_requested s;
     preloaded_round := preloaded_round s; is_preloading := b |}.
Definition set_preloaded_round (r : option json) (s : Sched) : Sched :=
  {| new_round_requested := new_round_requested s;
     preloaded_round := r; is_preloading := is_preloading s |}.

(** The check-and-set under [preload_lock]: [true] when the attempt goes on. *)
Definition preload_enter (s : Sched) : bool * Sched :=
  if is_preloading s || bool_decide (is_Some (preloaded_round s))
  then (false, s)
  else (true, set_is_preloading true s).

(** What the attempt does with the outcome of the generation. *)
Definition preload_store (next_round : json) (s : Sched) : Sched :=
  if is_error next_round then s
  else if truthy next_round then set_preloaded_round (Some next_round) s
  else s.

(** The [finally] clause. *)
Definition preload_finally (s : Sched) : Sched := set_is_preloading false s.

Definition preload_next_round (s : Sched) (w : World)
  : res unit * Sched * World :=
  match preload_enter s with
  | (false, s0) => (Ok tt, s0, w)
  | (true, s1) =>
      match generate_new_round w with
      | (Ok next_round, w') =>
          (Ok tt, preload_finally (preload_store next_round s1), w')
      | (Raise e, w') => (Raise e, preload_finally s1, w')
      end
  end.

(** The idle branch of [background_task]: does it start a preload thread? *)
Definition idle_starts_preload (s : Sched) : bool :=
  bool_decide (preloaded_round s = None) && negb (is_preloading s).

(** ** Broadcasting *)

(** The envelope. *)
Definition message_data (event_type : str) (payload : json) : res json :=
  if str_eqb event_type (lit "error") then
    res_bind (py_get payload (lit "message") (JString (lit "Unknown error")))
      (fun m => Ok (JObject [(lit "type", JString event_type);
                             (lit "message", m)]))
  else Ok (JObject [(lit "type", JString event_type);
                    (lit "payload", payload)]).

Definition sse_frame (json_data : str) : str :=
  lit "data: " ++ json_data ++ nl ++ nl.

(** The body of the loop over the registry, for one client's queue; [put]
    appends at the tail of the queue. *)
Definition deliver (data : json) (queue : list str) : list str :=
  match json_dumps E data with
  | Some json_data => queue ++ [sse_frame json_data]
  | None => queue
  end.

Definition broadcast_message (event_type : str) (payload : json)
  (message_queues : gmap Z (list str)) : res (gmap Z (list str)) :=
  res_bind (message_data event_type payload) (fun data =>
  Ok (deliver data <$> message_queues)).

End Program.

(** ** A reference [json] codec

    The theorems below hold for every [Env]. Where a concrete run is
    evaluated, the [json] module is this encoder and decoder, which follow
    CPython's [json.encoder] and [json.decoder] (default options) on objects,
    arrays, strings, integers, [true], [false] and [null]; a number with a
    fraction or an exponent is kept as its literal. *)

Module RefJson.

Definition hex_digit (n : N) : N :=
  (if n <? 10 then 48 + n else 87 + n)%N.

Definition hex4 (v : N) : str :=
  [hex_digit (v / 4096 mod 16); hex_digit (v / 256 mod 16);
   hex_digit (v / 16 mod 16); hex_digit (v mod 16)]%N.

Definition u_escape (v : N) : str := backslash ++ lit "u" ++ hex4 v.

(** [ensure_ascii=True]: everything outside [' '..'~'] is escaped. *)
Definition escape_char (c : N) : str :=
  (if c =? 34 then backslash ++ dquote
   else if c =? 92 then backslash ++ backslash
   else if c =? 10 then backslash ++ lit "n"
   else if c =? 13 then backslash ++ lit "r"
   else if c =? 9 then backslash ++ lit "t"
   else if c =? 8 then backslash ++ lit "b"
   else if c =? 12 then backslash ++ lit "f"
   else if (32 <=? c) && (c <=? 126) then [c]
   else if c <? 65536 then u_escape c
   else let v := c - 65536 in
        u_escape (55296 + v / 1024) ++ u_escape (56320 + v mod 1024))%N.

Definition quote (s : str) : str :=
  dquote ++ concat (map escape_char s) ++ dquote.

Fixpoint dumps (v : json) : str :=
  match v with
  | JNull => lit "null"
  | JBool true => lit "true"
  | JBool false => lit "false"
  | JInt n => str_of_Z n
  | JFloat l => l
  | JString s => quote s
  | JArray l =>
      lit "["
      ++ (fix items (l : list json) : str :=
            match l with
            | [] => []
            | x :: t =>
                dumps x ++ match t with [] => [] | _ => lit ", " ++ items t end
            end) l
      ++ lit "]"
  | JObject f =>
      lit "{"
      ++ (fix fields (f : list (str * json)) : str :=
            match f with
            | [] => []
            | (k, x) :: t =>
                quote k ++ lit ": " ++ dumps x
                ++ match t with [] => [] | _ => lit ", " ++ fields t end
            end) f
      ++ lit "}"
  end.

Inductive parse (A : Type) : Type :=
| Parsed (a : A) (rest : str)
| Failed (msg : str) (remaining : nat).
Arguments Parsed {A} a rest.
Arguments Failed {A} msg remaining.

Definition is_ws (c : N) : bool :=
  ((c =? 32) || (c =? 9) || (c =? 10) || (c =? 13))%N.

Fixpoint skip_ws (s : str) : str :=
  match s with
  | c :: t => if is_ws c then skip_ws t else s
  | [] => []
  end.

Definition is_digit (c : N) : bool := ((48 <=? c) && (c <=? 57))%N.

Fixpoint take_digits (s : str) : str * str :=
  match s with
  | c :: t => if is_digit c
              then let '(d, r) := take_digits t in (c :: d, r)
              else ([], s)
  | [] => ([], [])
  end.

Definition int_of_digits (d : str) : Z :=
  fold_left (fun acc c => 10 * acc + Z.of_N (c - 48)) d 0.

Definition hex_value (c : N) : option N :=
  (if (48 <=? c) && (c <=? 57) then Some (c - 48)
   else if (97 <=? c) && (c <=? 102) then Some (c - 87)
   else if (65 <=? c) && (c <=? 70) then Some (c - 55)
   else None)%N.

Definition hex4_value (a b c d : N) : option N :=
  match hex_value a, hex_value b, hex_value c, hex_value d with
  | Some x, Some y, Some z, Some w => Some (((x * 16 + y) * 16 + z) * 16 + w)%N
  | _, _, _, _ => None
  end.

Definition simple_escape (c : N) : option N :=
  (if c =? 34 then Some 34 else if c =? 92 then Some 92
   else if c =? 47 then Some 47 else if c =? 98 then Some 8
   else if c =? 102 then Some 12 else if c =? 110 then Some 10
   else if c =? 114 then Some 13 else if c =? 116 then Some 9
   else None)%N.

(** The characters of a string after its opening quote; [start] is what
    remained of the text at that quote. *)
Fixpoint scan_string (start : nat) (s : str) : parse str :=
  match s with
  | [] => Failed (lit "Unterminated string starting at") start
  | c :: t =>
      if (c =? 34)%N then Parsed [] t
      else if (c =? 92)%N then
        match t with
        | [] => Failed (lit "Unterminated string starting at") start
        | e :: t1 =>
            if (e =? 117)%N then
              match t1 with
              | h1 :: h2 :: h3 :: h4 :: t2 =>
                  match hex4_value h1 h2 h3 h4 with
                  | None => Failed (lit "Invalid \uXXXX escape") (length t)
                  | Some u =>
                      let single :=
                        match scan_string start t2 with
                        | Parsed x r => Parsed (u :: x) r
                        | Failed m n => Failed m n
                        end in
                      if ((55296 <=? u) && (u <=? 56319))%N then
                        match t2 with
                        | 92%N :: 117%N :: l1 :: l2 :: l3 :: l4 :: t3 =>
                            match hex4_value l1 l2 l3 l4 with
                            | Some u2 =>
                                if ((56320 <=? u2) && (u2 <=? 57343))%N then
                                  match scan_string start t3 with
                                  | Parsed x r =>
                                      Parsed ((65536
                                               + (u - 55296) * 1024
                                               + (u2 - 56320))%N :: x) r
                                  | Failed m n => Failed m n
                                  end
                                else single
                            | None =>
                                Failed (lit "Invalid \uXXXX escape")
                                       (length t2 - 1)
                            end
                        | _ => single
                        end
                      else single
                  end
              | _ => Failed (lit "Invalid \uXXXX escape") (length t)
              end
            else
              match simple_escape e with
              | Some x =>
                  match scan_string start t1 with
                  | Parsed y r => Parsed (x :: y) r
                  | Failed m n => Failed m n
                  end
              | None => Failed (lit "Invalid \escape") (length s)
              end
        end
      else if (c <? 32)%N then
        Failed (lit "Invalid control character at") (length s)
      else
        match scan_string start t with
        | Parsed x r => Parsed (c :: x) r
        | Failed m n => Failed m n
        end
  end.

(** A dict keeps the place of a key that is set again. *)
Fixpoint dict_set (key : str) (v : json) (f : list (str * json))
  : list (str * json) :=
  match f with
  | [] => [(key, v)]
  | (k, x) :: t =>
      if str_eqb k key then (k, v) :: t else (k, x) :: dict_set key v t
  end.

Definition expecting_value : str := lit "Expecting value".

(** A number at the head of [s], whose first character is [-] or a digit. *)
Definition scan_number (s : str) : parse json :=
  let '(neg, body) := match s with
                      | 45%N :: t => (true, t)
                      | _ => (false, s)
                      end in
  match body with
  | c :: t =>
      if is_digit c then
        let '(int_part, r) :=
          if (c =? 48)%N then ([c], t) else take_digits body in
        let '(frac, r1) :=
          match r with
          | 46%N :: d :: t' =>
              if is_digit d
              then let '(ds, r') := take_digits (d :: t') in (46%N :: ds, r')
              else ([], r)
          | _ => ([], r)
          end in
        let '(ex, r2) :=
          match r1 with
          | e :: t' =>
              if ((e =? 101) || (e =? 69))%N then
                let '(sign, t'') :=
                  match t' with
                  | sg :: u => if ((sg =? 43) || (sg =? 45))%N
                               then ([sg], u) else ([], t')
                  | [] => ([], t')
                  end in
                match take_digits t'' with
                | ([], _) => ([], r1)
                | (ds, r') => (e :: sign ++ ds, r')
                end
              else ([], r1)
          | [] => ([], r1)
          end in
        match frac ++ ex with
        | [] => Parsed (JInt (if neg then - int_of_digits int_part
                              else int_of_digits int_part)) r2
        | _ => Parsed (JFloat ((if neg then [45%N] else [])
                               ++ int_part ++ frac ++ ex)) r2
        end
      else Failed expecting_value (length s)
  | [] => Failed expecting_value (length s)
  end.

Definition scan_word (word : string) (v : json) (s : str) : parse json :=
  if is_prefix (lit word) s
  then Parsed v (drop (length (lit word)) s)
  else Failed expecting_value (length s).

(** [scan_once] of the decoder; every call consumes a character, so a fuel
    of one more than the length of the text is never used up. *)
Fixpoint scan_once (fuel : nat) (s : str) : parse json :=
  match fuel with
  | O => Failed expecting_value (length s)
  | S fuel' =>
      match s with
      | [] => Failed expecting_value 0
      | c :: t =>
          if (c =? 34)%N then
            match scan_string (length s) t with
            | Parsed x r => Parsed (JString x) r
            | Failed m n => Failed m n
            end
          else if (c =? 123)%N then
            match skip_ws t with
            | 125%N :: r => Parsed (JObject []) r
            | t1 => scan_fields fuel' t1 []
            end
          else if (c =? 91)%N then
            match skip_ws t with
            | 93%N :: r => Parsed (JArray []) r
            | t1 => scan_items fuel' t1 []
            end
          else if (c =? 110)%N then scan_word "null" JNull s
          else if (c =? 116)%N then scan_word "true" (JBool true) s
          else if (c =? 102)%N then scan_word "false" (JBool false) s
          else if (c =? 78)%N then scan_word "NaN" (JFloat (lit "NaN")) s
          else if (c =? 73)%N then
            scan_word "Infinity" (JFloat (lit "Infinity")) s
          else if (c =? 45)%N && is_prefix (lit "-Infinity") s then
            scan_word "-Infinity" (JFloat (lit "-Infinity")) s
          else if (c =? 45)%N || is_digit c then scan_number s
          else Failed expecting_value (length s)
      end
  end
with scan_fields (fuel : nat) (s : str) (acc : list (str * json))
  : parse json :=
  match fuel with
  | O => Failed expecting_value (length s)
  | S fuel' =>
      match s with
      | 34%N :: t =>
          match scan_string (length s) t with
          | Failed m n => Failed m n
          | Parsed key r =>
              match skip_ws r with
              | 58%N :: r2 =>
                  match scan_once fuel' (skip_ws r2) with
                  | Failed m n => Failed m n
                  | Parsed v r3 =>
                      match skip_ws r3 with
                      | 125%N :: r5 => Parsed (JObject (dict_set key v acc)) r5
                      | 44%N :: r5 =>
                          scan_fields fuel' (skip_ws r5) (dict_set key v acc)
                      | r4 => Failed (lit "Expecting ',' delimiter") (length r4)
                      end
                  end
              | r1 => Failed (lit "Expecting ':' delimiter") (length r1)
              end
          end
      | _ =>
          Failed (lit "Expecting property name enclosed in double quotes")
                 (length s)
      end
  end
with scan_items (fuel : nat) (s : str) (acc : list json) : parse json :=
  match fuel with
  | O => Failed expecting_value (length s)
  | S fuel' =>
      match scan_once fuel' s with
      | Failed m n => Failed m n
      | Parsed v r =>
          match skip_ws r with
          | 93%N :: r2 => Parsed (JArray (acc ++ [v])) r2
          | 44%N :: r2 => scan_items fuel' (skip_ws r2) (acc ++ [v])
          | r1 => Failed (lit "Expecting ',' delimiter") (length r1)
          end
      end
  end.

(** [str(JSONDecodeError(msg, doc, pos))] *)
Definition decode_error (msg : str) (doc : str) (pos : nat) : str :=
  let before := take pos doc in
  let lineno := S (length (filter (fun c => c = 10%N) before)) in
  let colno := match rfind_sub nl before with
               | Some i => (pos - i)%nat
               | None => S pos
               end in
  msg ++ lit ": line " ++ str_of_Z (Z.of_nat lineno)
  ++ lit " column " ++ str_of_Z (Z.of_nat colno)
  ++ lit " (char " ++ str_of_Z (Z.of_nat pos) ++ lit ")".

Definition loads (doc : str) : json + str :=
  match scan_once (S (length doc)) (skip_ws doc) with
  | Failed msg remaining =>
      inr (decode_error msg doc (length doc - remaining))
  | Parsed v rest =>
      match skip_ws rest with
      | [] => inl v
      | r => inr (decode_error (lit "Extra data") doc (length doc - length r))
      end
  end.

End RefJson.

(** ** Concrete runs *)

Definition uuid_of (n : nat) : str :=
  lit "3f2b8c1e-6d4a-4b7f-9a10-00000000000" ++ str_of_Z (Z.of_nat n).

(** An environment with the reference codec, a Redis server without faults
    and the given model. *)
Definition env_of (model : nat -> str -> llm_outcome) : Env :=
  {| json_loads := RefJson.loads;
     json_dumps := fun v => Some (RefJson.dumps v);
     redis_fault := fun _ => None;
     uuid4 := uuid_of;
     llm := model;
     now := fun n => lit "2025-05-01T12:00:0" ++ str_of_Z (Z.of_nat n);
     float_truthy := fun _ => true;
     py_repr := RefJson.dumps |}.

Definition silent_model : nat -> str -> llm_outcome :=
  fun _ _ => LLMRaise (APIConnectionError (lit "Connection error."))  .

Definition empty_history : History := {| round_count := 0; rounds := [] |}.

(** The state of the module right after import. *)
Definition initial_world : World :=
  {| redis := {| hashes := ∅; lists := ∅ |};
     redis_calls := 0;
     session_history := empty_history;
     current_session_id := None;
     uuid_calls := 0;
     llm_calls := [];
     clock_reads := 0 |}.

Definition memory_config : Config :=
  {| redis_client := false; anthropic_client := true;
     claude_prompt := Some (lit "Write two truths and a lie as JSON.") |}.

Definition redis_config : Config :=
  {| redis_client := true; anthropic_client := true;
     claude_prompt := Some (lit "Write two truths and a lie as JSON.") |}.

Definition statement (text : string) (is_lie : bool) : json :=
  JObject [(lit "text", JString (lit text)); (lit "isLie", JBool is_lie);
           (lit "explanation", JString (lit "because"))].

Definition round_of (tag : string) : json :=
  JArray [statement (tag ++ " truth one") false;
          statement (tag ++ " truth two") false;
          statement (tag ++ " lie") true].

(** [update_session_history] once for every round of the list, in order. *)
Fixpoint append_all (E : Env) (cfg : Config) (session_id : str)
  (new_rounds : list json) : M unit :=
  match new_rounds with
  | [] => ret tt
  | r :: rest =>
      bind (update_session_history E cfg session_id r)
           (fun _ => append_all E cfg session_id rest)
  end.

(** ** The history store *)

Section HistoryStore.
Context (E : Env).

Definition in_memory (cfg : Config) : Prop := redis_client cfg = false.

Lemma update_in_memory cfg sid r w :
  in_memory cfg ->
  update_session_history E cfg sid r w =
  (Ok tt, set_session_history (memory_append r (session_history w)) w).
Proof. unfold in_memory, update_session_history. intros ->. reflexivity. Qed.

Lemma get_in_memory cfg sid w :
  in_memory cfg ->
  get_session_history E cfg sid w = (Ok (session_history w), w).
Proof. unfold in_memory, get_session_history. intros ->. reflexivity. Qed.

(** The in-memory history after a list of rounds was appended to [h]. *)
Definition memory_after (h : History) (new_rounds : list json) : History :=
  fold_left (fun h r => memory_append r h) new_rounds h.

Lemma append_all_in_memory cfg sid rs w :
  in_memory cfg ->
  append_all E cfg sid rs w =
  (Ok tt, set_session_history (memory_after (session_history w) rs) w).
Proof.
  intros Hm. revert w. induction rs as [|r rs IH]; intros w.
  - destruct w as [? ? [? ?] ? ? ? ?]. reflexivity.
  - cbn [append_all]. unfold bind. rewrite update_in_memory by done.
    rewrite IH. destruct w; reflexivity.
Qed.

Lemma memory_append_rounds r h :
  (length (rounds h) <= 100)%nat ->
  rounds (memory_append r h) = py_last_n 100 (rounds h ++ [r]).
Proof.
  intros Hl. unfold memory_append, py_last_n, REDIS_MAX_HISTORY. cbn [rounds].
  rewrite length_app. cbn [length].
  destruct (Z.gtb_spec (Z.of_nat (length (rounds h) + 1)) 100) as [Hgt|Hle].
  - reflexivity.
  - replace (length (rounds h) + 1 - 100)%nat with 0%nat by lia. reflexivity.
Qed.

Lemma py_last_n_length {A} n (l : list A) :
  length (py_last_n n l) = Nat.min (length l) n.
Proof. unfold py_last_n. rewrite length_drop. lia. Qed.

Lemma py_last_n_snoc {A} n (l : list A) x :
  py_last_n (S n) (py_last_n (S n) l ++ [x]) = py_last_n (S n) (l ++ [x]).
Proof.
  unfold py_last_n. rewrite !length_app, length_drop. cbn [length].
  destruct (decide (length l <= S n)%nat) as [Hs|Hs].
  - replace (length l - S n)%nat with 0%nat by lia. rewrite drop_0.
    f_equal. lia.
  - rewrite drop_app_le by (rewrite length_drop; lia).
    rewrite drop_drop.
    rewrite (drop_app_le l) by lia.
    f_equal. f_equal. lia.
Qed.

(** After any appends to the empty history, the in-memory store holds the
    last hundred rounds in the order in which they were appended. *)
Lemma memory_after_empty rs :
  round_count (memory_after empty_history rs) = Z.of_nat (length rs)
  /\ rounds (memory_after empty_history rs) = py_last_n 100 rs.
Proof.
  induction rs as [|r rs [IHc IHr]] using rev_ind.
  - split; reflexivity.
  - unfold memory_after in *. rewrite fold_left_app. cbn [fold_left].
    split.
    + cbn [memory_append round_count]. rewrite IHc, length_app.
      cbn [length]. lia.
    + rewrite memory_append_rounds.
      * rewrite IHr. apply (py_last_n_snoc 99).
      * rewrite IHr, py_last_n_length. lia.
Qed.

(** *** The persisted backend, when no Redis command fails *)

Definition no_faults : Prop := forall n, redis_fault E n = None.
Definition persisted (cfg : Config) : Prop := redis_client cfg = true.

Lemma redis_cmd_ok {A} (f : Redis -> A * Redis) w :
  no_faults ->
  redis_cmd E f w =
  (Ok (fst (f (redis w))),
   set_redis (snd (f (redis w))) (set_redis_calls (S (redis_calls w)) w)).
Proof.
  intros Hnf. unfold redis_cmd. rewrite Hnf. destruct (f (redis w)).
  reflexivity.
Qed.

(** What the session's two keys hold: the counter of the hash (0 when the
    hash is absent) and the documents of the list. *)
Definition stored_count (r : Redis) (sid : str) : Z :=
  default 0 (hashes r !! (REDIS_SESSION_PREFIX ++ sid)).
Definition stored_docs (r : Redis) (sid : str) : list str :=
  list_at r (REDIS_STATEMENT_PREFIX ++ sid).

Ltac run_redis Hnf :=
  unfold bind, try_except, ret;
  repeat (rewrite (redis_cmd_ok _ _ Hnf);
          cbn [fst snd redis set_redis set_redis_calls hashes lists
               with_hashes with_lists session_history redis_calls]).

Lemma update_persisted cfg sid r d w :
  no_faults -> persisted cfg -> json_dumps E r = Some d ->
  exists w',
    update_session_history E cfg sid r w = (Ok tt, w')
    /\ stored_count (redis w') sid = stored_count (redis w) sid + 1
    /\ stored_docs (redis w') sid = take 100 (d :: stored_docs (redis w) sid)
    /\ session_history w' = session_history w.
Proof.
  intros Hnf Hp Hd. unfold persisted in Hp.
  unfold update_session_history, hincrby, expire, dumps, lpush, ltrim, llen.
  rewrite Hp, Hd. cbn [negb].
  run_redis Hnf.
  eexists. split; [reflexivity|].
  cbn [redis set_redis set_redis_calls session_history].
  unfold stored_count, stored_docs, list_at.
  cbn [hashes lists with_hashes with_lists].
  rewrite !lookup_insert_eq.
  change (Z.to_nat (REDIS_MAX_HISTORY - 1 + 1 - 0)) with 100%nat.
  change (Z.to_nat 0) with 0%nat. rewrite drop_0.
  cbv [default from_option id]. cbn [take].
  rewrite lookup_insert_eq. auto.
Qed.

Lemma get_persisted cfg sid w :
  no_faults -> persisted cfg ->
  exists w',
    get_session_history E cfg sid w =
    (Ok {| round_count := stored_count (redis w) sid;
           rounds := decode_rounds E (take 100 (stored_docs (redis w) sid)) |},
     w')
    /\ stored_count (redis w') sid = stored_count (redis w) sid
    /\ stored_docs (redis w') sid = stored_docs (redis w) sid
    /\ session_history w' = session_history w
    /\ current_session_id w' = current_session_id w.
Proof.
  intros Hnf Hp. unfold persisted in Hp.
  unfold get_session_history, hgetall, hset, expire, lrange.
  rewrite Hp. cbn [negb].
  unfold stored_count, stored_docs.
  unfold bind at 1, try_except. unfold bind at 1.
  rewrite (redis_cmd_ok _ _ Hnf).
  cbn [fst snd redis set_redis set_redis_calls].
  change (Z.to_nat (REDIS_MAX_HISTORY - 1 + 1 - 0)) with 100%nat.
  change (Z.to_nat 0) with 0%nat.
  destruct (hashes (redis w) !! (REDIS_SESSION_PREFIX ++ sid)) as [n|] eqn:Hh.
  - run_redis Hnf. rewrite drop_0. eexists. split; [reflexivity|].
    cbn [redis set_redis set_redis_calls session_history current_session_id].
    rewrite ?Hh. auto.
  - run_redis Hnf. rewrite drop_0. eexists. split; [reflexivity|].
    cbn [redis set_redis set_redis_calls session_history current_session_id
         hashes lists].
    unfold list_at. cbn [with_hashes hashes lists].
    rewrite lookup_insert_eq. auto.
Qed.

Lemma take_app_take {A} n (a b : list A) :
  take n (a ++ take n b) = take n (a ++ b).
Proof.
  rewrite !take_app. f_equal. rewrite take_take. f_equal. lia.
Qed.

Lemma append_all_persisted cfg sid rs ds w :
  no_faults -> persisted cfg ->
  Forall2 (fun r d => json_dumps E r = Some d) rs ds ->
  exists w',
    append_all E cfg sid rs w = (Ok tt, w')
    /\ stored_count (redis w') sid
       = stored_count (redis w) sid + Z.of_nat (length rs)
    /\ take 100 (stored_docs (redis w') sid)
       = take 100 (rev ds ++ stored_docs (redis w) sid)
    /\ session_history w' = session_history w.
Proof.
  intros Hnf Hp Hall. revert w.
  induction Hall as [|r d rs ds Hd _ IH]; intros w.
  - exists w. cbn. split; [reflexivity|]. split; [lia|]. auto.
  - destruct (update_persisted cfg sid r d w Hnf Hp Hd)
      as (w1 & Hrun & Hc & Hdocs & Hm).
    destruct (IH w1) as (w2 & Hrun2 & Hc2 & Hdocs2 & Hm2).
    exists w2. cbn [append_all]. unfold bind. rewrite Hrun.
    split; [exact Hrun2|]. split; [|split].
    + rewrite Hc2, Hc. cbn [length]. lia.
    + rewrite Hdocs2, Hdocs. rewrite take_app_take.
      cbn [rev]. rewrite <- app_assoc. reflexivity.
    + congruence.
Qed.

Lemma decode_rounds_codec rs ds :
  Forall2 (fun r d => json_loads E d = inl r) rs ds ->
  decode_rounds E ds = rs.
Proof.
  induction 1 as [|r d rs ds Hd _ IH]; [reflexivity|].
  unfold decode_rounds in *. cbn [omap list_omap]. rewrite Hd, IH.
  reflexivity.
Qed.

(** A session that has no keys yet, appended to [k] times and then read:
    the counter is [k], and the rounds are the last hundred, most recent
    first, provided the codec reads back what it wrote. *)
Lemma persisted_after_appends cfg sid rs ds w :
  no_faults -> persisted cfg ->
  stored_count (redis w) sid = 0 -> stored_docs (redis w) sid = [] ->
  Forall2 (fun r d => json_dumps E r = Some d /\ json_loads E d = inl r)
          rs ds ->
  exists h w',
    bind (append_all E cfg sid rs)
         (fun _ => get_session_history E cfg sid) w = (Ok h, w')
    /\ round_count h = Z.of_nat (length rs)
    /\ rounds h = take 100 (rev rs)
    /\ length (rounds h) = Nat.min (length rs) 100.
Proof.
  intros Hnf Hp Hc0 Hd0 Hall.
  destruct (append_all_persisted cfg sid rs ds w Hnf Hp)
    as (w1 & Hrun & Hc & Hdocs & _).
  { eapply Forall2_impl; [exact Hall|]. cbn. tauto. }
  destruct (get_persisted cfg sid w1 Hnf Hp) as (w2 & Hget & _).
  eexists _, w2. unfold bind. rewrite Hrun. split; [exact Hget|].
  cbn [round_count rounds].
  assert (Hr : decode_rounds E (take 100 (stored_docs (redis w1) sid))
               = take 100 (rev rs)).
  { rewrite Hdocs, Hd0, app_nil_r. apply decode_rounds_codec.
    apply Forall2_take. rewrite !rev_alt. apply Forall2_reverse.
    eapply Forall2_impl; [exact Hall|]. cbn. tauto. }
  split; [rewrite Hc, Hc0; lia|]. split; [exact Hr|].
  rewrite Hr, length_take, length_rev. lia.
Qed.

End HistoryStore.

(** *** Claims about the history store *)

Definition session_a : str := uuid_of 0.

(** C1 (the in-memory fallback): two rounds are appended to the empty
    history and the history is read. The counter is 2 and both rounds are
    kept, but [rounds[0]] is the round appended first: the fallback appends
    at the tail, so its order is oldest first, while the persisted backend
    pushes at the head. *)
Theorem in_memory_rounds_are_oldest_first :
  let E := env_of silent_model in
  let first_round := round_of "first" in
  let second_round := round_of "second" in
  exists h w,
    bind (append_all E memory_config session_a [first_round; second_round])
         (fun _ => get_session_history E memory_config session_a)
         initial_world = (Ok h, w)
    /\ round_count h = 2
    /\ length (rounds h) = 2%nat
    /\ rounds h !! 0%nat = Some first_round
    /\ first_round <> second_round.
Proof.
  cbv zeta. eexists _, _. split; [reflexivity|].
  repeat split. discriminate.
Qed.

(** In the fallback, [k] appends to the empty history give a counter of [k]
    and [min k 100] rounds, and the most recent round is the last element
    of the list. *)
Lemma in_memory_after_appends (E : Env) cfg sid rs w :
  in_memory cfg -> session_history w = empty_history ->
  exists h w',
    bind (append_all E cfg sid rs)
         (fun _ => get_session_history E cfg sid) w = (Ok h, w')
    /\ round_count h = Z.of_nat (length rs)
    /\ length (rounds h) = Nat.min (length rs) 100
    /\ rounds h = py_last_n 100 rs
    /\ last (rounds h) = last rs.
Proof.
  intros Hm Hw. eexists _, _. unfold bind.
  rewrite (append_all_in_memory E cfg sid rs w Hm).
  rewrite get_in_memory by exact Hm. split; [reflexivity|].
  cbn [session_history set_session_history]. rewrite Hw.
  destruct (memory_after_empty rs) as [Hc Hr].
  rewrite Hc, Hr, py_last_n_length. repeat split.
  unfold py_last_n. destruct rs as [|r rs] using rev_ind; [reflexivity|].
  rewrite last_snoc. rewrite length_app. cbn [length].
  rewrite drop_app_le by lia.
  apply last_snoc.
Qed.

Ltac run_cmds Hnf :=
  unfold bind, try_except, ret;
  repeat (rewrite (redis_cmd_ok _ _ _ Hnf);
          cbn [fst snd redis set_redis set_redis_calls hashes lists
               with_hashes with_lists session_history redis_calls]).

Definition reset_request : list (str * json) :=
  [(lit "action", JString (lit "reset"))].

(** C2 (the in-memory fallback): two rounds are in the fallback history and
    the session is reset. The in-memory branch of the reset reads the local
    name [session_history] before it is bound: the request fails with
    [UnboundLocalError], nothing is reported, and the history read afterwards
    still has the counter 2 and both rounds. *)
Theorem in_memory_reset_fails :
  let E := env_of silent_model in
  exists w1 msg w2 h w3,
    append_all E memory_config session_a
      [round_of "first"; round_of "second"] initial_world = (Ok tt, w1)
    /\ manage_session_post E memory_config reset_request w1
       = (Raise (UnboundLocalError msg), w2)
    /\ get_session_history E memory_config session_a w2 = (Ok h, w3)
    /\ current_session_id w2 = Some session_a
    /\ round_count h = 2
    /\ rounds h = [round_of "first"; round_of "second"].
Proof.
  cbv zeta. eexists _, _, _, _, _.
  split; [reflexivity|]. split; [reflexivity|]. split; [reflexivity|].
  repeat split.
Qed.

Section Reset.
Context (E : Env).

Lemma get_session_id_known c s w :
  current_session_id w = Some (c :: s) ->
  get_session_id E w = (Ok (c :: s), w).
Proof. unfold get_session_id. intros ->. reflexivity. Qed.

(** In the persisted backend, when no Redis command fails, the reset reports
    the counter it cleared and keeps the session id, and the history read
    afterwards is empty. *)
Lemma persisted_reset_then_get cfg request c s w :
  no_faults E -> persisted cfg ->
  dict_get (lit "action") request = Some (JString (lit "reset")) ->
  current_session_id w = Some (c :: s) ->
  exists w1 h w2,
    manage_session_post E cfg request w
    = (Ok (session_reset_message (stored_count (redis w) (c :: s)), 200), w1)
    /\ current_session_id w1 = Some (c :: s)
    /\ get_session_history E cfg (c :: s) w1 = (Ok h, w2)
    /\ round_count h = 0
    /\ rounds h = [].
Proof.
  intros Hnf Hp Hreq Hsid.
  assert (Hrun : exists w1,
    manage_session_post E cfg request w
    = (Ok (session_reset_message (stored_count (redis w) (c :: s)), 200), w1)
    /\ current_session_id w1 = Some (c :: s)
    /\ stored_count (redis w1) (c :: s) = 0
    /\ stored_docs (redis w1) (c :: s) = []).
  { unfold manage_session_post. unfold bind at 1.
    rewrite (get_session_id_known c s w Hsid). rewrite Hreq.
    cbn [default from_option id].
    change (is_str (JString (lit "reset")) (lit "reset")) with true.
    cbv iota. unfold persisted in Hp. rewrite Hp.
    unfold hget, redis_delete, hset, expire.
    run_cmds Hnf. eexists. split; [reflexivity|].
    cbn [current_session_id set_redis set_redis_calls redis].
    split; [exact Hsid|].
    unfold stored_count, stored_docs, list_at.
    cbn [hashes lists with_hashes].
    rewrite lookup_insert_eq. split; [reflexivity|].
    replace (_ !! (REDIS_STATEMENT_PREFIX ++ c :: s))
      with (@None (list (list N))); [reflexivity|].
    symmetry. apply lookup_delete_None. right.
    apply lookup_delete_None. right.
    apply lookup_delete_None. left. reflexivity. }
  destruct Hrun as (w1 & Hrun & Hid & Hc & Hd).
  destruct (get_persisted E cfg (c :: s) w1 Hnf Hp) as (w2 & Hget & _).
  eexists w1, _, w2. split; [exact Hrun|]. split; [exact Hid|].
  split; [exact Hget|]. cbn [round_count rounds].
  rewrite Hc, Hd. split; reflexivity.
Qed.

End Reset.

(** ** The round generator *)

(** *** Preconditions *)

(** C6: when the model client is not configured, or the prompt is missing
    or empty, [generate_new_round] returns at once: the result is the error
    of that case (the two differ), and the world is left as it was, so the
    model was not called, no session was created and no Redis command was
    issued. *)
Theorem generate_checks_preconditions (E : Env) (rc : bool)
  (prompt : option str) (w : World) :
  generate_new_round E
    {| redis_client := rc; anthropic_client := false;
       claude_prompt := prompt |} w
  = (Ok client_not_initialized, w)
  /\ generate_new_round E
       {| redis_client := rc; anthropic_client := true;
          claude_prompt := None |} w
     = (Ok prompt_not_loaded, w)
  /\ generate_new_round E
       {| redis_client := rc; anthropic_client := true;
          claude_prompt := Some [] |} w
     = (Ok prompt_not_loaded, w)
  /\ is_error client_not_initialized = true
  /\ is_error prompt_not_loaded = true
  /\ client_not_initialized <> prompt_not_loaded.
Proof.
  repeat split. discriminate.
Qed.

(** *** The decimal form of a round number *)

Definition plain (c : N) : Prop := c <> 35%N.

Lemma lit_uint_plain (d : Decimal.uint) :
  Forall plain (lit (NilEmpty.string_of_uint d)).
Proof.
  induction d; cbn [NilEmpty.string_of_uint lit]; constructor; auto;
    unfold plain; cbn; discriminate.
Qed.

Lemma lit_nilzero_uint (d : Decimal.uint) :
  Forall plain (lit (NilZero.string_of_uint d))
  /\ lit (NilZero.string_of_uint d) <> [].
Proof.
  unfold NilZero.string_of_uint. destruct d;
    (split; [first [apply lit_uint_plain
                   | repeat constructor; unfold plain; cbn; discriminate]
            | cbn; discriminate]).
Qed.

Lemma str_of_Z_plain (n : Z) :
  Forall plain (str_of_Z n) /\ str_of_Z n <> [].
Proof.
  unfold str_of_Z, NilZero.string_of_int.
  destruct (Z.to_int n) as [d|d].
  - apply lit_nilzero_uint.
  - cbn [lit]. split; [|discriminate].
    constructor; [unfold plain; cbn; discriminate|].
    apply lit_nilzero_uint.
Qed.

(** The last characters of [str(n)] followed by a space, read backwards. *)
Lemma rev_str_of_Z_space (n : Z) (rest : list N) :
  exists d x tl,
    rev (str_of_Z n) ++ 32%N :: rest = d :: x :: tl /\ x <> 35%N.
Proof.
  destruct (str_of_Z_plain n) as [Hall Hne].
  apply Forall_rev in Hall.
  destruct (rev (str_of_Z n)) as [|d [|x tl]] eqn:Hr.
  - exfalso. apply Hne. rewrite <- (rev_involutive (str_of_Z n)), Hr.
    reflexivity.
  - exists d, 32%N, rest. split; [reflexivity|discriminate].
  - exists d, x, (tl ++ 32%N :: rest). split; [reflexivity|].
    inversion Hall as [|? ? _ Htl]. inversion Htl. assumption.
Qed.

(** *** The easter egg *)

Lemma suffix_last3 (a b : list N) x y z :
  a `suffix_of` b -> take 3 (rev a) = [x; y; z] -> take 3 (rev b) = [x; y; z].
Proof.
  intros [k ->] H. rewrite rev_app_distr, take_app_le; [exact H|].
  apply (f_equal length) in H. rewrite length_take in H.
  change (length [x; y; z]) with 3%nat in H. lia.
Qed.

Lemma easter_egg_text_last3 (r : Z) :
  take 3 (rev (easter_egg_text r)) = [46; 55; 35]%N.
Proof.
  unfold easter_egg_text. rewrite !app_assoc, rev_app_distr. reflexivity.
Qed.

Lemma prompt_without_egg_last3 (prompt history_text : str) (r : Z) :
  easter_egg_set r = false ->
  take 3 (rev (prompt_to_send prompt history_text r)) <> [46; 55; 35]%N.
Proof.
  intros Hset. unfold prompt_to_send, easter_egg_instruction.
  rewrite Hset. destruct history_text as [|c ht].
  - rewrite app_nil_r.
    assert (Hrev : exists rest,
      rev (prompt ++ nl ++ nl ++ lit "This is round " ++ str_of_Z r ++ lit ".")
      = 46%N :: (rev (str_of_Z r) ++ 32%N :: rest)).
    { exists (rev (lit "This is round") ++ rev (prompt ++ nl ++ nl)).
      rewrite !app_assoc, rev_app_distr. cbn [lit rev app].
      rewrite rev_app_distr. rewrite rev_app_distr.
      rewrite <- app_assoc. reflexivity. }
    destruct Hrev as [rest ->].
    destruct (rev_str_of_Z_space r rest) as (d & x & tl & -> & Hx).
    cbn [take]. intros H. injection H as _ H. congruence.
  - rewrite app_nil_r. rewrite !app_assoc, rev_app_distr.
    cbn. discriminate.
Qed.

(** The text built for round number [r] ends with the easter-egg instruction
    exactly when [r mod 3 = 0]; for the other round numbers nothing is added
    after the sentence that gives the round number. *)
Lemma prompt_to_send_easter_egg (prompt history_text : str) (r : Z) :
  let payload := prompt_to_send prompt history_text r in
  (easter_egg_text r `suffix_of` payload <-> r mod 3 = 0)
  /\ (easter_egg_instruction r = easter_egg_text r <-> r mod 3 = 0)
  /\ (easter_egg_instruction r = [] <-> r mod 3 <> 0).
Proof.
  cbv zeta.
  assert (Hset : easter_egg_set r = true <-> r mod 3 = 0).
  { unfold easter_egg_set. apply Z.eqb_eq. }
  assert (Hne : easter_egg_text r <> []) by discriminate.
  split; [|split].
  - split.
    + intros Hsuf. destruct (easter_egg_set r) eqn:He; [tauto|].
      exfalso. apply (prompt_without_egg_last3 prompt history_text r He).
      apply (suffix_last3 _ _ _ _ _ Hsuf), easter_egg_text_last3.
    + intros Hr. apply Hset in Hr.
      unfold prompt_to_send, easter_egg_instruction. rewrite Hr.
      destruct history_text; rewrite !app_assoc; apply suffix_app_r;
        reflexivity.
  - unfold easter_egg_instruction.
    destruct (easter_egg_set r); split; intros H;
      solve [tauto | congruence | apply Hset in H; discriminate].
  - unfold easter_egg_instruction.
    destruct (easter_egg_set r); split; intros H;
      solve [tauto | congruence
            | intros Hr; apply Hset in Hr; discriminate
            | exfalso; tauto].
Qed.

(** *** The history context of the payload *)

Definition contains (needle s : str) : bool :=
  bool_decide (is_Some (find_sub needle s)).

Definition sixteen_rounds : list json :=
  map round_of ["r01"; "r02"; "r03"; "r04"; "r05"; "r06"; "r07"; "r08";
                "r09"; "r10"; "r11"; "r12"; "r13"; "r14"; "r15"; "r16"]%string.

(** C8 (with the in-memory fallback): sixteen rounds are appended, "r01"
    first and "r16" last, and a round is generated. The payload sent to the
    model uses round number 17 and lists fifteen rounds as LIE and TRUTH
    lines, but they are the fifteen oldest: the lines of "r01" are in the
    payload and those of "r16", the most recent round, are not. *)
Theorem in_memory_payload_lists_oldest_rounds :
  let E := env_of silent_model in
  exists w1 v w2 payload,
    append_all E memory_config session_a sixteen_rounds initial_world
    = (Ok tt, w1)
    /\ last (rounds (session_history w1)) = Some (round_of "r16")
    /\ generate_new_round E memory_config w1 = (Ok v, w2)
    /\ llm_calls w2 = [payload]
    /\ contains (lit "This is round 17,") payload = true
    /\ contains (lit "You've now seen 15 previous rounds.") payload = true
    /\ contains (lit "- LIE: r01 lie") payload = true
    /\ contains (lit "- TRUTH: r01 truth one") payload = true
    /\ contains (lit "- LIE: r15 lie") payload = true
    /\ contains (lit "r16") payload = false.
Proof.
  cbv zeta. eexists _, _, _, _.
  split; [vm_compute; reflexivity|].
  split; [vm_compute; reflexivity|].
  split; [vm_compute; reflexivity|].
  split; [vm_compute; reflexivity|].
  repeat split; vm_compute; reflexivity.
Qed.

Section HistoryContext.
Context (E : Env).

(** Rounds as the data model has them: a list of statement objects. *)
Definition is_dict (v : json) : Prop := exists f, v = JObject f.
Definition is_round (v : json) : Prop :=
  exists stmts, v = JArray stmts /\ Forall is_dict stmts.

(** The line of the history context for a statement object. *)
Definition statement_line (stmt : json) : str :=
  match stmt with
  | JObject f =>
      lit "- "
      ++ (if truthy E (default (JBool false) (dict_get (lit "isLie") f))
          then lit "LIE" else lit "TRUTH")
      ++ lit ": "
      ++ py_str E (default (JString (lit "Unknown")) (dict_get (lit "text") f))
      ++ nl
  | _ => []
  end.

Definition round_block (round_idx : Z) (r : json) : str :=
  lit "Round " ++ str_of_Z round_idx ++ lit ":" ++ nl
  ++ match r with
     | JArray stmts => concat (map statement_line stmts)
     | _ => []
     end.

Fixpoint rounds_block (first_idx : Z) (rs : list json) : str :=
  match rs with
  | [] => []
  | r :: rest => round_block first_idx r ++ rounds_block (first_idx + 1) rest
  end.

Lemma render_statements_typed stmts :
  Forall is_dict stmts ->
  res_map (render_statement E) stmts = Ok (map statement_line stmts).
Proof.
  induction 1 as [|stmt stmts [f ->] _ IH]; [reflexivity|].
  cbn [res_map map]. rewrite IH. reflexivity.
Qed.

Lemma render_round_typed idx r :
  is_round r -> render_round E idx r = Ok (round_block idx r).
Proof.
  intros (stmts & -> & Hall). unfold render_round, round_block.
  cbn [py_iter res_bind]. rewrite (render_statements_typed stmts Hall).
  reflexivity.
Qed.

Lemma render_rounds_typed count n idx rs :
  Forall is_round rs ->
  render_rounds E count n idx rs = Ok (rounds_block (count - n + idx + 1) rs).
Proof.
  intros Hall. revert idx.
  induction Hall as [|r rs Hr _ IH]; intros idx; [reflexivity|].
  cbn [render_rounds rounds_block].
  rewrite (render_round_typed _ r Hr). cbn [res_bind]. rewrite IH.
  cbn [res_bind]. do 3 f_equal. lia.
Qed.

(** For a history with rounds, whose first fifteen rounds are lists of
    statement objects, the payload is the base prompt, the block of the first
    fifteen rounds of [history["rounds"]] with a LIE or TRUTH line for each
    statement, the request to avoid what is listed, and the round number
    [round_count + 1]. *)
Lemma payload_of_history (prompt : str) (h : History) :
  rounds h <> [] -> Forall is_round (recent_rounds h) ->
  let n := Z.of_nat (length (recent_rounds h)) in
  let context :=
    lit "Here are the previous statements used in this session:" ++ nl
    ++ rounds_block (round_count h - n + 1) (take 15 (rounds h)) ++ nl
    ++ lit "IMPORTANT: You've now seen " ++ str_of_Z n
    ++ lit " previous rounds. Please generate completely new statements that don't overlap with ANY previous topics or facts." in
  build_history_text E h = Ok context
  /\ prompt_to_send prompt context (round_count h + 1)
     = prompt ++ nl ++ nl ++ context ++ nl ++ nl
       ++ lit "IMPORTANT: DO NOT repeat any of the facts or topics above. This is round "
       ++ str_of_Z (round_count h + 1) ++ lit ", so ensure complete variety."
       ++ easter_egg_instruction (round_count h + 1).
Proof.
  intros Hne Hall. cbv zeta. split.
  - unfold build_history_text. destruct (rounds h) as [|r rs] eqn:Hr;
      [contradiction|].
    rewrite (render_rounds_typed _ _ _ _ Hall). cbn [res_bind].
    unfold recent_rounds. rewrite Hr, Z.add_0_r. reflexivity.
  - reflexivity.
Qed.

End HistoryContext.

(** ** The broadcast hub *)

(** The envelope of an event, as the design document gives it. *)
Definition envelope (event_type : str) (payload : json) : json :=
  if str_eqb event_type (lit "error") then
    JObject [(lit "type", JString (lit "error"));
             (lit "message",
              match payload with
              | JObject f =>
                  default (JString (lit "Unknown error"))
                          (dict_get (lit "message") f)
              | _ => JNull
              end)]
  else JObject [(lit "type", JString event_type); (lit "payload", payload)].

Lemma str_eqb_eq (a b : str) : str_eqb a b = true <-> a = b.
Proof. unfold str_eqb. apply bool_decide_eq_true. Qed.

Lemma message_data_envelope event_type payload :
  (event_type = lit "error" -> is_dict payload) ->
  message_data event_type payload = Ok (envelope event_type payload).
Proof.
  intros Hd. unfold message_data, envelope.
  destruct (str_eqb event_type (lit "error")) eqn:He; [|reflexivity].
  apply str_eqb_eq in He. destruct (Hd He) as [f ->]. subst event_type.
  reflexivity.
Qed.

(** C9: a publish call (an error event carries a dict) returns normally
    with the same registry of clients, and every registered queue went
    through its own delivery step: the frame ["data: " + json + "\n\n"] of
    the envelope is put at the tail of the queue when the envelope
    serialises, and a queue whose serialisation fails is left as it was,
    which does not stop the loop for the other queues. *)
Theorem broadcast_reaches_every_queue (E : Env) (event_type : str)
  (payload : json) (message_queues : gmap Z (list (list N))) :
  (event_type = lit "error" -> is_dict payload) ->
  exists queues',
    broadcast_message E event_type payload message_queues = Ok queues'
    /\ dom queues' = dom message_queues
    /\ forall client queue,
         message_queues !! client = Some queue ->
         exists queue',
           queues' !! client = Some queue'
           /\ (forall json_data,
                 json_dumps E (envelope event_type payload) = Some json_data ->
                 queue' = queue ++ [lit "data: " ++ json_data ++ nl ++ nl])
           /\ (json_dumps E (envelope event_type payload) = None ->
               queue' = queue).
Proof.
  intros Hd. unfold broadcast_message.
  rewrite (message_data_envelope _ _ Hd). cbn [res_bind].
  eexists. split; [reflexivity|]. split; [apply dom_fmap_L|].
  intros client queue Hq. exists (deliver E (envelope event_type payload) queue).
  rewrite lookup_fmap, Hq. split; [reflexivity|].
  unfold deliver, sse_frame.
  destruct (json_dumps E (envelope event_type payload)) as [j|].
  - split; [intros ? [= <-]; reflexivity | discriminate].
  - split; [discriminate | reflexivity].
Qed.

Definition two_clients : gmap Z (list (list N)) :=
  {[ 140231 := []; 140377 := [lit ": keep-alive"] ]}.

Lemma broadcast_reaches_every_queue_witness :
  (lit "new_round" = lit "error" -> is_dict (round_of "r01"))
  /\ exists queues',
       broadcast_message (env_of silent_model) (lit "new_round")
         (round_of "r01") two_clients = Ok queues'
       /\ dom queues' = dom two_clients
       /\ forall client queue,
            two_clients !! client = Some queue ->
            exists queue',
              queues' !! client = Some queue'
              /\ (forall json_data,
                    json_dumps (env_of silent_model)
                      (envelope (lit "new_round") (round_of "r01"))
                    = Some json_data ->
                    queue' = queue ++ [lit "data: " ++ json_data ++ nl ++ nl])
              /\ (json_dumps (env_of silent_model)
                    (envelope (lit "new_round") (round_of "r01")) = None ->
                  queue' = queue).
Proof.
  split; [discriminate|].
  apply (broadcast_reaches_every_queue (env_of silent_model)
           (lit "new_round") (round_of "r01") two_clients).
  discriminate.
Defined.

(** ** Preloading *)





(** ** Reading a run backwards *)

Lemma bind_Ok_inv {A B} (m : M A) (k : A -> M B) w b w' :
  bind m k w = (Ok b, w') ->
  exists a w1, m w = (Ok a, w1) /\ k a w1 = (Ok b, w').
Proof.
  unfold bind. destruct (m w) as [[a|e] w1]; [eauto|discriminate].
Qed.

Lemma try_except_Ok_inv {A} (m : M A) (h : exn -> M A) w a w' :
  try_except m h w = (Ok a, w') ->
  m w = (Ok a, w')
  \/ exists e w1, m w = (Raise e, w1) /\ h e w1 = (Ok a, w').
Proof.
  unfold try_except. destruct (m w) as [[a0|e] w1]; [left|right]; eauto.
Qed.

Lemma is_error_error_result msg : is_error (error_result msg) = true.
Proof. reflexivity. Qed.

Lemma is_error_api_error e : is_error (api_error e) = true.
Proof. destruct e; reflexivity. Qed.

Section Generator.
Context (E : Env) (cfg : Config).

(** A round that [process_response] returns and that is not an error is the
    document decoded from the response. *)
Lemma process_response_round response_text w v w' :
  process_response E cfg response_text w = (Ok v, w') ->
  is_error v = false ->
  parse_response E response_text = inl v.
Proof.
  unfold process_response. intros Hrun Hne.
  apply try_except_Ok_inv in Hrun as [Hrun|(e & w1 & _ & Hh)].
  - apply bind_Ok_inv in Hrun as (round_data & w1 & Hloads & Hrun).
    apply bind_Ok_inv in Hrun as (statements & w2 & _ & Hrun).
    apply bind_Ok_inv in Hrun as (sid & w3 & _ & Hrun).
    apply bind_Ok_inv in Hrun as (? & w4 & _ & Hrun).
    apply bind_Ok_inv in Hrun as (? & w5 & _ & Hrun).
    apply bind_Ok_inv in Hrun as (? & w6 & _ & Hrun).
    injection Hrun as -> _.
    unfold loads in Hloads. unfold parse_response.
    destruct (json_loads E (json_text E (extract_payload response_text)))
      as [d|msg]; [|discriminate].
    injection Hloads as -> _. reflexivity.
  - destruct e; try discriminate. injection Hh as <- _.
    rewrite is_error_error_result in Hne. discriminate.
Qed.

Lemma call_model_Ok prompt w response_text w' :
  call_model E prompt w = (Ok response_text, w') ->
  llm E (length (llm_calls w)) prompt = LLMText response_text.
Proof.
  unfold call_model.
  destruct (llm E (length (llm_calls w)) prompt); [|discriminate].
  intros [= -> _]. reflexivity.
Qed.

Lemma request_round_round sid prompt history_text round_number w v w' :
  request_round E cfg sid prompt history_text round_number w = (Ok v, w') ->
  is_error v = false ->
  exists n response_text,
    llm E n (prompt_to_send prompt history_text round_number)
    = LLMText response_text
    /\ parse_response E response_text = inl v.
Proof.
  unfold request_round. intros Hrun Hne.
  apply try_except_Ok_inv in Hrun as [Hrun|(e & w1 & _ & Hh)].
  - apply bind_Ok_inv in Hrun as (t1 & w1 & _ & Hrun).
    apply bind_Ok_inv in Hrun as (? & w2 & _ & Hrun).
    apply bind_Ok_inv in Hrun as (response_text & w3 & Hcall & Hrun).
    apply bind_Ok_inv in Hrun as (t2 & w4 & _ & Hrun).
    apply bind_Ok_inv in Hrun as (? & w5 & _ & Hrun).
    apply call_model_Ok in Hcall.
    eauto using process_response_round.
  - injection Hh as <- _. rewrite is_error_api_error in Hne. discriminate.
Qed.

End Generator.

(** *** What a generated round contains *)

Definition lie_flag (stmt : json) : option bool :=
  match stmt with
  | JObject f =>
      match dict_get (lit "isLie") f with
      | Some (JBool b) => Some b
      | _ => None
      end
  | _ => None
  end.

Definition round_statements (round_data : json) : option (list json) :=
  match round_data with
  | JObject f =>
      match dict_get (lit "statements") f with
      | Some (JArray l) => Some l
      | _ => None
      end
  | _ => None
  end.

(** Exactly three statements, one with [isLie == true] and two with
    [isLie == false]. *)
Definition round_invariant (round_data : json) : bool :=
  match round_statements round_data with
  | Some [a; b; c] =>
      match lie_flag a, lie_flag b, lie_flag c with
      | Some x, Some y, Some z =>
          Nat.eqb (length (filter (fun b => b = true) [x; y; z])) 1
      | _, _, _ => false
      end
  | _ => false
  end.

Definition quoted (s : string) : str := dquote ++ lit s ++ dquote.

(** The model answers with the same text at every call. *)
Definition answering (response_text : str) : nat -> str -> llm_outcome :=
  fun _ _ => LLMText response_text.

(** [{"statements": []}] *)
Definition no_statements_response : str :=
  lit "{" ++ quoted "statements" ++ lit ": []}".

(** C3 (a response that decodes but is no round of three statements): the
    model answers [{"statements": []}]. The generation succeeds (the result
    is not an error object) and the round it returns has no statement at
    all, so it does not hold three statements with exactly one lie. The
    docstring of [generate_new_round] promises three statements, two true
    and one false, and the repository's test asserts it, but nothing in the
    function checks the decoded document. *)
Theorem generation_accepts_a_round_without_statements :
  exists v w',
    generate_new_round (env_of (answering no_statements_response))
      memory_config initial_world = (Ok v, w')
    /\ is_error v = false
    /\ round_statements v = Some []
    /\ round_invariant v = false.
Proof.
  eexists _, _. split; [vm_compute; reflexivity|].
  repeat split.
Qed.

(** Where a returned round comes from: a result of [generate_new_round] that
    is not an error object is the document decoded from a response of the
    model, as it is. *)
Lemma generated_round_is_the_decoded_document (E : Env) (cfg : Config)
  (w : World) (v : json) (w' : World) :
  generate_new_round E cfg w = (Ok v, w') ->
  is_error v = false ->
  exists n prompt response_text,
    llm E n prompt = LLMText response_text
    /\ parse_response E response_text = inl v.
Proof.
  unfold generate_new_round. intros Hrun Hne.
  destruct (anthropic_client cfg); cbn [negb] in Hrun.
  2: { injection Hrun as <- _. discriminate. }
  destruct (claude_prompt cfg) as [[|c prompt]|].
  1, 3: injection Hrun as <- _; discriminate.
  apply bind_Ok_inv in Hrun as (sid & w1 & _ & Hrun).
  apply bind_Ok_inv in Hrun as (h & w2 & _ & Hrun).
  apply bind_Ok_inv in Hrun as (history_text & w3 & _ & Hrun).
  destruct (request_round_round E cfg _ _ _ _ _ _ _ Hrun Hne)
    as (n & response_text & Hllm & Hparse).
  eexists n, _, response_text. split; [exact Hllm|exact Hparse].
Qed.

(** The model answers with a round of three statements, one of them a lie. *)
Definition good_document : json :=
  JObject [(lit "statements", round_of "r01")].
Definition good_response : str := RefJson.dumps good_document.

Lemma generated_round_is_the_decoded_document_witness :
  let E := env_of (answering good_response) in
  let w' := snd (generate_new_round E memory_config initial_world) in
  generate_new_round E memory_config initial_world = (Ok good_document, w')
  /\ is_error good_document = false
  /\ round_invariant good_document = true
  /\ exists n prompt response_text,
       llm E n prompt = LLMText response_text
       /\ parse_response E response_text = inl good_document.
Proof.
  cbv zeta.
  assert (Hrun : generate_new_round (env_of (answering good_response))
                   memory_config initial_world
                 = (Ok good_document,
                    snd (generate_new_round (env_of (answering good_response))
                           memory_config initial_world)))
    by (vm_compute; reflexivity).
  split; [exact Hrun|]. split; [reflexivity|]. split; [reflexivity|].
  apply (generated_round_is_the_decoded_document
           (env_of (answering good_response)) memory_config initial_world
           good_document _ Hrun).
  reflexivity.
Defined.

(** *** Errors and the history *)

(** [{"statements": [1]}] *)
Definition number_statement_response : str :=
  lit "{" ++ quoted "statements" ++ lit ": [1]}".

(** C10 (a response that decodes, with a statement that is not an object):
    the model answers [{"statements": [1]}]. The document decodes, its
    statements are appended to the history and the counter is incremented;
    then the loop that collects the topics calls [get] on the number, and
    the handler of unexpected errors turns the exception into an error result.
    The generation returns an error and the history has changed. *)
Theorem error_after_the_history_was_updated :
  let E := env_of (answering number_statement_response) in
  exists v w',
    generate_new_round E memory_config initial_world = (Ok v, w')
    /\ is_error v = true
    /\ v = error_result
             (lit "Unexpected API Error: 'int' object has no attribute 'get'")
    /\ session_history initial_world = empty_history
    /\ session_history w'
       = {| round_count := 1; rounds := [JArray [JInt 1]] |}.
Proof.
  cbv zeta. eexists _, _. split; [vm_compute; reflexivity|].
  repeat split.
Qed.

Section ErrorsKeepHistory.
Context (E : Env) (cfg : Config).

Lemma get_session_id_frame w r w1 :
  get_session_id E w = (r, w1) ->
  session_history w1 = session_history w /\ llm_calls w1 = llm_calls w.
Proof.
  unfold get_session_id.
  destruct (current_session_id w) as [[|c s]|]; intros [= _ <-]; auto.
Qed.

(** The listed error kinds of this run: the model call raises, or the
    response does not decode even after the clean-up. *)
Definition listed_error (n : nat) : Prop :=
  forall prompt,
    match llm E n prompt with
    | LLMRaise _ => True
    | LLMText response_text =>
        exists msg, parse_response E response_text = inr msg
    end.

Lemma request_round_keeps_memory sid prompt history_text round_number w
  v w' :
  in_memory cfg -> listed_error (length (llm_calls w)) ->
  request_round E cfg sid prompt history_text round_number w = (Ok v, w') ->
  session_history w' = session_history w /\ is_error v = true.
Proof.
  unfold in_memory. intros Hm Herr.
  specialize (Herr (prompt_to_send prompt history_text round_number)).
  unfold request_round, store_log, read_clock, call_model, process_response,
    loads, try_except, bind, ret.
  rewrite Hm. cbn [llm_calls set_clock_reads].
  destruct (llm E (length (llm_calls w))
              (prompt_to_send prompt history_text round_number))
    as [response_text|e].
  - destruct Herr as [msg Hmsg]. unfold parse_response in Hmsg.
    rewrite Hmsg. unfold raise. intros [= <- <-]. split; reflexivity.
  - intros [= <- <-]. split; [reflexivity|apply is_error_api_error].
Qed.

(** With the in-memory fallback, a generation whose model call raises or
    whose response does not decode leaves the history as it was. *)
Lemma listed_errors_keep_memory w v w' :
  in_memory cfg -> listed_error (length (llm_calls w)) ->
  generate_new_round E cfg w = (Ok v, w') ->
  session_history w' = session_history w /\ is_error v = true.
Proof.
  intros Hm Herr. unfold generate_new_round.
  destruct (anthropic_client cfg); cbn [negb].
  2: { intros [= <- <-]. auto. }
  destruct (claude_prompt cfg) as [[|c prompt]|].
  1, 3: intros [= <- <-]; auto.
  intros Hrun.
  apply bind_Ok_inv in Hrun as (sid & w1 & Hid & Hrun).
  apply get_session_id_frame in Hid as [Hh1 Hl1].
  apply bind_Ok_inv in Hrun as (h & w2 & Hget & Hrun).
  rewrite get_in_memory in Hget by exact Hm. injection Hget as _ <-.
  apply bind_Ok_inv in Hrun as (history_text & w3 & Hlift & Hrun).
  unfold lift in Hlift. injection Hlift as _ <-.
  rewrite <- Hl1 in Herr.
  destruct (request_round_keeps_memory _ _ _ _ _ _ _ Hm Herr Hrun) as [H1 H2].
  split; [congruence|exact H2].
Qed.

End ErrorsKeepHistory.

(** ** Extracting the payload from the response text *)

(** *** Searching *)

Lemma is_prefix_app (p r : list N) : is_prefix p (p ++ r) = true.
Proof.
  induction p as [|a p IH]; [reflexivity|].
  cbn [app is_prefix]. rewrite N.eqb_refl. exact IH.
Qed.

Lemma is_prefix_head_ne (c x : N) (p t : list N) :
  x <> c -> is_prefix (c :: p) (x :: t) = false.
Proof.
  intros Hne. cbn [is_prefix].
  destruct (N.eqb_spec c x) as [->|_]; [contradiction|reflexivity].
Qed.

(** A pattern does not occur in a text that lacks its first character. *)
Lemma find_sub_absent (c : N) (p s : list N) :
  c ∉ s -> find_sub (c :: p) s = None.
Proof.
  induction s as [|x s IH]; intros Hc; [reflexivity|].
  apply not_elem_of_cons in Hc as [Hx Hs].
  cbn [find_sub]. rewrite is_prefix_head_ne by congruence.
  rewrite (IH Hs). reflexivity.
Qed.

(** The first occurrence is right after a stretch that lacks the first
    character of the pattern. *)
Lemma find_sub_after (c : N) (p pre rest : list N) :
  c ∉ pre -> is_prefix (c :: p) rest = true ->
  find_sub (c :: p) (pre ++ rest) = Some (length pre).
Proof.
  intros Hc Hp. induction pre as [|x pre IH].
  - cbn [app length]. destruct rest; cbn [find_sub]; rewrite Hp; reflexivity.
  - apply not_elem_of_cons in Hc as [Hx Hs].
    cbn [app find_sub length]. rewrite is_prefix_head_ne by congruence.
    rewrite (IH Hs). reflexivity.
Qed.

Lemma rfind_sub_absent (c : N) (s : list N) :
  c ∉ s -> rfind_sub [c] s = None.
Proof.
  induction s as [|x s IH]; intros Hc; [reflexivity|].
  apply not_elem_of_cons in Hc as [Hx Hs].
  cbn [rfind_sub]. rewrite (IH Hs), is_prefix_head_ne by congruence.
  reflexivity.
Qed.

(** The last occurrence of a character is right before a stretch that
    lacks it. *)
Lemma rfind_sub_before (c : N) (pre post : list N) :
  c ∉ post -> rfind_sub [c] (pre ++ c :: post) = Some (length pre).
Proof.
  intros Hc. induction pre as [|x pre IH].
  - cbn [app rfind_sub length]. rewrite (rfind_sub_absent c post Hc).
    cbn [is_prefix]. rewrite N.eqb_refl. reflexivity.
  - cbn [app rfind_sub length]. rewrite IH. reflexivity.
Qed.

(** What follows another character, without the searched one, does not
    count. *)
Lemma rfind_sub_cut (c x : N) (pre post : list N) :
  c ∉ post -> x <> c ->
  rfind_sub [c] (pre ++ x :: post) = rfind_sub [c] pre.
Proof.
  intros Hc Hx. induction pre as [|a pre IH].
  - cbn [app]. apply rfind_sub_absent. apply not_elem_of_cons. auto.
  - cbn [app rfind_sub]. rewrite IH.
    destruct (rfind_sub [c] pre); [reflexivity|].
    cbn [is_prefix]. destruct (c =? a)%N; reflexivity.
Qed.

Lemma rfind_sub_bound (c : N) (s : list N) (i : nat) :
  rfind_sub [c] s = Some i -> (i < length s)%nat.
Proof.
  revert i. induction s as [|x s IH]; intros i; [discriminate|].
  cbn [rfind_sub length]. destruct (rfind_sub [c] s) as [j|].
  - intros [= <-]. specialize (IH j eq_refl). lia.
  - destruct (is_prefix [c] (x :: s)); [|discriminate].
    intros [= <-]. lia.
Qed.

(** *** The fenced blocks *)

Lemma is_prefix_length (p s : list N) :
  is_prefix p s = true -> (length p <= length s)%nat.
Proof.
  revert s. induction p as [|a p IH]; intros [|b s]; cbn [is_prefix length];
    try lia; try discriminate.
  intros H. apply andb_true_iff in H as [_ H]. specialize (IH s H). lia.
Qed.

Lemma find_sub_bound (p s : list N) (i : nat) :
  find_sub p s = Some i -> (i + length p <= length s)%nat.
Proof.
  revert i. induction s as [|x s IH]; intros i; cbn [find_sub].
  - destruct (is_prefix p []) eqn:Hp; [|discriminate].
    intros [= <-]. apply is_prefix_length in Hp. lia.
  - destruct (is_prefix p (x :: s)) eqn:Hp.
    + intros [= <-]. apply is_prefix_length in Hp. lia.
    + destruct (find_sub p s) as [j|]; [|discriminate].
      intros [= <-]. specialize (IH j eq_refl). cbn [length]. lia.
Qed.

(** More fuel than the length of the text changes nothing: the definition
    of [re_findall_code_blocks] does not depend on its fuel. *)
Lemma findall_fuel_enough (n m : nat) (s : list N) :
  (length s <= n)%nat -> (length s <= m)%nat ->
  findall_fuel n s = findall_fuel m s.
Proof.
  revert m s. induction n as [|n IH]; intros m s Hn Hm.
  - destruct s; [|cbn in Hn; lia]. destruct m; reflexivity.
  - destruct m as [|m].
    { destruct s; [reflexivity|cbn in Hm; lia]. }
    cbn [findall_fuel].
    destruct (find_sub fence s) as [i|] eqn:Hi; [|reflexivity].
    apply find_sub_bound in Hi. change (length fence) with 3%nat in Hi.
    set (after_open := drop (i + 3) s).
    assert (Hao : (length after_open + 3 <= length s)%nat).
    { unfold after_open. rewrite length_drop. lia. }
    set (body := if is_prefix (lit "json") after_open
                 then drop 4 after_open else after_open).
    assert (Hb : (length body <= length after_open)%nat).
    { unfold body. destruct (is_prefix (lit "json") after_open);
        [rewrite length_drop|]; lia. }
    destruct (find_sub fence body) as [j|] eqn:Hj; [|reflexivity].
    f_equal. apply IH; rewrite length_drop; lia.
Qed.

Lemma findall_fuel_no_fence (n : nat) (s : list N) :
  96%N ∉ s -> findall_fuel n s = [].
Proof.
  intros Hs. destruct n; [reflexivity|]. cbn [findall_fuel].
  change fence with (96%N :: [96; 96]%N).
  rewrite (find_sub_absent _ _ _ Hs). reflexivity.
Qed.

(** One fenced block, tagged [json] or not, in prose without backticks. *)
Lemma findall_single_block (pre tag content post : list N) :
  96%N ∉ pre -> 96%N ∉ content -> 96%N ∉ post ->
  tag = lit "json" \/ (tag = [] /\ head content <> Some 106%N) ->
  re_findall_code_blocks (pre ++ fence ++ tag ++ content ++ fence ++ post)
  = [content].
Proof.
  intros Hpre Hc Hpost Htag. unfold re_findall_code_blocks.
  set (text := pre ++ fence ++ tag ++ content ++ fence ++ post).
  assert (Hlen : exists k, length text = S k).
  { assert (Hpos : (0 < length text)%nat).
    { unfold text. rewrite !length_app. change (length fence) with 3%nat.
      lia. }
    destruct (length text); [lia|eauto]. }
  destruct Hlen as [k ->]. cbn [findall_fuel]. unfold text.
  change fence with (96%N :: [96; 96]%N).
  rewrite (find_sub_after 96 [96; 96]%N pre _ Hpre)
    by apply (is_prefix_app [96; 96; 96]%N).
  replace (drop (length pre + 3)
             (pre ++ (96%N :: [96; 96]%N) ++ tag ++ content
                  ++ (96%N :: [96; 96]%N) ++ post))
    with (tag ++ content ++ [96; 96; 96]%N ++ post).
  2: { rewrite (app_assoc pre), drop_app_length'; [reflexivity|].
       rewrite length_app. reflexivity. }
  assert (Hbody :
    (if is_prefix (lit "json") (tag ++ content ++ [96; 96; 96]%N ++ post)
     then drop 4 (tag ++ content ++ [96; 96; 96]%N ++ post)
     else tag ++ content ++ [96; 96; 96]%N ++ post)
    = content ++ [96; 96; 96]%N ++ post).
  { destruct Htag as [->|[-> Hhead]].
    - rewrite is_prefix_app. reflexivity.
    - cbn [app]. destruct content as [|c content].
      + vm_compute. reflexivity.
      + change (lit "json") with [106; 115; 111; 110]%N.
        cbn [app is_prefix].
        destruct (N.eqb_spec 106 c) as [<-|_]; [|reflexivity].
        exfalso. apply Hhead. reflexivity. }
  rewrite Hbody.
  rewrite (find_sub_after 96 [96; 96]%N content _ Hc)
    by apply (is_prefix_app [96; 96; 96]%N).
  rewrite take_app_length.
  replace (drop (length content + 3) (content ++ [96; 96; 96]%N ++ post))
    with post.
  2: { rewrite (app_assoc content), drop_app_length'; [reflexivity|].
       rewrite length_app. reflexivity. }
  rewrite (findall_fuel_no_fence _ _ Hpost). reflexivity.
Qed.

(** *** The three cases of the extraction *)

Lemma extract_last_block (text : list N) (blocks : list (list N))
  (block : list N) :
  re_findall_code_blocks text = blocks ++ [block] ->
  extract_payload text = strip block.
Proof.
  intros H. unfold extract_payload. rewrite H, last_snoc. reflexivity.
Qed.

Lemma extract_braces (pre mid post : list N) :
  re_findall_code_blocks (pre ++ [123%N] ++ mid ++ [125%N] ++ post) = [] ->
  123%N ∉ pre -> 125%N ∉ post ->
  extract_payload (pre ++ [123%N] ++ mid ++ [125%N] ++ post)
  = [123%N] ++ mid ++ [125%N].
Proof.
  intros Hb Hpre Hpost. unfold extract_payload. rewrite Hb. cbn [last].
  unfold py_find, py_rfind.
  change (lit "{") with [123%N]. change (lit "}") with [125%N].
  rewrite (find_sub_after 123 [] pre _ Hpre) by reflexivity.
  replace (pre ++ [123%N] ++ mid ++ [125%N] ++ post)
    with ((pre ++ [123%N] ++ mid) ++ 125%N :: post)
    by (rewrite <- !app_assoc; reflexivity).
  rewrite (rfind_sub_before 125 _ post Hpost).
  rewrite !length_app. cbn [length].
  destruct (Z.geb_spec (Z.of_nat (length pre)) 0) as [_|]; [|lia].
  destruct (Z.gtb_spec
              (Z.of_nat (length pre + (1 + length mid)) + 1)
              (Z.of_nat (length pre))) as [_|]; [|lia].
  cbn [andb]. unfold py_slice.
  rewrite Nat2Z.id.
  replace (Z.to_nat (Z.of_nat (length pre + (1 + length mid)) + 1
                     - Z.of_nat (length pre)))
    with (length ([123%N] ++ mid ++ [125%N]))
    by (rewrite !length_app; cbn [length]; lia).
  rewrite <- !app_assoc. rewrite drop_app_length.
  replace ([123%N] ++ mid ++ 125%N :: post)
    with (([123%N] ++ mid ++ [125%N]) ++ post)
    by (rewrite <- !app_assoc; reflexivity).
  apply take_app_length.
Qed.

Lemma extract_whole (text : list N) :
  re_findall_code_blocks text = [] ->
  123%N ∉ text
  \/ (exists pre post,
        text = pre ++ 123%N :: post /\ (123%N ∉ pre) /\ (125%N ∉ post)) ->
  extract_payload text = text.
Proof.
  intros Hb Hcase. unfold extract_payload. rewrite Hb. cbn [last].
  unfold py_find, py_rfind.
  change (lit "{") with [123%N]. change (lit "}") with [125%N].
  destruct Hcase as [Hno|(pre & post & -> & Hpre & Hpost)].
  - rewrite (find_sub_absent 123 [] text Hno). reflexivity.
  - rewrite (find_sub_after 123 [] pre (123%N :: post) Hpre) by
      (cbn [is_prefix]; rewrite N.eqb_refl; reflexivity).
    rewrite (rfind_sub_cut 125 123 pre post Hpost) by discriminate.
    destruct (rfind_sub [125%N] pre) as [i|] eqn:Hi.
    + apply rfind_sub_bound in Hi.
      destruct (Z.gtb_spec (Z.of_nat i + 1) (Z.of_nat (length pre)));
        [lia|]. rewrite andb_false_r. reflexivity.
    + destruct (Z.gtb_spec ((-1) + 1) (Z.of_nat (length pre))); [lia|].
      rewrite andb_false_r. reflexivity.
Qed.

(** *** Decoding, and what a failure returns *)

Lemma process_response_parse_error (E : Env) (cfg : Config)
  (response_text msg : list N) (w : World) :
  parse_response E response_text = inr msg ->
  process_response E cfg response_text w
  = (Ok (error_result (lit "Failed to parse response from LLM: " ++ msg)), w).
Proof.
  unfold parse_response, process_response, loads, try_except, bind.
  intros ->. reflexivity.
Qed.

Definition apology : str := lit "Sorry, no round today.".

(** C5, as stated, fails in its last step: the model answers a sentence
    without any JSON, both decoding attempts fail, and the result is an error
    whose message is the fixed prefix and the message of the decoder; the raw
    text of the response is not in it. *)
Lemma parse_error_does_not_carry_the_raw_text :
  exists message w',
    generate_new_round (env_of (answering apology)) memory_config
      initial_world = (Ok (error_result message), w')
    /\ extract_payload apology = apology
    /\ message = lit "Failed to parse response from LLM: Expecting value: line 1 column 1 (char 0)"
    /\ contains apology message = false.
Proof.
  eexists _, _. split; [vm_compute; reflexivity|].
  repeat split.
Qed.

(** C5, amended. For every response text:
    - the text handed to the decoder is the last match of the fence pattern,
      stripped, if the pattern matches at all; otherwise the stretch from the
      first opening brace to the last closing brace, when the text has both in
      that order; otherwise the whole text;
    - when the decoder accepts that text, its value is the result; when it
      rejects it, the text is cleaned once (stripped, and every escaped quote
      loses its backslash) and decoded again;
    - when the second attempt fails too, the result of the processing is an
      error whose message is ["Failed to parse response from LLM: "] followed
      by the message of the decoder, and the world is unchanged;
    - for content in one fenced block (tagged [json], or untagged and not
      starting with [j]) between prose, none of them with a backtick, the
      extraction yields the content, stripped. *)
Theorem payload_extraction_and_parsing (E : Env) (cfg : Config) :
  (forall text blocks block,
     re_findall_code_blocks text = blocks ++ [block] ->
     extract_payload text = strip block)
  /\ (forall pre mid post,
        re_findall_code_blocks (pre ++ [123%N] ++ mid ++ [125%N] ++ post) = [] ->
        123%N ∉ pre -> 125%N ∉ post ->
        extract_payload (pre ++ [123%N] ++ mid ++ [125%N] ++ post)
        = [123%N] ++ mid ++ [125%N])
  /\ (forall text,
        re_findall_code_blocks text = [] ->
        123%N ∉ text
        \/ (exists pre post,
              text = pre ++ 123%N :: post /\ (123%N ∉ pre) /\ (125%N ∉ post)) ->
        extract_payload text = text)
  /\ (forall text v,
        json_loads E (extract_payload text) = inl v ->
        parse_response E text = inl v)
  /\ (forall text msg,
        json_loads E (extract_payload text) = inr msg ->
        parse_response E text
        = json_loads E (cleaned_json (extract_payload text)))
  /\ (forall text msg w,
        parse_response E text = inr msg ->
        process_response E cfg text w
        = (Ok (error_result
                 (lit "Failed to parse response from LLM: " ++ msg)), w))
  /\ (forall pre tag content post,
        96%N ∉ pre -> 96%N ∉ content -> 96%N ∉ post ->
        tag = lit "json" \/ (tag = [] /\ head content <> Some 106%N) ->
        extract_payload (pre ++ fence ++ tag ++ content ++ fence ++ post)
        = strip content).
Proof.
  split; [exact extract_last_block|].
  split; [exact extract_braces|].
  split; [exact extract_whole|].
  split.
  { intros text v Hv. unfold parse_response, json_text. rewrite Hv. exact Hv. }
  split.
  { intros text msg Hm. unfold parse_response, json_text. rewrite Hm.
    reflexivity. }
  split; [exact (process_response_parse_error E cfg)|].
  intros pre tag content post Hpre Hc Hpost Htag.
  apply (extract_last_block _ []).
  apply findall_single_block; assumption.
Qed.

(** *** Concrete responses *)

(** Prose, a fenced block tagged [json] with the document, prose. *)
Definition fenced_response : str :=
  (lit "Here is the round you asked for:" ++ nl)
  ++ fence ++ lit "json" ++ (nl ++ good_response ++ nl) ++ fence
  ++ (nl ++ lit "Enjoy the game!").

Lemma no_backtick (s : list N) :
  bool_decide (96%N ∈ s) = false -> 96%N ∉ s.
Proof. apply bool_decide_eq_false. Qed.

Lemma payload_extraction_and_parsing_witness :
  (96%N ∉ lit "Here is the round you asked for:" ++ nl)
  /\ (96%N ∉ nl ++ good_response ++ nl)
  /\ (96%N ∉ nl ++ lit "Enjoy the game!")
  /\ extract_payload fenced_response = strip (nl ++ good_response ++ nl)
  /\ strip (nl ++ good_response ++ nl) = good_response
  /\ parse_response (env_of silent_model) fenced_response = inl good_document.
Proof.
  assert (H1 : 96%N ∉ lit "Here is the round you asked for:" ++ nl)
    by (apply no_backtick; vm_compute; reflexivity).
  assert (H2 : 96%N ∉ nl ++ good_response ++ nl)
    by (apply no_backtick; vm_compute; reflexivity).
  assert (H3 : 96%N ∉ nl ++ lit "Enjoy the game!")
    by (apply no_backtick; vm_compute; reflexivity).
  destruct (payload_extraction_and_parsing (env_of silent_model) memory_config)
    as (_ & _ & _ & Hparse & _ & _ & Hfenced).
  assert (Hx : extract_payload fenced_response
               = strip (nl ++ good_response ++ nl)).
  { apply (Hfenced _ (lit "json") _ _ H1 H2 H3). left. reflexivity. }
  assert (Hs : strip (nl ++ good_response ++ nl) = good_response)
    by (vm_compute; reflexivity).
  split; [exact H1|]. split; [exact H2|]. split; [exact H3|].
  split; [exact Hx|]. split; [exact Hs|].
  apply Hparse. rewrite Hx, Hs. vm_compute. reflexivity.
Defined.

(** [{\"statements\": []}]: every quote of the document is escaped. *)
Definition escaped_response : str :=
  lit "{" ++ backslash ++ dquote ++ lit "statements" ++ backslash ++ dquote
  ++ lit ": []}".

(** The decoder rejects the text as it is and accepts it after the one
    clean-up. *)
Example escaped_quotes_are_repaired :
  (exists msg, RefJson.loads (extract_payload escaped_response) = inr msg)
  /\ cleaned_json (extract_payload escaped_response) = no_statements_response
  /\ parse_response (env_of silent_model) escaped_response
     = inl (JObject [(lit "statements", JArray [])]).
Proof.
  split; [eexists; vm_compute; reflexivity|].
  split; vm_compute; reflexivity.
Qed.

Definition idle : Sched :=
  {| new_round_requested := false; preloaded_round := None;
     is_preloading := false |}.

(** A preload that gets a round caches it; one whose model call fails
    leaves the cache empty; both end with [is_preloading] cleared. *)
Example preload_runs :
  (let '(outcome, s, _) :=
     preload_next_round (env_of (answering good_response)) memory_config
       idle initial_world in
   outcome = Ok tt /\ preloaded_round s = Some good_document
   /\ is_preloading s = false /\ idle_starts_preload s = false)
  /\ (let '(outcome, s, _) :=
        preload_next_round (env_of silent_model) memory_config
          idle initial_world in
      outcome = Ok tt /\ preloaded_round s = None
      /\ is_preloading s = false /\ idle_starts_preload s = true).
Proof.
  split; vm_compute; repeat split.
Qed.

(** The frame of an error event, as the subscribers receive it. *)
Example error_event_frame :
  broadcast_message (env_of silent_model) (lit "error")
    (JObject [(lit "message", JString (lit "API Status Error: 529"))])
    {[ 7 := [] ]}
  = Ok {[ 7 := [lit "data: {" ++ quoted "type" ++ lit ": " ++ quoted "error"
                 ++ lit ", " ++ quoted "message" ++ lit ": "
                 ++ quoted "API Status Error: 529" ++ lit "}" ++ nl ++ nl] ]}.
Proof. vm_compute. reflexivity. Qed.

(** * Further properties of the code *)

(** ** Witnesses for the lemmas on the history store and the generator *)

Definition two_rounds : list json := [round_of "first"; round_of "second"].

Lemma in_memory_after_appends_witness :
  in_memory memory_config
  /\ session_history initial_world = empty_history
  /\ exists h w',
       bind (append_all (env_of silent_model) memory_config session_a
               two_rounds)
            (fun _ => get_session_history (env_of silent_model) memory_config
                        session_a) initial_world = (Ok h, w')
       /\ round_count h = Z.of_nat (length two_rounds)
       /\ length (rounds h) = Nat.min (length two_rounds) 100
       /\ rounds h = py_last_n 100 two_rounds
       /\ last (rounds h) = last two_rounds.
Proof.
  split; [reflexivity|]. split; [reflexivity|].
  apply (in_memory_after_appends (env_of silent_model) memory_config
           session_a two_rounds initial_world); reflexivity.
Defined.

Lemma codec_reads_back_two_rounds :
  Forall2 (fun r d => json_dumps (env_of silent_model) r = Some d
                      /\ json_loads (env_of silent_model) d = inl r)
          two_rounds (map RefJson.dumps two_rounds).
Proof.
  repeat constructor; vm_compute; reflexivity.
Defined.

Lemma persisted_after_appends_witness :
  no_faults (env_of silent_model)
  /\ persisted redis_config
  /\ stored_count (redis initial_world) session_a = 0
  /\ stored_docs (redis initial_world) session_a = []
  /\ exists h w',
       bind (append_all (env_of silent_model) redis_config session_a
               two_rounds)
            (fun _ => get_session_history (env_of silent_model) redis_config
                        session_a) initial_world = (Ok h, w')
       /\ round_count h = Z.of_nat (length two_rounds)
       /\ rounds h = take 100 (rev two_rounds)
       /\ length (rounds h) = Nat.min (length two_rounds) 100.
Proof.
  assert (Hnf : no_faults (env_of silent_model)) by (intros n; reflexivity).
  split; [exact Hnf|]. split; [reflexivity|].
  split; [reflexivity|]. split; [reflexivity|].
  apply (persisted_after_appends (env_of silent_model) redis_config session_a
           two_rounds (map RefJson.dumps two_rounds) initial_world Hnf).
  - reflexivity.
  - reflexivity.
  - reflexivity.
  - exact codec_reads_back_two_rounds.
Defined.

(** A Redis session that holds two rounds. *)
Definition session_with_two_rounds : World :=
  snd (append_all (env_of silent_model) redis_config session_a two_rounds
         (set_session_id (Some session_a) 1 initial_world)).

Lemma persisted_reset_then_get_witness :
  no_faults (env_of silent_model)
  /\ persisted redis_config
  /\ dict_get (lit "action") reset_request = Some (JString (lit "reset"))
  /\ current_session_id session_with_two_rounds
     = Some (51%N :: tail session_a)
  /\ stored_count (redis session_with_two_rounds) (51%N :: tail session_a) = 2
  /\ exists w1 h w2,
       manage_session_post (env_of silent_model) redis_config reset_request
         session_with_two_rounds
       = (Ok (session_reset_message
                (stored_count (redis session_with_two_rounds)
                   (51%N :: tail session_a)), 200), w1)
       /\ current_session_id w1 = Some (51%N :: tail session_a)
       /\ get_session_history (env_of silent_model) redis_config
            (51%N :: tail session_a) w1 = (Ok h, w2)
       /\ round_count h = 0
       /\ rounds h = [].
Proof.
  assert (Hnf : no_faults (env_of silent_model)) by (intros n; reflexivity).
  assert (Hid : current_session_id session_with_two_rounds
                = Some (51%N :: tail session_a))
    by (vm_compute; reflexivity).
  split; [exact Hnf|]. split; [reflexivity|].
  split; [vm_compute; reflexivity|]. split; [exact Hid|].
  split; [vm_compute; reflexivity|].
  apply (persisted_reset_then_get (env_of silent_model) redis_config
           reset_request 51%N (tail session_a) session_with_two_rounds Hnf).
  - reflexivity.
  - vm_compute. reflexivity.
  - exact Hid.
Defined.

Definition history_of_two : History :=
  {| round_count := 2; rounds := [round_of "r02"; round_of "r01"] |}.

Lemma round_of_is_round (tag : string) : is_round (round_of tag).
Proof.
  eexists. split; [reflexivity|].
  repeat constructor; eexists; reflexivity.
Qed.

Lemma payload_of_history_witness :
  let E := env_of silent_model in
  let prompt := lit "Write two truths and a lie as JSON." in
  let h := history_of_two in
  let n := Z.of_nat (length (recent_rounds h)) in
  let context :=
    lit "Here are the previous statements used in this session:" ++ nl
    ++ rounds_block E (round_count h - n + 1) (take 15 (rounds h)) ++ nl
    ++ lit "IMPORTANT: You've now seen " ++ str_of_Z n
    ++ lit " previous rounds. Please generate completely new statements that don't overlap with ANY previous topics or facts." in
  rounds h <> []
  /\ Forall is_round (recent_rounds h)
  /\ build_history_text E h = Ok context
  /\ prompt_to_send prompt context (round_count h + 1)
     = prompt ++ nl ++ nl ++ context ++ nl ++ nl
       ++ lit "IMPORTANT: DO NOT repeat any of the facts or topics above. This is round "
       ++ str_of_Z (round_count h + 1) ++ lit ", so ensure complete variety."
       ++ easter_egg_instruction (round_count h + 1).
Proof.
  cbv zeta.
  assert (Hne : rounds history_of_two <> []) by discriminate.
  assert (Hall : Forall is_round (recent_rounds history_of_two))
    by (repeat constructor; apply round_of_is_round).
  split; [exact Hne|]. split; [exact Hall|].
  apply (payload_of_history (env_of silent_model)
           (lit "Write two truths and a lie as JSON.") history_of_two
           Hne Hall).
Defined.

Lemma listed_errors_keep_memory_witness :
  let E := env_of silent_model in
  let v := api_error (APIConnectionError (lit "Connection error.")) in
  let w' := snd (generate_new_round E memory_config initial_world) in
  in_memory memory_config
  /\ listed_error E (length (llm_calls initial_world))
  /\ generate_new_round E memory_config initial_world = (Ok v, w')
  /\ session_history w' = session_history initial_world
  /\ is_error v = true.
Proof.
  cbv zeta.
  assert (Herr : listed_error (env_of silent_model)
                   (length (llm_calls initial_world)))
    by (intros prompt; exact I).
  assert (Hrun : generate_new_round (env_of silent_model) memory_config
                   initial_world
                 = (Ok (api_error (APIConnectionError (lit "Connection error."))),
                    snd (generate_new_round (env_of silent_model)
                           memory_config initial_world)))
    by (vm_compute; reflexivity).
  split; [reflexivity|]. split; [exact Herr|]. split; [exact Hrun|].
  apply (listed_errors_keep_memory (env_of silent_model) memory_config
           initial_world _ _ eq_refl Herr Hrun).
Defined.

(** ** What a run leaves alone *)

(** [m] relates the world before it to the world after it by [R], whether it
    returns or raises. *)
Definition preserves {A} (R : World -> World -> Prop) (m : M A) : Prop :=
  forall w r w', m w = (r, w') -> R w w'.

Definition never_raises {A} (m : M A) : Prop :=
  forall w, exists a w', m w = (Ok a, w').

(** The globals of the module and the collaborators other than Redis. *)
Definition process_kept (w w' : World) : Prop :=
  session_history w' = session_history w
  /\ current_session_id w' = current_session_id w
  /\ uuid_calls w' = uuid_calls w
  /\ llm_calls w' = llm_calls w
  /\ clock_reads w' = clock_reads w.

Lemma process_kept_refl w : process_kept w w.
Proof. repeat split. Qed.

Lemma process_kept_trans a b c :
  process_kept a b -> process_kept b c -> process_kept a c.
Proof.
  unfold process_kept. intros (?&?&?&?&?) (?&?&?&?&?).
  repeat split; congruence.
Qed.

Lemma preserves_ret {A} (R : World -> World -> Prop) (a : A) :
  (forall w, R w w) -> preserves R (ret a).
Proof. intros HR w r w' [= _ <-]. apply HR. Qed.

Lemma preserves_raise {A} (R : World -> World -> Prop) e :
  (forall w, R w w) -> preserves R (@raise A e).
Proof. intros HR w r w' [= _ <-]. apply HR. Qed.

Lemma preserves_lift {A} (R : World -> World -> Prop) (r : res A) :
  (forall w, R w w) -> preserves R (lift r).
Proof. intros HR w r' w' [= _ <-]. apply HR. Qed.

Lemma preserves_bind {A B} (R S T : World -> World -> Prop)
  (m : M A) (k : A -> M B) :
  (forall a b c, R a b -> S b c -> T a c) ->
  (forall a b, R a b -> T a b) ->
  preserves R m -> (forall a, preserves S (k a)) -> preserves T (bind m k).
Proof.
  intros Hc Hr Hm Hk w r w'. unfold bind.
  destruct (m w) as [[a|e] w1] eqn:Hrun.
  - intros Hrun2. eapply Hc; [eapply Hm|eapply Hk]; eauto.
  - intros [= <- <-]. eapply Hr, Hm; eauto.
Qed.

Lemma preserves_try {A} (R S T : World -> World -> Prop)
  (m : M A) (h : exn -> M A) :
  (forall a b c, R a b -> S b c -> T a c) ->
  (forall a b, R a b -> T a b) ->
  preserves R m -> (forall e, preserves S (h e)) ->
  preserves T (try_except m h).
Proof.
  intros Hc Hr Hm Hh w r w'. unfold try_except.
  destruct (m w) as [[a|e] w1] eqn:Hrun.
  - intros [= <- <-]. eapply Hr, Hm; eauto.
  - intros Hrun2. eapply Hc; [eapply Hm|eapply Hh]; eauto.
Qed.

Lemma never_raises_try {A} (m : M A) (h : exn -> M A) :
  (forall e, never_raises (h e)) -> never_raises (try_except m h).
Proof.
  intros Hh w. unfold try_except.
  destruct (m w) as [[a|e] w1]; [eauto|apply Hh].
Qed.

Section Frames.
Context (E : Env) (cfg : Config).

(** A Redis command, as a case distinction on the fault schedule. *)
Lemma redis_cmd_run {A} (f : Redis -> A * Redis) w :
  redis_cmd E f w =
  match redis_fault E (redis_calls w) with
  | Some msg => (Raise (RedisError msg), set_redis_calls (S (redis_calls w)) w)
  | None =>
      (Ok (fst (f (redis w))),
       set_redis (snd (f (redis w))) (set_redis_calls (S (redis_calls w)) w))
  end.
Proof.
  unfold redis_cmd. destruct (redis_fault E (redis_calls w)); [reflexivity|].
  destruct (f (redis w)). reflexivity.
Qed.

Lemma redis_cmd_kept {A} (f : Redis -> A * Redis) :
  preserves process_kept (redis_cmd E f).
Proof.
  intros w r w'. rewrite redis_cmd_run.
  destruct (redis_fault E (redis_calls w)); intros [= _ <-]; repeat split.
Qed.

Lemma dumps_kept v : preserves process_kept (dumps E v).
Proof.
  unfold dumps. destruct (json_dumps E v).
  - apply preserves_ret, process_kept_refl.
  - apply preserves_raise, process_kept_refl.
Qed.

Lemma get_session_history_kept sid :
  preserves process_kept (get_session_history E cfg sid).
Proof.
  unfold get_session_history.
  assert (Hread : preserves process_kept
                    (w <- get_world ;; ret (session_history w))).
  { intros w r w' [= _ <-]. apply process_kept_refl. }
  destruct (redis_client cfg); cbn [negb]; [|exact Hread].
  eapply preserves_try;
    [apply process_kept_trans|auto| |intros _; exact Hread].
  eapply preserves_bind;
    [apply process_kept_trans|auto|apply redis_cmd_kept|intros data].
  eapply preserves_bind; [apply process_kept_trans|auto| |intros count].
  - destruct data.
    + apply preserves_ret, process_kept_refl.
    + repeat (eapply preserves_bind;
                [apply process_kept_trans|auto|apply redis_cmd_kept|intros _]).
      apply preserves_ret, process_kept_refl.
  - eapply preserves_bind;
      [apply process_kept_trans|auto|apply redis_cmd_kept|intros docs].
    apply preserves_ret, process_kept_refl.
Qed.

Lemma get_session_history_returns sid :
  never_raises (get_session_history E cfg sid).
Proof.
  unfold get_session_history.
  destruct (redis_client cfg); cbn [negb].
  - apply never_raises_try. intros _ w. eexists _, _. reflexivity.
  - intros w. eexists _, _. reflexivity.
Qed.

End Frames.

(** ** The history store when Redis fails *)

(** An environment whose Redis server follows the given fault schedule. *)
Definition with_redis_fault (fault : nat -> option str) (E : Env) : Env :=
  {| json_loads := json_loads E; json_dumps := json_dumps E;
     redis_fault := fault; uuid4 := uuid4 E; llm := llm E; now := now E;
     float_truthy := float_truthy E; py_repr := py_repr E |}.

(** Only the command with this number fails. *)
Definition redis_down_at (n : nat) : nat -> option str :=
  fun k => if Nat.eqb k n then Some (lit "Connection refused.") else None.

(** Reading the history never raises, whatever Redis does, and changes
    neither the in-memory history nor the current session id. *)
Theorem get_session_history_never_raises (E : Env) (cfg : Config)
  (session_id : str) (w : World) :
  exists h w',
    get_session_history E cfg session_id w = (Ok h, w')
    /\ session_history w' = session_history w
    /\ current_session_id w' = current_session_id w.
Proof.
  destruct (get_session_history_returns E cfg session_id w) as (h & w' & Hrun).
  exists h, w'. split; [exact Hrun|].
  apply get_session_history_kept in Hrun as (? & ? & _). auto.
Qed.

(** With Redis configured, when one of the first two commands of the read
    fails, the read returns the in-memory history and has written nothing
    to Redis. *)
Theorem get_session_history_falls_back (E : Env) (cfg : Config)
  (session_id : str) (w : World) (k : nat) (msg : str) :
  persisted cfg -> (k < 2)%nat ->
  redis_fault E (redis_calls w + k) = Some msg ->
  exists w',
    get_session_history E cfg session_id w = (Ok (session_history w), w')
    /\ redis w' = redis w
    /\ session_history w' = session_history w.
Proof.
  unfold persisted. intros Hp Hk Hf.
  unfold get_session_history, hgetall, hset, expire, lrange.
  rewrite Hp. cbn [negb].
  unfold try_except, bind at 1. unfold bind at 1.
  rewrite redis_cmd_run.
  destruct (redis_fault E (redis_calls w)) as [m0|] eqn:H0.
  { eexists. split; [reflexivity|]. split; reflexivity. }
  assert (Hk1 : k = 1%nat).
  { destruct k as [|[|k]]; [|reflexivity|lia].
    rewrite Nat.add_0_r in Hf. congruence. }
  subst k. replace (redis_calls w + 1)%nat with (S (redis_calls w)) in Hf by lia.
  cbn [fst snd].
  destruct (hashes (redis w) !! (REDIS_SESSION_PREFIX ++ session_id)).
  - unfold ret, bind. rewrite redis_cmd_run.
    cbn [redis_calls set_redis set_redis_calls]. rewrite Hf.
    eexists. split; [reflexivity|]. split; reflexivity.
  - unfold bind. rewrite redis_cmd_run.
    cbn [redis_calls set_redis set_redis_calls]. rewrite Hf.
    eexists. split; [reflexivity|]. split; reflexivity.
Qed.

Lemma get_session_history_falls_back_witness :
  let E := with_redis_fault (redis_down_at 1) (env_of silent_model) in
  persisted redis_config /\ (1 < 2)%nat
  /\ redis_fault E (redis_calls initial_world + 1) = Some (lit "Connection refused.")
  /\ exists w',
       get_session_history E redis_config session_a initial_world
       = (Ok (session_history initial_world), w')
       /\ redis w' = redis initial_world
       /\ session_history w' = session_history initial_world.
Proof.
  cbv zeta. split; [reflexivity|]. split; [lia|]. split; [reflexivity|].
  apply (get_session_history_falls_back
           (with_redis_fault (redis_down_at 1) (env_of silent_model))
           redis_config session_a initial_world 1
           (lit "Connection refused.")).
  - reflexivity.
  - lia.
  - reflexivity.
Defined.

Ltac step_redis :=
  rewrite redis_cmd_run;
  cbn [redis_calls redis set_redis set_redis_calls fst snd];
  match goal with
  | |- context [redis_fault ?E ?n] =>
      let Hf := fresh "Hf" in
      destruct (redis_fault E n) eqn:Hf
  end.

(** Recording a round never raises and never loses the round: it ends up in
    the in-memory history, or every Redis command of the update succeeded
    and the session's counter and list hold it. *)
Theorem update_session_history_never_loses_the_round (E : Env)
  (cfg : Config) (session_id : str) (statements : json) (w : World) :
  exists w',
    update_session_history E cfg session_id statements w = (Ok tt, w')
    /\ current_session_id w' = current_session_id w
    /\ (session_history w'
        = memory_append statements (session_history w)
        \/ (session_history w' = session_history w
            /\ exists d,
                 json_dumps E statements = Some d
                 /\ stored_count (redis w') session_id
                    = stored_count (redis w) session_id + 1
                 /\ stored_docs (redis w') session_id
                    = take 100 (d :: stored_docs (redis w) session_id))).
Proof.
  unfold update_session_history, update_memory, modify.
  destruct (redis_client cfg); cbn [negb].
  2: { eexists. split; [reflexivity|]. split; [reflexivity|]. left.
       reflexivity. }
  unfold hincrby, expire, dumps, lpush, ltrim, llen, try_except, bind, ret,
    raise.
  step_redis.
  { eexists. split; [reflexivity|]. split; [reflexivity|]. left. reflexivity. }
  step_redis.
  { eexists. split; [reflexivity|]. split; [reflexivity|]. left. reflexivity. }
  destruct (json_dumps E statements) as [d|] eqn:Hd.
  2: { eexists. split; [reflexivity|]. split; [reflexivity|]. left.
       reflexivity. }
  step_redis.
  { eexists. split; [reflexivity|]. split; [reflexivity|]. left. reflexivity. }
  step_redis.
  { eexists. split; [reflexivity|]. split; [reflexivity|]. left. reflexivity. }
  step_redis.
  { eexists. split; [reflexivity|]. split; [reflexivity|]. left. reflexivity. }
  step_redis.
  { eexists. split; [reflexivity|]. split; [reflexivity|]. left. reflexivity. }
  eexists. split; [reflexivity|]. split; [reflexivity|]. right.
  split; [reflexivity|]. exists d. split; [reflexivity|].
  cbn [redis set_redis set_redis_calls].
  unfold stored_count, stored_docs, list_at.
  cbn [hashes lists with_hashes with_lists].
  rewrite !lookup_insert_eq.
  change (Z.to_nat (REDIS_MAX_HISTORY - 1 + 1 - 0)) with 100%nat.
  change (Z.to_nat 0) with 0%nat. rewrite drop_0.
  cbv [default from_option id]. cbn [take].
  rewrite lookup_insert_eq. auto.
Qed.

(** With Redis configured, when the increment of the counter succeeds and the
    next command fails, the round is counted in Redis, no document is pushed,
    and the round is appended to the in-memory history: the two stores now
    disagree. *)
Theorem update_fault_after_the_increment (E : Env) (cfg : Config)
  (session_id : str) (statements : json) (w : World) (msg : str) :
  persisted cfg ->
  redis_fault E (redis_calls w) = None ->
  redis_fault E (S (redis_calls w)) = Some msg ->
  exists w',
    update_session_history E cfg session_id statements w = (Ok tt, w')
    /\ stored_count (redis w') session_id
       = stored_count (redis w) session_id + 1
    /\ stored_docs (redis w') session_id = stored_docs (redis w) session_id
    /\ session_history w' = memory_append statements (session_history w).
Proof.
  unfold persisted. intros Hp H0 H1.
  unfold update_session_history, update_memory, modify.
  rewrite Hp. cbn [negb].
  unfold hincrby, expire, try_except, bind.
  rewrite redis_cmd_run, H0.
  rewrite redis_cmd_run.
  cbn [redis_calls redis set_redis set_redis_calls fst snd]. rewrite H1.
  eexists. split; [reflexivity|].
  cbn [redis set_redis set_redis_calls set_session_history session_history].
  unfold stored_count, stored_docs, list_at.
  cbn [hashes lists with_hashes]. rewrite lookup_insert_eq. auto.
Qed.

Lemma update_fault_after_the_increment_witness :
  let E := with_redis_fault (redis_down_at 1) (env_of silent_model) in
  persisted redis_config
  /\ redis_fault E (redis_calls initial_world) = None
  /\ redis_fault E (S (redis_calls initial_world))
     = Some (lit "Connection refused.")
  /\ exists w',
       update_session_history E redis_config session_a (round_of "r01")
         initial_world = (Ok tt, w')
       /\ stored_count (redis w') session_a
          = stored_count (redis initial_world) session_a + 1
       /\ stored_docs (redis w') session_a
          = stored_docs (redis initial_world) session_a
       /\ session_history w'
          = memory_append (round_of "r01") (session_history initial_world).
Proof.
  cbv zeta. split; [reflexivity|]. split; [reflexivity|].
  split; [reflexivity|].
  apply (update_fault_after_the_increment
           (with_redis_fault (redis_down_at 1) (env_of silent_model))
           redis_config session_a (round_of "r01") initial_world
           (lit "Connection refused.")); reflexivity.
Defined.

(** The in-memory history is bounded: an update of a history of at most a
    hundred rounds counts the round, puts it last, and, when the history is
    full, drops the oldest round. *)
Theorem in_memory_update_drops_the_oldest (E : Env) (cfg : Config)
  (session_id : str) (statements : json) (w : World) :
  in_memory cfg ->
  (length (rounds (session_history w)) <= 100)%nat ->
  exists w',
    update_session_history E cfg session_id statements w = (Ok tt, w')
    /\ round_count (session_history w') = round_count (session_history w) + 1
    /\ (length (rounds (session_history w')) <= 100)%nat
    /\ last (rounds (session_history w')) = Some statements
    /\ ((length (rounds (session_history w)) < 100)%nat ->
        rounds (session_history w') = rounds (session_history w) ++ [statements])
    /\ (length (rounds (session_history w)) = 100%nat ->
        rounds (session_history w')
        = tail (rounds (session_history w)) ++ [statements]).
Proof.
  intros Hm Hl. eexists. split; [apply (update_in_memory E cfg _ _ _ Hm)|].
  cbn [session_history set_session_history].
  set (h := session_history w) in *.
  split; [reflexivity|].
  rewrite (memory_append_rounds _ _ Hl).
  split; [rewrite py_last_n_length, length_app; cbn [length]; lia|].
  unfold py_last_n. rewrite length_app. cbn [length].
  split; [|split].
  - rewrite drop_app_le by lia. apply last_snoc.
  - intros Hlt. replace (length (rounds h) + 1 - 100)%nat with 0%nat by lia.
    reflexivity.
  - intros Heq. replace (length (rounds h) + 1 - 100)%nat with 1%nat by lia.
    destruct (rounds h); [discriminate|]. reflexivity.
Qed.

Lemma in_memory_update_drops_the_oldest_witness :
  in_memory memory_config
  /\ (length (rounds (session_history initial_world)) <= 100)%nat
  /\ exists w',
       update_session_history (env_of silent_model) memory_config session_a
         (round_of "r01") initial_world = (Ok tt, w')
       /\ round_count (session_history w')
          = round_count (session_history initial_world) + 1
       /\ (length (rounds (session_history w')) <= 100)%nat
       /\ last (rounds (session_history w')) = Some (round_of "r01")
       /\ ((length (rounds (session_history initial_world)) < 100)%nat ->
           rounds (session_history w')
           = rounds (session_history initial_world) ++ [round_of "r01"])
       /\ (length (rounds (session_history initial_world)) = 100%nat ->
           rounds (session_history w')
           = tail (rounds (session_history initial_world)) ++ [round_of "r01"]).
Proof.
  assert (Hl : (length (rounds (session_history initial_world)) <= 100)%nat)
    by (cbn; lia).
  split; [reflexivity|]. split; [exact Hl|].
  apply (in_memory_update_drops_the_oldest (env_of silent_model)
           memory_config session_a (round_of "r01") initial_world eq_refl Hl).
Defined.

(** ** The session id and the session endpoint *)

(** Once a session id exists it is returned unchanged, without a new uuid;
    a process without one draws exactly one uuid and keeps it. *)
Theorem get_session_id_is_stable (E : Env) (w : World) :
  uuid4 E (uuid_calls w) <> [] ->
  exists session_id w1,
    get_session_id E w = (Ok session_id, w1)
    /\ session_id <> []
    /\ current_session_id w1 = Some session_id
    /\ get_session_id E w1 = (Ok session_id, w1)
    /\ (current_session_id w = None ->
        session_id = uuid4 E (uuid_calls w)
        /\ uuid_calls w1 = S (uuid_calls w))
    /\ (forall c s, current_session_id w = Some (c :: s) ->
        session_id = c :: s /\ w1 = w).
Proof.
  intros Hne. unfold get_session_id.
  destruct (current_session_id w) as [[|c s]|] eqn:Hid.
  - destruct (uuid4 E (uuid_calls w)) as [|c s] eqn:Hu; [contradiction|].
    eexists _, _. split; [reflexivity|]. split; [discriminate|].
    cbn [current_session_id set_session_id].
    repeat split; discriminate.
  - eexists _, _. split; [reflexivity|]. split; [discriminate|].
    rewrite Hid. split; [reflexivity|]. split; [reflexivity|].
    split; [discriminate|]. intros c' s' [= <- <-]. auto.
  - destruct (uuid4 E (uuid_calls w)) as [|c s] eqn:Hu; [contradiction|].
    eexists _, _. split; [reflexivity|]. split; [discriminate|].
    cbn [current_session_id set_session_id uuid_calls].
    repeat split; discriminate.
Qed.

Lemma get_session_id_is_stable_witness :
  uuid4 (env_of silent_model) (uuid_calls initial_world) <> []
  /\ exists session_id w1,
       get_session_id (env_of silent_model) initial_world = (Ok session_id, w1)
       /\ session_id <> []
       /\ current_session_id w1 = Some session_id
       /\ get_session_id (env_of silent_model) w1 = (Ok session_id, w1)
       /\ (current_session_id initial_world = None ->
           session_id = uuid4 (env_of silent_model) (uuid_calls initial_world)
           /\ uuid_calls w1 = S (uuid_calls initial_world))
       /\ (forall c s, current_session_id initial_world = Some (c :: s) ->
           session_id = c :: s /\ w1 = initial_world).
Proof.
  assert (Hne : uuid4 (env_of silent_model) (uuid_calls initial_world) <> [])
    by (vm_compute; discriminate).
  split; [exact Hne|].
  apply (get_session_id_is_stable (env_of silent_model) initial_world Hne).
Defined.

Definition new_request : list (str * json) :=
  [(lit "action", JString (lit "new"))].

Definition new_session_message (new_id : str) : json :=
  JObject [(lit "message", JString (lit "New session created"));
           (lit "session_id", JString new_id)].

(** [POST] with the action [new] answers 200 with a fresh uuid, which becomes
    the current session id. It touches neither Redis nor the in-memory
    history: with the in-memory fallback, the history read for the new
    session is the history of the old one. *)
Theorem new_session_keeps_the_in_memory_history (E : Env) (cfg : Config)
  (request_json : list (str * json)) (w : World) :
  dict_get (lit "action") request_json = Some (JString (lit "new")) ->
  exists new_id w',
    manage_session_post E cfg request_json w
    = (Ok (new_session_message new_id, 200), w')
    /\ current_session_id w' = Some new_id
    /\ (exists n, (uuid_calls w <= n)%nat /\ new_id = uuid4 E n
                  /\ uuid_calls w' = S n)
    /\ redis w' = redis w
    /\ session_history w' = session_history w
    /\ (in_memory cfg ->
        get_session_history E cfg new_id w' = (Ok (session_history w), w')).
Proof.
  intros Ha. unfold manage_session_post, bind. rewrite Ha.
  cbn [default from_option id].
  change (is_str (JString (lit "new")) (lit "reset")) with false.
  change (is_str (JString (lit "new")) (lit "new")) with true.
  cbv iota. unfold get_session_id.
  destruct (current_session_id w) as [[|c s]|];
    (eexists _, _; split; [reflexivity|];
     cbn [current_session_id set_session_id uuid_calls redis session_history];
     split; [reflexivity|]; split;
     [eexists; split; [|split; reflexivity]; lia|];
     split; [reflexivity|]; split; [reflexivity|];
     intros Hm; rewrite get_in_memory by exact Hm; reflexivity).
Qed.

Lemma new_session_keeps_the_in_memory_history_witness :
  let E := env_of silent_model in
  let w := snd (append_all E memory_config session_a two_rounds
                  (set_session_id (Some session_a) 1 initial_world)) in
  dict_get (lit "action") new_request = Some (JString (lit "new"))
  /\ exists new_id w',
       manage_session_post E memory_config new_request w
       = (Ok (new_session_message new_id, 200), w')
       /\ current_session_id w' = Some new_id
       /\ (exists n, (uuid_calls w <= n)%nat /\ new_id = uuid4 E n
                     /\ uuid_calls w' = S n)
       /\ redis w' = redis w
       /\ session_history w' = session_history w
       /\ (in_memory memory_config ->
           get_session_history E memory_config new_id w'
           = (Ok (session_history w), w')).
Proof.
  cbv zeta. split; [reflexivity|].
  apply (new_session_keeps_the_in_memory_history (env_of silent_model)
           memory_config new_request _ eq_refl).
Defined.

(** [POST] without an action, or with an action that is neither [reset] nor
    [new], answers 400 with the usage message and changes neither Redis nor
    the in-memory history. *)
Theorem unknown_action_is_rejected (E : Env) (cfg : Config)
  (request_json : list (str * json)) (w : World) :
  let action := default (JString []) (dict_get (lit "action") request_json) in
  is_str action (lit "reset") = false ->
  is_str action (lit "new") = false ->
  exists w',
    manage_session_post E cfg request_json w = (Ok (invalid_action, 400), w')
    /\ redis w' = redis w
    /\ session_history w' = session_history w.
Proof.
  cbv zeta. intros Hr Hn. unfold manage_session_post, bind.
  rewrite Hr, Hn. unfold get_session_id.
  destruct (current_session_id w) as [[|c s]|];
    (eexists; split; [reflexivity|]; split; reflexivity).
Qed.

Lemma unknown_action_is_rejected_witness :
  let action := default (JString []) (dict_get (lit "action") []) in
  is_str action (lit "reset") = false
  /\ is_str action (lit "new") = false
  /\ exists w',
       manage_session_post (env_of silent_model) redis_config [] initial_world
       = (Ok (invalid_action, 400), w')
       /\ redis w' = redis initial_world
       /\ session_history w' = session_history initial_world.
Proof.
  cbv zeta. split; [reflexivity|]. split; [reflexivity|].
  apply (unknown_action_is_rejected (env_of silent_model) redis_config []
           initial_world); reflexivity.
Defined.

(** With Redis configured, a reset never raises and always answers 200; when
    one of its seven Redis commands fails, the body is the empty object, and
    nothing has been added to the in-memory history. *)
Theorem reset_with_failing_redis_answers_empty (E : Env) (cfg : Config)
  (request_json : list (str * json)) (w : World) (k : nat) (msg : str) :
  persisted cfg ->
  dict_get (lit "action") request_json = Some (JString (lit "reset")) ->
  (k < 7)%nat ->
  redis_fault E (redis_calls w + k) = Some msg ->
  exists w',
    manage_session_post E cfg request_json w = (Ok (JObject [], 200), w')
    /\ session_history w' = session_history w.
Proof.
  unfold persisted. intros Hp Ha Hk Hf.
  unfold manage_session_post. rewrite Ha, Hp.
  cbn [default from_option id].
  change (is_str (JString (lit "reset")) (lit "reset")) with true.
  cbv iota.
  unfold hget, redis_delete, hset, expire, try_except, bind, ret.
  assert (Hid : exists sid w1,
             get_session_id E w = (Ok sid, w1)
             /\ redis_calls w1 = redis_calls w
             /\ session_history w1 = session_history w).
  { unfold get_session_id.
    destruct (current_session_id w) as [[|c s]|]; eexists _, _;
      (split; [reflexivity|]; split; reflexivity). }
  destruct Hid as (sid & w1 & -> & Hcalls & Hhist).
  rewrite <- Hcalls, <- Hhist in *. clear Hcalls Hhist.
  step_redis; [eexists; split; reflexivity|].
  step_redis; [eexists; split; reflexivity|].
  step_redis; [eexists; split; reflexivity|].
  step_redis; [eexists; split; reflexivity|].
  step_redis; [eexists; split; reflexivity|].
  step_redis; [eexists; split; reflexivity|].
  step_redis; [eexists; split; reflexivity|].
  exfalso.
  destruct k as [|[|[|[|[|[|[|k]]]]]]]; [..|lia];
    rewrite ?Nat.add_succ_r, ?Nat.add_0_r in Hf; congruence.
Qed.

Lemma reset_with_failing_redis_answers_empty_witness :
  let E := with_redis_fault (redis_down_at 3) (env_of silent_model) in
  persisted redis_config
  /\ dict_get (lit "action") reset_request = Some (JString (lit "reset"))
  /\ (3 < 7)%nat
  /\ redis_fault E (redis_calls initial_world + 3)
     = Some (lit "Connection refused.")
  /\ exists w',
       manage_session_post E redis_config reset_request initial_world
       = (Ok (JObject [], 200), w')
       /\ session_history w' = session_history initial_world.
Proof.
  cbv zeta. split; [reflexivity|]. split; [reflexivity|]. split; [lia|].
  split; [reflexivity|].
  apply (reset_with_failing_redis_answers_empty
           (with_redis_fault (redis_down_at 3) (env_of silent_model))
           redis_config reset_request initial_world 3
           (lit "Connection refused.")).
  - reflexivity.
  - reflexivity.
  - lia.
  - reflexivity.
Defined.

(** ** The calls of the model *)

Definition calls_kept (w w' : World) : Prop := llm_calls w' = llm_calls w.

Definition at_most_one_call (w w' : World) : Prop :=
  llm_calls w' = llm_calls w
  \/ exists prompt, llm_calls w' = llm_calls w ++ [prompt].

Lemma calls_kept_trans a b c : calls_kept a b -> calls_kept b c -> calls_kept a c.
Proof. unfold calls_kept. congruence. Qed.

Lemma calls_kept_then_one a b c :
  calls_kept a b -> at_most_one_call b c -> at_most_one_call a c.
Proof. unfold calls_kept, at_most_one_call. intros ->. auto. Qed.

Lemma one_then_calls_kept a b c :
  at_most_one_call a b -> calls_kept b c -> at_most_one_call a c.
Proof. unfold calls_kept, at_most_one_call. intros H ->. auto. Qed.

Lemma preserves_weaken {A} (R S : World -> World -> Prop) (m : M A) :
  (forall a b, R a b -> S a b) -> preserves R m -> preserves S m.
Proof. intros HRS Hm w r w' Hrun. eapply HRS, Hm, Hrun. Qed.

Lemma process_kept_calls a b : process_kept a b -> calls_kept a b.
Proof. intros (_ & _ & _ & H & _). exact H. Qed.

Ltac keeps_calls :=
  repeat first
    [ apply preserves_ret; reflexivity
    | apply preserves_raise; reflexivity
    | apply preserves_lift; reflexivity
    | eapply (preserves_bind calls_kept calls_kept calls_kept);
      [apply calls_kept_trans|auto| |intros ?]
    | eapply (preserves_try calls_kept calls_kept calls_kept);
      [apply calls_kept_trans|auto| |intros ?] ].

Section ModelCalls.
Context (E : Env) (cfg : Config).

Lemma redis_cmd_calls {A} (f : Redis -> A * Redis) :
  preserves calls_kept (redis_cmd E f).
Proof.
  eapply preserves_weaken; [apply process_kept_calls|apply redis_cmd_kept].
Qed.

Lemma dumps_calls v : preserves calls_kept (dumps E v).
Proof.
  eapply preserves_weaken; [apply process_kept_calls|apply dumps_kept].
Qed.

Lemma get_session_id_calls : preserves calls_kept (get_session_id E).
Proof.
  intros w r w' Hrun. apply get_session_id_frame in Hrun as [_ H]. exact H.
Qed.

Lemma get_session_history_calls sid :
  preserves calls_kept (get_session_history E cfg sid).
Proof.
  eapply preserves_weaken;
    [apply process_kept_calls|apply get_session_history_kept].
Qed.

Lemma update_memory_calls v : preserves calls_kept (update_memory v).
Proof. intros w r w' [= _ <-]. reflexivity. Qed.

Lemma update_session_history_calls sid v :
  preserves calls_kept (update_session_history E cfg sid v).
Proof.
  unfold update_session_history.
  destruct (redis_client cfg); cbn [negb]; [|apply update_memory_calls].
  unfold hincrby, expire, lpush, ltrim, llen.
  keeps_calls;
    first [apply redis_cmd_calls|apply dumps_calls|apply update_memory_calls].
Qed.

Lemma read_clock_calls : preserves calls_kept (read_clock E).
Proof. intros w r w' [= _ <-]. reflexivity. Qed.

Lemma store_log_calls key entry :
  preserves calls_kept (store_log E cfg key entry).
Proof.
  unfold store_log, lpush, ltrim, expire.
  destruct (redis_client cfg);
    keeps_calls; first [apply redis_cmd_calls|apply dumps_calls].
Qed.

Lemma loads_calls s : preserves calls_kept (loads E s).
Proof. unfold loads. destruct (json_loads E s); keeps_calls. Qed.

Lemma process_response_calls response_text :
  preserves calls_kept (process_response E cfg response_text).
Proof.
  unfold process_response, llen.
  eapply (preserves_try calls_kept calls_kept calls_kept);
    [apply calls_kept_trans|auto| |intros e; destruct e; keeps_calls].
  eapply (preserves_bind calls_kept calls_kept calls_kept);
    [apply calls_kept_trans|auto|apply loads_calls|intros round_data].
  eapply (preserves_bind calls_kept calls_kept calls_kept);
    [apply calls_kept_trans|auto|keeps_calls|intros statements].
  eapply (preserves_bind calls_kept calls_kept calls_kept);
    [apply calls_kept_trans|auto|apply get_session_id_calls|intros sid].
  eapply (preserves_bind calls_kept calls_kept calls_kept);
    [apply calls_kept_trans|auto|apply update_session_history_calls|intros _].
  eapply (preserves_bind calls_kept calls_kept calls_kept);
    [apply calls_kept_trans|auto|keeps_calls|intros _].
  eapply (preserves_bind calls_kept calls_kept calls_kept);
    [apply calls_kept_trans|auto| |intros _; keeps_calls].
  destruct (redis_client cfg); keeps_calls. apply redis_cmd_calls.
Qed.

Lemma call_model_once prompt : preserves at_most_one_call (call_model E prompt).
Proof.
  intros w r w'. unfold call_model.
  destruct (llm E (length (llm_calls w)) prompt); intros [= _ <-];
    right; eexists; reflexivity.
Qed.

Lemma request_round_once sid prompt history_text round_number :
  preserves at_most_one_call
    (request_round E cfg sid prompt history_text round_number).
Proof.
  unfold request_round.
  eapply (preserves_try at_most_one_call calls_kept at_most_one_call);
    [apply one_then_calls_kept|auto| |intros e; keeps_calls].
  eapply (preserves_bind calls_kept at_most_one_call at_most_one_call);
    [apply calls_kept_then_one|intros a b H; left; exact H
    |apply read_clock_calls|intros t1].
  eapply (preserves_bind calls_kept at_most_one_call at_most_one_call);
    [apply calls_kept_then_one|intros a b H; left; exact H
    |apply store_log_calls|intros _].
  eapply (preserves_bind at_most_one_call calls_kept at_most_one_call);
    [apply one_then_calls_kept|auto|apply call_model_once|intros response_text].
  eapply (preserves_bind calls_kept calls_kept calls_kept);
    [apply calls_kept_trans|auto|apply read_clock_calls|intros t2].
  eapply (preserves_bind calls_kept calls_kept calls_kept);
    [apply calls_kept_trans|auto|apply store_log_calls|intros _].
  apply process_response_calls.
Qed.

Lemma generate_new_round_once :
  preserves at_most_one_call (generate_new_round E cfg).
Proof.
  unfold generate_new_round.
  assert (Hret : forall v : json, preserves at_most_one_call (ret v)).
  { intros v w r w' [= _ <-]. left. reflexivity. }
  destruct (anthropic_client cfg); cbn [negb]; [|apply Hret].
  destruct (claude_prompt cfg) as [[|c prompt]|]; [apply Hret| |apply Hret].
  eapply (preserves_bind calls_kept at_most_one_call at_most_one_call);
    [apply calls_kept_then_one|intros a b H; left; exact H
    |apply get_session_id_calls|intros sid].
  eapply (preserves_bind calls_kept at_most_one_call at_most_one_call);
    [apply calls_kept_then_one|intros a b H; left; exact H
    |apply get_session_history_calls|intros h].
  eapply (preserves_bind calls_kept at_most_one_call at_most_one_call);
    [apply calls_kept_then_one|intros a b H; left; exact H
    |keeps_calls|intros history_text].
  apply request_round_once.
Qed.

End ModelCalls.

(** One generation asks the model at most once, whatever the configuration,
    the stored history and the outcome (a round, an error result or an
    exception): there is no retry inside the generator. *)
Theorem generation_asks_the_model_at_most_once (E : Env) (cfg : Config)
  (w : World) :
  let w' := snd (generate_new_round E cfg w) in
  llm_calls w' = llm_calls w
  \/ exists prompt, llm_calls w' = llm_calls w ++ [prompt].
Proof.
  cbv zeta. apply (generate_new_round_once E cfg w
                     (fst (generate_new_round E cfg w))).
  destruct (generate_new_round E cfg w). reflexivity.
Qed.

(** ** Failures of a generation *)

(** The history context is built before the [try] of the generator: with the
    in-memory fallback, when a stored round cannot be rendered the exception
    leaves [generate_new_round], the model is not asked and the history
    stays as it is, so every later generation fails in the same way. *)
Theorem history_rendering_error_escapes (E : Env) (cfg : Config) (w : World)
  (c : N) (prompt : str) (e : exn) :
  in_memory cfg ->
  anthropic_client cfg = true ->
  claude_prompt cfg = Some (c :: prompt) ->
  build_history_text E (session_history w) = Raise e ->
  exists w',
    generate_new_round E cfg w = (Raise e, w')
    /\ llm_calls w' = llm_calls w
    /\ session_history w' = session_history w
    /\ fst (generate_new_round E cfg w') = Raise e.
Proof.
  intros Hm Hc Hp Hb.
  assert (Hrun : forall w0, session_history w0 = session_history w ->
            exists w1, generate_new_round E cfg w0 = (Raise e, w1)
                       /\ llm_calls w1 = llm_calls w0
                       /\ session_history w1 = session_history w0).
  { intros w0 Hw0. unfold generate_new_round. rewrite Hc, Hp. cbn [negb].
    unfold bind at 1.
    destruct (get_session_id E w0) as [[sid|e0] w1] eqn:Hid.
    2: { unfold get_session_id in Hid.
         destruct (current_session_id w0) as [[|? ?]|]; discriminate. }
    apply get_session_id_frame in Hid as [Hh Hl].
    unfold bind. rewrite get_in_memory by exact Hm.
    unfold lift. exists w1. rewrite Hh, Hw0, Hb. auto. }
  destruct (Hrun w eq_refl) as (w1 & Hgen & Hl & Hh).
  exists w1. split; [exact Hgen|]. split; [exact Hl|]. split; [exact Hh|].
  destruct (Hrun w1 Hh) as (w2 & -> & _). reflexivity.
Qed.

(** The world after the model answered [{"statements": [1]}] once. *)
Definition world_with_a_number_statement : World :=
  snd (generate_new_round (env_of (answering number_statement_response))
         memory_config initial_world).

Lemma history_rendering_error_escapes_witness :
  let E := env_of (answering good_response) in
  let w := world_with_a_number_statement in
  let e := AttributeError (lit "'int' object has no attribute 'get'") in
  in_memory memory_config
  /\ anthropic_client memory_config = true
  /\ build_history_text E (session_history w) = Raise e
  /\ exists w',
       generate_new_round E memory_config w = (Raise e, w')
       /\ llm_calls w' = llm_calls w
       /\ session_history w' = session_history w
       /\ fst (generate_new_round E memory_config w') = Raise e.
Proof.
  cbv zeta. split; [reflexivity|]. split; [reflexivity|].
  assert (Hb : build_history_text (env_of (answering good_response))
                 (session_history world_with_a_number_statement)
               = Raise (AttributeError
                          (lit "'int' object has no attribute 'get'")))
    by (vm_compute; reflexivity).
  split; [exact Hb|].
  apply (history_rendering_error_escapes (env_of (answering good_response))
           memory_config world_with_a_number_statement _ _ _
           eq_refl eq_refl eq_refl Hb).
Defined.

(** With the in-memory fallback and a history that renders, a failing model
    call is returned, not raised: the result is the error object of the
    exception's class, the model was asked once with the prompt of the round
    [round_count + 1], and the history is unchanged. *)
Theorem model_failure_becomes_an_error_result (E : Env) (cfg : Config)
  (w : World) (c : N) (prompt history_text : str) (e : exn) :
  in_memory cfg ->
  anthropic_client cfg = true ->
  claude_prompt cfg = Some (c :: prompt) ->
  build_history_text E (session_history w) = Ok history_text ->
  let full := prompt_to_send (c :: prompt) history_text
                (round_count (session_history w) + 1) in
  llm E (length (llm_calls w)) full = LLMRaise e ->
  exists w',
    generate_new_round E cfg w = (Ok (api_error e), w')
    /\ is_error (api_error e) = true
    /\ llm_calls w' = llm_calls w ++ [full]
    /\ session_history w' = session_history w.
Proof.
  intros Hm Hc Hp Hb full Hllm. unfold in_memory in Hm.
  unfold generate_new_round. rewrite Hc, Hp. cbn [negb].
  unfold bind at 1.
  destruct (get_session_id E w) as [[sid|e0] w1] eqn:Hid.
  2: { unfold get_session_id in Hid.
       destruct (current_session_id w) as [[|? ?]|]; discriminate. }
  apply get_session_id_frame in Hid as [Hh Hl].
  unfold bind at 1. rewrite get_in_memory by exact Hm.
  unfold bind at 1, lift. rewrite Hh, Hb.
  unfold request_round, store_log, read_clock, call_model, try_except, bind,
    ret.
  rewrite Hm. cbn [llm_calls set_clock_reads]. rewrite Hl.
  fold full. rewrite Hllm.
  eexists. split; [reflexivity|]. split; [apply is_error_api_error|].
  split; [reflexivity|exact Hh].
Qed.

Lemma model_failure_becomes_an_error_result_witness :
  let E := env_of silent_model in
  let e := APIConnectionError (lit "Connection error.") in
  let full := prompt_to_send (lit "Write two truths and a lie as JSON.") []
                (round_count (session_history initial_world) + 1) in
  in_memory memory_config
  /\ build_history_text E (session_history initial_world) = Ok []
  /\ llm E (length (llm_calls initial_world)) full = LLMRaise e
  /\ exists w',
       generate_new_round E memory_config initial_world
       = (Ok (api_error e), w')
       /\ is_error (api_error e) = true
       /\ llm_calls w' = llm_calls initial_world ++ [full]
       /\ session_history w' = session_history initial_world.
Proof.
  cbv zeta. split; [reflexivity|]. split; [reflexivity|].
  split; [reflexivity|].
  apply (model_failure_becomes_an_error_result (env_of silent_model)
           memory_config initial_world 87%N
           (lit "rite two truths and a lie as JSON.") []
           (APIConnectionError (lit "Connection error."))
           eq_refl eq_refl eq_refl eq_refl eq_refl).
Defined.

(** ** The scheduler loop *)

Definition set_new_round_requested (b : bool) (s : Sched) : Sched :=
  {| new_round_requested := b; preloaded_round := preloaded_round s;
     is_preloading := is_preloading s |}.

(** [trigger_new_round]: the body of the response, the status code and the
    flags afterwards. *)
Definition trigger_new_round (s : Sched) : json * Z * Sched :=
  if negb (new_round_requested s) then
    (JObject [(lit "message", JString (lit "New round generation triggered"))],
     200, set_new_round_requested true s)
  else
    (JObject [(lit "message",
               JString (lit "New round generation already requested"))],
     202, s).

(** [{"message": round_data["error"]}] *)
Definition error_payload (round_data : json) : res json :=
  res_bind (py_getitem round_data (lit "error")) (fun m =>
  Ok (JObject [(lit "message", m)])).

Definition empty_result_payload : json :=
  JObject [(lit "message",
            JString (lit "Failed to generate new round (empty result)."))].

Section Scheduler.
Context (E : Env) (cfg : Config).

(** Under [preload_lock]: [if preloaded_round:] takes the cached round and
    clears the cache. *)
Definition take_preloaded (s : Sched) : option json * Sched :=
  match preloaded_round s with
  | Some v =>
      if truthy E v then (Some v, set_preloaded_round None s) else (None, s)
  | None => (None, s)
  end.

(** What the loop publishes for the outcome of the direct generation that
    follows a cached error. *)
Definition announce_direct (round_data : json)
  (message_queues : gmap Z (list str)) : res (gmap Z (list str)) :=
  if is_error round_data then
    res_bind (error_payload round_data) (fun p =>
    broadcast_message E (lit "error") p message_queues)
  else if truthy E round_data then
    broadcast_message E (lit "new_round") round_data message_queues
  else broadcast_message E (lit "error") empty_result_payload message_queues.

(** The end of a processed request: the flag is reset after the broadcast;
    an exception leaves the loop before that. *)
Definition finish_request (s1 : Sched) (message_queues : gmap Z (list str))
  (published : res (gmap Z (list str))) (starts_preload : bool) (w : World)
  : res bool * Sched * gmap Z (list str) * World :=
  match published with
  | Ok queues' =>
      (Ok starts_preload, set_new_round_requested false s1, queues', w)
  | Raise e => (Raise e, s1, message_queues, w)
  end.

(** One iteration of the loop of [background_task], run without interference
    of the other threads. The boolean tells whether the iteration starts a
    [preload_next_round] thread. *)
Definition background_step (s : Sched) (message_queues : gmap Z (list str))
  (w : World) : res bool * Sched * gmap Z (list str) * World :=
  if new_round_requested s then
    match take_preloaded s with
    | (Some local_preloaded_round, s1) =>
        let round_data := local_preloaded_round in
        if is_error round_data then
          match generate_new_round E cfg w with
          | (Ok round_data, w') =>
              finish_request s1 message_queues
                (announce_direct round_data message_queues) false w'
          | (Raise e, w') => (Raise e, s1, message_queues, w')
          end
        else if truthy E round_data then
          finish_request s1 message_queues
            (broadcast_message E (lit "new_round") round_data message_queues)
            (negb (is_preloading s1) && bool_decide (preloaded_round s1 = None))
            w
        else
          finish_request s1 message_queues
            (broadcast_message E (lit "error") empty_result_payload
               message_queues) false w
    | (None, s1) =>
        match generate_new_round E cfg w with
        | (Ok round_data, w') =>
            if is_error round_data then
              finish_request s1 message_queues
                (res_bind (error_payload round_data) (fun p =>
                 broadcast_message E (lit "error") p message_queues))
                false w'
            else if truthy E round_data then
              finish_request s1 message_queues
                (broadcast_message E (lit "new_round") round_data
                   message_queues)
                (negb (is_preloading s1)
                 && bool_decide (preloaded_round s1 = None))
                w'
            else
              finish_request s1 message_queues
                (broadcast_message E (lit "error") empty_result_payload
                   message_queues) false w'
        | (Raise e, w') => (Raise e, s1, message_queues, w')
        end
    end
  else (Ok (idle_starts_preload s), s, message_queues, w).

End Scheduler.

Section SchedulerFacts.
Context (E : Env) (cfg : Config).

Lemma take_preloaded_flags s :
  new_round_requested (snd (take_preloaded E s)) = new_round_requested s
  /\ is_preloading (snd (take_preloaded E s)) = is_preloading s.
Proof.
  unfold take_preloaded. destruct (preloaded_round s) as [v|]; [|auto].
  destruct (truthy E v); auto.
Qed.

Lemma error_payload_error_result msg :
  error_payload (error_result msg) = Ok (JObject [(lit "message", JString msg)]).
Proof. reflexivity. Qed.

Lemma broadcast_new_round round_data (message_queues : gmap Z (list (list N))) :
  broadcast_message E (lit "new_round") round_data message_queues
  = Ok (deliver E (envelope (lit "new_round") round_data) <$> message_queues).
Proof.
  unfold broadcast_message. rewrite message_data_envelope; [reflexivity|].
  discriminate.
Qed.

Lemma broadcast_error_message m (message_queues : gmap Z (list (list N))) :
  broadcast_message E (lit "error") (JObject [(lit "message", m)])
    message_queues
  = Ok (deliver E (JObject [(lit "type", JString (lit "error"));
                            (lit "message", m)]) <$> message_queues).
Proof. reflexivity. Qed.

(** What every processed request has done when the iteration returns. *)
Definition request_done (s : Sched) (message_queues : gmap Z (list str))
  (s' : Sched) (queues' : gmap Z (list str)) : Prop :=
  new_round_requested s' = false
  /\ is_preloading s' = is_preloading s
  /\ dom queues' = dom message_queues
  /\ exists event_type payload,
       (event_type = lit "new_round" \/ event_type = lit "error")
       /\ broadcast_message E event_type payload message_queues = Ok queues'.

(** What an iteration that raises leaves behind. *)
Definition request_pending (message_queues : gmap Z (list str))
  (s' : Sched) (queues' : gmap Z (list str)) : Prop :=
  new_round_requested s' = true /\ queues' = message_queues.

Lemma broadcast_dom event_type payload
  (message_queues queues' : gmap Z (list (list N))) :
  broadcast_message E event_type payload message_queues = Ok queues' ->
  dom queues' = dom message_queues.
Proof.
  unfold broadcast_message.
  destruct (message_data event_type payload); [|discriminate].
  intros [= <-]. apply dom_fmap_L.
Qed.

Lemma finish_request_done s s1 message_queues event_type payload
  starts_preload w :
  new_round_requested s1 = true -> is_preloading s1 = is_preloading s ->
  event_type = lit "new_round" \/ event_type = lit "error" ->
  match finish_request s1 message_queues
          (broadcast_message E event_type payload message_queues)
          starts_preload w with
  | (Ok _, s', queues', w') =>
      request_done s message_queues s' queues' /\ w' = w
  | (Raise _, s', queues', w') =>
      request_pending message_queues s' queues' /\ w' = w
  end.
Proof.
  intros Hflag Hpre Hev. unfold finish_request.
  destruct (broadcast_message E event_type payload message_queues)
    as [queues'|e] eqn:Hb.
  - split; [|reflexivity]. split; [reflexivity|]. split; [exact Hpre|].
    split; [eapply broadcast_dom; exact Hb|]. eauto.
  - split; [|reflexivity]. split; [exact Hflag|reflexivity].
Qed.

Lemma finish_request_error s s1 message_queues round_data w :
  new_round_requested s1 = true -> is_preloading s1 = is_preloading s ->
  match finish_request s1 message_queues
          (res_bind (error_payload round_data) (fun p =>
           broadcast_message E (lit "error") p message_queues))
          false w with
  | (Ok _, s', queues', w') =>
      request_done s message_queues s' queues' /\ w' = w
  | (Raise _, s', queues', w') =>
      request_pending message_queues s' queues' /\ w' = w
  end.
Proof.
  intros Hflag Hpre. destruct (error_payload round_data) as [p|e] eqn:Hp.
  - cbn [res_bind]. apply finish_request_done; auto.
  - cbn [res_bind finish_request]. split; [|reflexivity].
    split; [exact Hflag|reflexivity].
Qed.

Lemma finish_request_direct s s1 message_queues round_data w :
  new_round_requested s1 = true -> is_preloading s1 = is_preloading s ->
  match finish_request s1 message_queues
          (announce_direct E round_data message_queues) false w with
  | (Ok _, s', queues', w') =>
      request_done s message_queues s' queues' /\ w' = w
  | (Raise _, s', queues', w') =>
      request_pending message_queues s' queues' /\ w' = w
  end.
Proof.
  intros Hflag Hpre. unfold announce_direct.
  destruct (is_error round_data); [apply finish_request_error; auto|].
  destruct (truthy E round_data); apply finish_request_done; auto.
Qed.

End SchedulerFacts.

Ltac finish_with H :=
  let Hd := fresh "Hd" in
  pose proof H as Hd;
  match type of Hd with
  | match ?f with _ => _ end =>
      destruct f as [[[[starts|e] s'] queues'] w'']
  end;
  destruct Hd as [Hd ->].

(** The outcomes of one iteration, by whether a request was pending. *)
Lemma background_step_outcome (E : Env) (cfg : Config)
  (s : Sched) (message_queues : gmap Z (list (list N))) (w : World) :
  match background_step E cfg s message_queues w with
  | (outcome, s', queues', w') =>
      if new_round_requested s then
        (llm_calls w' = llm_calls w
         \/ exists prompt, llm_calls w' = llm_calls w ++ [prompt])
        /\ match outcome with
           | Ok _ =>
               new_round_requested s' = false
               /\ is_preloading s' = is_preloading s
               /\ dom queues' = dom message_queues
               /\ exists event_type payload,
                    (event_type = lit "new_round" \/ event_type = lit "error")
                    /\ broadcast_message E event_type payload message_queues
                       = Ok queues'
           | Raise _ =>
               new_round_requested s' = true /\ queues' = message_queues
           end
      else
        outcome = Ok (idle_starts_preload s)
        /\ s' = s /\ queues' = message_queues /\ w' = w
  end.
Proof.
  unfold background_step.
  destruct (new_round_requested s) eqn:Hflag; [|auto].
  destruct (take_preloaded_flags E s) as [Hf Hp]. rewrite Hflag in Hf.
  pose proof (generate_new_round_once E cfg w) as Hcalls.
  destruct (take_preloaded E s) as [[v|] s1]; cbn [snd] in Hf, Hp.
  - destruct (is_error v).
    + destruct (generate_new_round E cfg w) as [[round_data|e] w'] eqn:Hg.
      * finish_with (finish_request_direct E s s1 message_queues round_data
                       w' Hf Hp);
          (split; [eapply Hcalls; reflexivity|exact Hd]).
      * split; [eapply Hcalls; reflexivity|]. split; [exact Hf|reflexivity].
    + destruct (truthy E v).
      * finish_with (finish_request_done E s s1 message_queues
                       (lit "new_round") v
                       (negb (is_preloading s1)
                        && bool_decide (preloaded_round s1 = None)) w Hf Hp
                       (or_introl eq_refl));
          (split; [left; reflexivity|exact Hd]).
      * finish_with (finish_request_done E s s1 message_queues
                       (lit "error") empty_result_payload false w Hf Hp
                       (or_intror eq_refl));
          (split; [left; reflexivity|exact Hd]).
  - destruct (generate_new_round E cfg w) as [[round_data|e] w'] eqn:Hg.
    + destruct (is_error round_data).
      * finish_with (finish_request_error E s s1 message_queues round_data
                       w' Hf Hp);
          (split; [eapply Hcalls; reflexivity|exact Hd]).
      * destruct (truthy E round_data).
        -- finish_with (finish_request_done E s s1 message_queues
                          (lit "new_round") round_data
                          (negb (is_preloading s1)
                           && bool_decide (preloaded_round s1 = None)) w'
                          Hf Hp (or_introl eq_refl));
             (split; [eapply Hcalls; reflexivity|exact Hd]).
        -- finish_with (finish_request_done E s s1 message_queues
                          (lit "error") empty_result_payload false w' Hf Hp
                          (or_intror eq_refl));
             (split; [eapply Hcalls; reflexivity|exact Hd]).
    + split; [eapply Hcalls; reflexivity|]. split; [exact Hf|reflexivity].
Qed.

(** One iteration of the background loop. Without a request it publishes
    nothing and changes nothing. With a request, when it returns, it has
    published exactly one event ([new_round] or [error]) to the registered
    queues and then cleared the flag; when it raises, nothing was published
    and the flag is still set. Either way the model was asked at most
    once. *)
Theorem every_request_publishes_one_event (E : Env) (cfg : Config)
  (s : Sched) (message_queues : gmap Z (list (list N))) (w : World) :
  match background_step E cfg s message_queues w with
  | (outcome, s', queues', w') =>
      if new_round_requested s then
        (llm_calls w' = llm_calls w
         \/ exists prompt, llm_calls w' = llm_calls w ++ [prompt])
        /\ match outcome with
           | Ok _ =>
               new_round_requested s' = false
               /\ is_preloading s' = is_preloading s
               /\ dom queues' = dom message_queues
               /\ exists event_type payload,
                    (event_type = lit "new_round" \/ event_type = lit "error")
                    /\ broadcast_message E event_type payload message_queues
                       = Ok queues'
           | Raise _ =>
               new_round_requested s' = true /\ queues' = message_queues
           end
      else
        outcome = Ok (idle_starts_preload s)
        /\ s' = s /\ queues' = message_queues /\ w' = w
  end.
Proof. exact (background_step_outcome E cfg s message_queues w). Qed.

Definition requested_with (cached : option json) (preloading : bool) : Sched :=
  {| new_round_requested := true; preloaded_round := cached;
     is_preloading := preloading |}.

(** A request that finds a round in the cache is served from the cache: the
    iteration returns, every registered queue goes through the delivery of
    the [new_round] event of the cached round, the cache is emptied and the
    flag cleared, and nothing else changes: the generator is not run. A
    preload thread is started unless one is running. *)
Theorem cached_round_is_served_without_the_model (E : Env) (cfg : Config)
  (s : Sched) (message_queues : gmap Z (list (list N))) (w : World)
  (v : json) :
  new_round_requested s = true ->
  preloaded_round s = Some v ->
  truthy E v = true -> is_error v = false ->
  background_step E cfg s message_queues w
  = (Ok (negb (is_preloading s)),
     {| new_round_requested := false; preloaded_round := None;
        is_preloading := is_preloading s |},
     deliver E (envelope (lit "new_round") v) <$> message_queues,
     w).
Proof.
  intros Hflag Hcache Htrue Herr.
  unfold background_step, take_preloaded.
  rewrite Hflag, Hcache, Htrue, Herr, Htrue.
  rewrite broadcast_new_round. cbn [finish_request].
  cbn [preloaded_round set_preloaded_round is_preloading].
  rewrite bool_decide_eq_true_2 by reflexivity.
  rewrite andb_true_r. reflexivity.
Qed.

Lemma cached_round_is_served_without_the_model_witness :
  let E := env_of silent_model in
  let s := requested_with (Some good_document) false in
  new_round_requested s = true
  /\ preloaded_round s = Some good_document
  /\ truthy E good_document = true /\ is_error good_document = false
  /\ background_step E memory_config s two_clients initial_world
     = (Ok (negb (is_preloading s)),
        {| new_round_requested := false; preloaded_round := None;
           is_preloading := is_preloading s |},
        deliver E (envelope (lit "new_round") good_document) <$> two_clients,
        initial_world).
Proof.
  cbv zeta. split; [reflexivity|]. split; [reflexivity|].
  split; [reflexivity|]. split; [reflexivity|].
  apply (cached_round_is_served_without_the_model (env_of silent_model)
           memory_config (requested_with (Some good_document) false)
           two_clients initial_world good_document);
    reflexivity.
Defined.

(** A request without a cached round whose generation returns an error
    object: the iteration publishes the [error] event that carries the
    generator's message as it is, clears the flag and starts no preload. *)
Theorem error_result_reaches_the_clients (E : Env) (cfg : Config)
  (s : Sched) (message_queues : gmap Z (list (list N))) (w w' : World)
  (msg : str) :
  new_round_requested s = true ->
  preloaded_round s = None ->
  generate_new_round E cfg w = (Ok (error_result msg), w') ->
  background_step E cfg s message_queues w
  = (Ok false, set_new_round_requested false s,
     deliver E (JObject [(lit "type", JString (lit "error"));
                         (lit "message", JString msg)]) <$> message_queues,
     w').
Proof.
  intros Hflag Hcache Hgen.
  unfold background_step, take_preloaded.
  rewrite Hflag, Hcache, Hgen, is_error_error_result.
  rewrite error_payload_error_result. cbn [res_bind].
  rewrite broadcast_error_message. reflexivity.
Qed.

Definition no_api_key_config : Config :=
  {| redis_client := false; anthropic_client := false;
     claude_prompt := Some (lit "Write two truths and a lie as JSON.") |}.

Lemma error_result_reaches_the_clients_witness :
  let E := env_of silent_model in
  let s := requested_with None false in
  let msg := lit "Anthropic client not initialized. Check API key." in
  new_round_requested s = true
  /\ preloaded_round s = None
  /\ generate_new_round E no_api_key_config initial_world
     = (Ok (error_result msg), initial_world)
  /\ background_step E no_api_key_config s two_clients initial_world
     = (Ok false, set_new_round_requested false s,
        deliver E (JObject [(lit "type", JString (lit "error"));
                            (lit "message", JString msg)]) <$> two_clients,
        initial_world).
Proof.
  cbv zeta. split; [reflexivity|]. split; [reflexivity|].
  split; [reflexivity|].
  apply (error_result_reaches_the_clients (env_of silent_model)
           no_api_key_config (requested_with None false) two_clients
           initial_world initial_world
           (lit "Anthropic client not initialized. Check API key."));
    reflexivity.
Defined.

Lemma generate_raises_on_unrenderable_history (E : Env) (cfg : Config)
  (w : World) (c : N) (prompt : str) (e : exn) :
  in_memory cfg ->
  anthropic_client cfg = true ->
  claude_prompt cfg = Some (c :: prompt) ->
  build_history_text E (session_history w) = Raise e ->
  exists w', generate_new_round E cfg w = (Raise e, w').
Proof.
  intros Hm Hc Hp Hb. unfold generate_new_round. rewrite Hc, Hp. cbn [negb].
  unfold bind at 1.
  destruct (get_session_id E w) as [[sid|e0] w1] eqn:Hid.
  2: { unfold get_session_id in Hid.
       destruct (current_session_id w) as [[|? ?]|]; discriminate. }
  apply get_session_id_frame in Hid as [Hh Hl].
  unfold bind. rewrite get_in_memory by exact Hm.
  unfold lift. exists w1. rewrite Hh, Hb. reflexivity.
Qed.

(** The loop of [background_task] has no handler. With the in-memory
    fallback, a request without a cached round, and a stored round that
    cannot be rendered, the iteration raises the rendering exception: no
    event is published, the flags are as before, so the request stays
    pending and a later [trigger_new_round] is answered 202 without any
    effect. *)
Theorem unrenderable_history_leaves_the_request_pending (E : Env)
  (cfg : Config) (s : Sched) (message_queues : gmap Z (list (list N)))
  (w : World) (c : N) (prompt : str) (e : exn) :
  in_memory cfg ->
  anthropic_client cfg = true ->
  claude_prompt cfg = Some (c :: prompt) ->
  build_history_text E (session_history w) = Raise e ->
  new_round_requested s = true ->
  preloaded_round s = None ->
  exists w',
    background_step E cfg s message_queues w
    = (Raise e, s, message_queues, w')
    /\ trigger_new_round s
       = (JObject [(lit "message",
                    JString (lit "New round generation already requested"))],
          202, s).
Proof.
  intros Hm Hc Hp Hb Hflag Hcache.
  destruct (generate_raises_on_unrenderable_history E cfg w c prompt e
              Hm Hc Hp Hb) as (w' & Hgen).
  exists w'. unfold background_step, take_preloaded, trigger_new_round.
  rewrite Hflag, Hcache, Hgen. split; reflexivity.
Qed.

Lemma unrenderable_history_leaves_the_request_pending_witness :
  let E := env_of (answering good_response) in
  let w := world_with_a_number_statement in
  let s := requested_with None false in
  let e := AttributeError (lit "'int' object has no attribute 'get'") in
  in_memory memory_config
  /\ anthropic_client memory_config = true
  /\ build_history_text E (session_history w) = Raise e
  /\ new_round_requested s = true
  /\ preloaded_round s = None
  /\ exists w',
       background_step E memory_config s two_clients w
       = (Raise e, s, two_clients, w')
       /\ trigger_new_round s
          = (JObject [(lit "message",
                       JString (lit "New round generation already requested"))],
             202, s).
Proof.
  cbv zeta. split; [reflexivity|]. split; [reflexivity|].
  assert (Hb : build_history_text (env_of (answering good_response))
                 (session_history world_with_a_number_statement)
               = Raise (AttributeError
                          (lit "'int' object has no attribute 'get'")))
    by (vm_compute; reflexivity).
  split; [exact Hb|]. split; [reflexivity|]. split; [reflexivity|].
  apply (unrenderable_history_leaves_the_request_pending
           (env_of (answering good_response)) memory_config
           (requested_with None false) two_clients
           world_with_a_number_statement _ _ _
           eq_refl eq_refl eq_refl Hb eq_refl eq_refl).
Defined.

(** ** The event stream of a client *)

(** [game_stream] up to the creation of the response: the new queue of the
    client is registered under [client_id = id(queue)], and a round is
    requested unless one already is. *)
Definition game_stream (client_id : Z) (s : Sched)
  (message_queues : gmap Z (list str)) : Sched * gmap Z (list str) :=
  let queues' := <[client_id := []]> message_queues in
  if negb (new_round_requested s)
  then (set_new_round_requested true s, queues')
  else (s, queues').

(** The generator [stream()]: created, suspended at one of its [yield]s, or
    finished. *)
Inductive stream_state : Type :=
| StreamCreated
| StreamSuspended
| StreamFinished.

Definition connected_frame : str :=
  lit "data: {" ++ quoted "type" ++ lit ":" ++ quoted "connected" ++ lit ","
  ++ quoted "message" ++ lit ":" ++ quoted "Connection established"
  ++ lit "}" ++ nl ++ nl.

Definition keep_alive_frame : str := lit ": keep-alive" ++ nl ++ nl.

(** [next] on the generator. While the generator is suspended its queue is
    the one registered under [client_id]: [queue.get(timeout=20)] takes the
    oldest message, and with no message by the end of the timeout the
    generator yields the keep-alive comment. *)
Definition stream_next (client_id : Z) (st : stream_state)
  (message_queues : gmap Z (list str))
  : option str * stream_state * gmap Z (list str) :=
  match st with
  | StreamCreated => (Some connected_frame, StreamSuspended, message_queues)
  | StreamSuspended =>
      match message_queues !! client_id with
      | Some (msg :: rest) =>
          (Some msg, StreamSuspended, <[client_id := rest]> message_queues)
      | _ => (Some keep_alive_frame, StreamSuspended, message_queues)
      end
  | StreamFinished => (None, StreamFinished, message_queues)
  end.

(** [close] on the generator, when the client goes away: [GeneratorExit] is
    raised at the [yield] where the generator is suspended, and the [finally]
    clause removes the queue from the registry. A generator that never ran
    has not entered the [try]. *)
Definition stream_close (client_id : Z) (st : stream_state)
  (message_queues : gmap Z (list str)) : stream_state * gmap Z (list str) :=
  match st with
  | StreamSuspended => (StreamFinished, delete client_id message_queues)
  | _ => (StreamFinished, message_queues)
  end.

(** The first [n] frames the client reads. *)
Fixpoint stream_take (n : nat) (client_id : Z) (st : stream_state)
  (message_queues : gmap Z (list str))
  : list str * stream_state * gmap Z (list str) :=
  match n with
  | O => ([], st, message_queues)
  | S n' =>
      match stream_next client_id st message_queues with
      | (Some frame, st', queues') =>
          match stream_take n' client_id st' queues' with
          | (frames, st'', queues'') => (frame :: frames, st'', queues'')
          end
      | (None, st', queues') => ([], st', queues')
      end
  end.

(** Publishing a list of events, in order. *)
Fixpoint publish_all (E : Env) (events : list (str * json))
  (message_queues : gmap Z (list str)) : res (gmap Z (list str)) :=
  match events with
  | [] => Ok message_queues
  | (event_type, payload) :: rest =>
      res_bind (broadcast_message E event_type payload message_queues)
               (publish_all E rest)
  end.

(** The frame a queue receives for an event, when the event serialises. *)
Definition frame_of (E : Env) (event : str * json) : option str :=
  match message_data (fst event) (snd event) with
  | Ok data => sse_frame <$> json_dumps E data
  | Raise _ => None
  end.

Lemma broadcast_frame (E : Env) event_type payload frame
  (message_queues : gmap Z (list (list N))) :
  frame_of E (event_type, payload) = Some frame ->
  broadcast_message E event_type payload message_queues
  = Ok ((fun queue => queue ++ [frame]) <$> message_queues).
Proof.
  unfold frame_of, broadcast_message. cbn [fst snd].
  destruct (message_data event_type payload) as [data|]; [|discriminate].
  cbn [res_bind]. intros Hf. f_equal. apply map_fmap_ext.
  intros client queue _. unfold deliver.
  destruct (json_dumps E data); [|discriminate].
  injection Hf as <-. reflexivity.
Qed.

Lemma publish_all_frames (E : Env) events frames
  (message_queues : gmap Z (list (list N))) :
  Forall2 (fun event frame => frame_of E event = Some frame) events frames ->
  publish_all E events message_queues
  = Ok ((fun queue => queue ++ frames) <$> message_queues).
Proof.
  intros Hall. revert message_queues.
  induction Hall as [|[event_type payload] frame events frames Hf _ IH];
    intros message_queues.
  - cbn [publish_all]. f_equal. symmetry.
    rewrite <- (map_fmap_id message_queues) at 2.
    apply map_fmap_ext. intros ? queue _. apply app_nil_r.
  - cbn [publish_all]. rewrite (broadcast_frame E _ _ frame _ Hf).
    cbn [res_bind]. rewrite IH. f_equal.
    rewrite <- map_fmap_compose. apply map_fmap_ext.
    intros ? queue _. cbn. rewrite <- app_assoc. reflexivity.
Qed.

Lemma stream_take_queue client_id frames
  (message_queues : gmap Z (list (list N))) :
  message_queues !! client_id = Some frames ->
  stream_take (length frames) client_id StreamSuspended message_queues
  = (frames, StreamSuspended, <[client_id := []]> message_queues).
Proof.
  revert message_queues.
  induction frames as [|frame frames IH]; intros message_queues Hq.
  - cbn [length stream_take]. rewrite insert_id by exact Hq. reflexivity.
  - cbn [length stream_take stream_next]. rewrite Hq.
    rewrite IH by apply lookup_insert_eq.
    rewrite insert_insert_eq. reflexivity.
Qed.

Lemma stream_take_app n m client_id st
  (message_queues : gmap Z (list (list N))) frames st' queues' :
  stream_take n client_id st message_queues = (frames, st', queues') ->
  length frames = n ->
  stream_take (n + m) client_id st message_queues
  = (let '(more, st'', queues'') := stream_take m client_id st' queues' in
     (frames ++ more, st'', queues'')).
Proof.
  revert st message_queues frames.
  induction n as [|n IH]; intros st message_queues frames Hrun Hlen.
  - cbn in Hrun. injection Hrun as <- <- <-. cbn [Nat.add app].
    destruct (stream_take m client_id st message_queues) as [[? ?] ?].
    reflexivity.
  - cbn [Nat.add stream_take] in *.
    destruct (stream_next client_id st message_queues)
      as [[[frame|] st1] queues1].
    + destruct (stream_take n client_id st1 queues1)
        as [[frames1 st2] queues2] eqn:Hrest.
      injection Hrun as <- <- <-. cbn [length] in Hlen.
      rewrite (IH _ _ _ Hrest) by lia.
      destruct (stream_take m client_id st2 queues2) as [[? ?] ?].
      reflexivity.
    + injection Hrun as <- _ _. discriminate.
Qed.

(** A client connects and events are published: every event that serialises
    is put in the client's queue, and the stream yields the connection
    message first, then the frames of the events in the order in which they
    were published, then a keep-alive comment once the queue is empty.
    Connecting leaves a round requested. *)
Theorem events_are_received_in_publication_order (E : Env) (client_id : Z)
  (s : Sched) (message_queues : gmap Z (list (list N)))
  (events : list (list N * json)) (frames : list (list N)) :
  Forall2 (fun event frame => frame_of E event = Some frame) events frames ->
  new_round_requested (fst (game_stream client_id s message_queues)) = true
  /\ exists queues',
       publish_all E events (snd (game_stream client_id s message_queues))
       = Ok queues'
       /\ queues' !! client_id = Some frames
       /\ stream_take (1 + length frames + 1) client_id StreamCreated queues'
          = (connected_frame :: frames ++ [keep_alive_frame],
             StreamSuspended, <[client_id := []]> queues').
Proof.
  intros Hall. split.
  { unfold game_stream. destruct (new_round_requested s) eqn:Hflag;
      [exact Hflag|reflexivity]. }
  assert (Hq : snd (game_stream client_id s message_queues)
               = <[client_id := []]> message_queues).
  { unfold game_stream. destruct (negb (new_round_requested s)); reflexivity. }
  rewrite Hq, (publish_all_frames E events frames _ Hall).
  eexists. split; [reflexivity|].
  set (queues' := (fun queue => queue ++ frames)
                    <$> <[client_id := []]> message_queues).
  assert (Hc : queues' !! client_id = Some frames).
  { unfold queues'. rewrite lookup_fmap, lookup_insert_eq. reflexivity. }
  split; [exact Hc|].
  change (1 + length frames + 1)%nat with (S (length frames + 1)).
  cbn [stream_take stream_next].
  rewrite (stream_take_app _ _ _ _ _ _ _ _
             (stream_take_queue client_id frames queues' Hc) eq_refl).
  cbn [stream_take stream_next]. rewrite lookup_insert_eq. reflexivity.
Qed.

Definition two_events : list (list N * json) :=
  [(lit "new_round", good_document);
   (lit "error", JObject [(lit "message", JString (lit "Connection error."))])].

Lemma events_are_received_in_publication_order_witness :
  let E := env_of silent_model in
  let frames := [sse_frame (RefJson.dumps
                              (envelope (lit "new_round") good_document));
                 sse_frame (RefJson.dumps
                              (envelope (lit "error")
                                 (JObject [(lit "message",
                                            JString (lit "Connection error."))])))] in
  Forall2 (fun event frame => frame_of E event = Some frame) two_events frames
  /\ new_round_requested (fst (game_stream 140502 idle two_clients)) = true
  /\ exists queues',
       publish_all E two_events (snd (game_stream 140502 idle two_clients))
       = Ok queues'
       /\ queues' !! 140502 = Some frames
       /\ stream_take (1 + length frames + 1) 140502 StreamCreated queues'
          = (connected_frame :: frames ++ [keep_alive_frame],
             StreamSuspended, <[140502 := []]> queues').
Proof.
  cbv zeta.
  assert (Hall : Forall2
            (fun event frame => frame_of (env_of silent_model) event = Some frame)
            two_events
            [sse_frame (RefJson.dumps
                          (envelope (lit "new_round") good_document));
             sse_frame (RefJson.dumps
                          (envelope (lit "error")
                             (JObject [(lit "message",
                                        JString (lit "Connection error."))])))])
    by (repeat constructor).
  split; [exact Hall|].
  apply (events_are_received_in_publication_order (env_of silent_model)
           140502 idle two_clients two_events _ Hall).
Defined.

(** A client whose stream is closed after it started is removed from the
    registry: its stream yields nothing more, a later event is not put in
    its queue, and the other clients still receive the event. *)
Theorem a_closed_stream_is_unregistered (E : Env) (client_id : Z)
  (message_queues : gmap Z (list (list N))) (event_type : list N)
  (payload : json) (frame : list N) :
  frame_of E (event_type, payload) = Some frame ->
  let closed := stream_close client_id StreamSuspended message_queues in
  fst closed = StreamFinished
  /\ stream_next client_id (fst closed) (snd closed)
     = (None, StreamFinished, snd closed)
  /\ exists queues',
       broadcast_message E event_type payload (snd closed) = Ok queues'
       /\ queues' !! client_id = None
       /\ forall other queue,
            other <> client_id ->
            message_queues !! other = Some queue ->
            queues' !! other = Some (queue ++ [frame]).
Proof.
  intros Hf. cbv zeta. cbn [stream_close fst snd stream_next].
  split; [reflexivity|]. split; [reflexivity|].
  rewrite (broadcast_frame E _ _ frame _ Hf).
  eexists. split; [reflexivity|]. split.
  - rewrite lookup_fmap, lookup_delete_eq. reflexivity.
  - intros other queue Hne Hq.
    rewrite lookup_fmap, lookup_delete_ne by congruence.
    rewrite Hq. reflexivity.
Qed.

Lemma a_closed_stream_is_unregistered_witness :
  let E := env_of silent_model in
  let frame := sse_frame (RefJson.dumps
                            (envelope (lit "new_round") good_document)) in
  let closed := stream_close 140231 StreamSuspended two_clients in
  frame_of E (lit "new_round", good_document) = Some frame
  /\ fst closed = StreamFinished
  /\ stream_next 140231 (fst closed) (snd closed)
     = (None, StreamFinished, snd closed)
  /\ exists queues',
       broadcast_message E (lit "new_round") good_document (snd closed)
       = Ok queues'
       /\ queues' !! 140231 = None
       /\ forall other queue,
            other <> 140231 ->
            two_clients !! other = Some queue ->
            queues' !! other = Some (queue ++ [frame]).
Proof.
  cbv zeta. split; [reflexivity|].
  apply (a_closed_stream_is_unregistered (env_of silent_model) 140231
           two_clients (lit "new_round") good_document _ eq_refl).
Defined.

(** A client connects while a round is cached, and the loop runs one
    iteration: connecting requests a round, the iteration serves the cached
    round without running the generator, and the client's stream yields the
    connection message, then the frame of the round, then a keep-alive. *)
Theorem a_connecting_client_gets_the_cached_round (E : Env) (cfg : Config)
  (client_id : Z) (s : Sched) (message_queues : gmap Z (list (list N)))
  (w : World) (v : json) (json_data : list N) :
  preloaded_round s = Some v ->
  truthy E v = true -> is_error v = false ->
  json_dumps E (envelope (lit "new_round") v) = Some json_data ->
  let connected := game_stream client_id s message_queues in
  exists starts s' queues',
    background_step E cfg (fst connected) (snd connected) w
    = (Ok starts, s', queues', w)
    /\ new_round_requested s' = false
    /\ preloaded_round s' = None
    /\ stream_take 3 client_id StreamCreated queues'
       = ([connected_frame; sse_frame json_data; keep_alive_frame],
          StreamSuspended, <[client_id := []]> queues').
Proof.
  intros Hcache Htrue Herr Hdumps. cbv zeta.
  assert (Hs : new_round_requested
                 (fst (game_stream client_id s message_queues)) = true
               /\ preloaded_round
                    (fst (game_stream client_id s message_queues)) = Some v
               /\ snd (game_stream client_id s message_queues)
                  = <[client_id := []]> message_queues).
  { unfold game_stream. destruct (new_round_requested s) eqn:Hflag;
      cbn [negb fst snd new_round_requested preloaded_round
           set_new_round_requested]; auto. }
  destruct Hs as (Hflag & Hcache1 & ->).
  set (s1 := fst (game_stream client_id s message_queues)) in *.
  unfold background_step, take_preloaded.
  rewrite Hflag, Hcache1, Htrue, Herr, Htrue, broadcast_new_round.
  cbn [finish_request]. eexists _, _, _. split; [reflexivity|].
  split; [reflexivity|]. split; [reflexivity|].
  cbn [stream_take stream_next].
  rewrite lookup_fmap, lookup_insert_eq. cbn [fmap option_fmap option_map].
  unfold deliver at 1. rewrite Hdumps. cbn [app stream_take stream_next].
  rewrite lookup_insert_eq. reflexivity.
Qed.

Lemma a_connecting_client_gets_the_cached_round_witness :
  let E := env_of silent_model in
  let s := {| new_round_requested := false;
              preloaded_round := Some good_document;
              is_preloading := false |} in
  let json_data := RefJson.dumps (envelope (lit "new_round") good_document) in
  let connected := game_stream 140502 s two_clients in
  preloaded_round s = Some good_document
  /\ truthy E good_document = true /\ is_error good_document = false
  /\ json_dumps E (envelope (lit "new_round") good_document) = Some json_data
  /\ exists starts s' queues',
       background_step E memory_config (fst connected) (snd connected)
         initial_world = (Ok starts, s', queues', initial_world)
       /\ new_round_requested s' = false
       /\ preloaded_round s' = None
       /\ stream_take 3 140502 StreamCreated queues'
          = ([connected_frame; sse_frame json_data; keep_alive_frame],
             StreamSuspended, <[140502 := []]> queues').
Proof.
  cbv zeta. split; [reflexivity|]. split; [reflexivity|].
  split; [reflexivity|]. split; [reflexivity|].
  apply (a_connecting_client_gets_the_cached_round (env_of silent_model)
           memory_config 140502
           {| new_round_requested := false;
              preloaded_round := Some good_document;
              is_preloading := false |}
           two_clients initial_world good_document
           (RefJson.dumps (envelope (lit "new_round") good_document))
           eq_refl eq_refl eq_refl eq_refl).
Defined.

(** [trigger_new_round] answers 200 and sets the flag when no request is
    pending; while the request is pending a further call is answered 202
    and changes nothing; once an iteration of the loop has served the
    request the next call is answered 200 again, and if the iteration raised
    the answer stays 202. *)
Theorem triggers_are_coalesced (E : Env) (cfg : Config) (s : Sched)
  (message_queues : gmap Z (list (list N))) (w : World) :
  new_round_requested s = false ->
  let triggered := JObject [(lit "message",
                             JString (lit "New round generation triggered"))] in
  let pending := JObject [(lit "message",
                           JString (lit "New round generation already requested"))] in
  exists s1,
    trigger_new_round s = (triggered, 200, s1)
    /\ new_round_requested s1 = true
    /\ preloaded_round s1 = preloaded_round s
    /\ is_preloading s1 = is_preloading s
    /\ trigger_new_round s1 = (pending, 202, s1)
    /\ match background_step E cfg s1 message_queues w with
       | (Ok _, s2, _, _) =>
           trigger_new_round s2
           = (triggered, 200, set_new_round_requested true s2)
       | (Raise _, s2, _, _) => trigger_new_round s2 = (pending, 202, s2)
       end.
Proof.
  intros Hflag. cbv zeta. unfold trigger_new_round at 1. rewrite Hflag.
  cbn [negb]. eexists. split; [reflexivity|].
  split; [reflexivity|]. split; [reflexivity|]. split; [reflexivity|].
  split; [reflexivity|].
  pose proof (background_step_outcome E cfg (set_new_round_requested true s)
                message_queues w) as Hstep.
  destruct (background_step E cfg (set_new_round_requested true s)
              message_queues w) as [[[[starts|e] s2] queues2] w2].
  - cbn [new_round_requested set_new_round_requested] in Hstep.
    destruct Hstep as (_ & Hs2 & _).
    unfold trigger_new_round. rewrite Hs2. reflexivity.
  - cbn [new_round_requested set_new_round_requested] in Hstep.
    destruct Hstep as (_ & Hs2 & _).
    unfold trigger_new_round. rewrite Hs2. reflexivity.
Qed.

Lemma triggers_are_coalesced_witness :
  let triggered := JObject [(lit "message",
                             JString (lit "New round generation triggered"))] in
  let pending := JObject [(lit "message",
                           JString (lit "New round generation already requested"))] in
  new_round_requested idle = false
  /\ exists s1,
       trigger_new_round idle = (triggered, 200, s1)
       /\ new_round_requested s1 = true
       /\ preloaded_round s1 = preloaded_round idle
       /\ is_preloading s1 = is_preloading idle
       /\ trigger_new_round s1 = (pending, 202, s1)
       /\ match background_step (env_of silent_model) memory_config s1
                  two_clients initial_world with
          | (Ok _, s2, _, _) =>
              trigger_new_round s2
              = (triggered, 200, set_new_round_requested true s2)
          | (Raise _, s2, _, _) => trigger_new_round s2 = (pending, 202, s2)
          end.
Proof.
  cbv zeta. split; [reflexivity|].
  apply (triggers_are_coalesced (env_of silent_model) memory_config idle
           two_clients initial_world eq_refl).
Defined.

(** ** Preloading and serving *)

(** An idle scheduler preloads a round and a request follows: the preload
    runs the generator once and caches the round; the request is then served
    from the cache without running the generator again, the world is the one
    the preload left, and the iteration starts the next preload. *)
Theorem a_preloaded_round_is_served_on_the_next_request (E : Env)
  (cfg : Config) (s : Sched) (message_queues : gmap Z (list (list N)))
  (w w1 : World) (v : json) :
  new_round_requested s = false ->
  is_preloading s = false -> preloaded_round s = None ->
  generate_new_round E cfg w = (Ok v, w1) ->
  is_error v = false -> truthy E v = true ->
  exists s1,
    preload_next_round E cfg s w = (Ok tt, s1, w1)
    /\ preloaded_round s1 = Some v
    /\ is_preloading s1 = false
    /\ background_step E cfg (snd (trigger_new_round s1)) message_queues w1
       = (Ok true, s,
          deliver E (envelope (lit "new_round") v) <$> message_queues, w1).
Proof.
  intros Hflag Hpre Hcache Hgen Herr Htrue.
  destruct s as [r c p].
  cbn [new_round_requested is_preloading preloaded_round] in Hflag, Hpre,
    Hcache.
  subst r c p.
  unfold preload_next_round, preload_enter.
  cbn [is_preloading preloaded_round orb].
  rewrite bool_decide_eq_false_2 by (intros [? ?]; discriminate).
  rewrite Hgen. unfold preload_store. rewrite Herr, Htrue.
  eexists. split; [reflexivity|].
  split; [reflexivity|]. split; [reflexivity|].
  unfold trigger_new_round, preload_finally, set_is_preloading,
    set_preloaded_round, set_new_round_requested.
  cbn [new_round_requested preloaded_round is_preloading negb snd].
  unfold background_step, take_preloaded.
  cbn [new_round_requested preloaded_round is_preloading].
  rewrite Htrue, Herr, Htrue, broadcast_new_round.
  unfold finish_request, set_preloaded_round, set_new_round_requested.
  cbn [new_round_requested preloaded_round is_preloading negb andb].
  rewrite bool_decide_eq_true_2 by reflexivity.
  reflexivity.
Qed.

Lemma a_preloaded_round_is_served_on_the_next_request_witness :
  let E := env_of (answering good_response) in
  let w1 := snd (generate_new_round E memory_config initial_world) in
  new_round_requested idle = false
  /\ is_preloading idle = false /\ preloaded_round idle = None
  /\ generate_new_round E memory_config initial_world = (Ok good_document, w1)
  /\ is_error good_document = false /\ truthy E good_document = true
  /\ exists s1,
       preload_next_round E memory_config idle initial_world = (Ok tt, s1, w1)
       /\ preloaded_round s1 = Some good_document
       /\ is_preloading s1 = false
       /\ background_step E memory_config (snd (trigger_new_round s1))
            two_clients w1
          = (Ok true, idle,
             deliver E (envelope (lit "new_round") good_document)
               <$> two_clients, w1).
Proof.
  cbv zeta.
  assert (Hgen : generate_new_round (env_of (answering good_response))
                   memory_config initial_world
                 = (Ok good_document,
                    snd (generate_new_round (env_of (answering good_response))
                           memory_config initial_world)))
    by (vm_compute; reflexivity).
  split; [reflexivity|]. split; [reflexivity|]. split; [reflexivity|].
  split; [exact Hgen|]. split; [reflexivity|]. split; [reflexivity|].
  apply (a_preloaded_round_is_served_on_the_next_request
           (env_of (answering good_response)) memory_config idle two_clients
           initial_world _ good_document
           eq_refl eq_refl eq_refl Hgen eq_refl eq_refl).
Defined.

(** ** Stored documents that do not decode *)

(** With Redis and no failing command, a stored document that [json.loads]
    rejects is skipped by the read: the rounds are the decoded documents
    before it followed by those after it, while [round_count] is still the
    stored counter. *)
Theorem undecodable_documents_are_skipped (E : Env) (cfg : Config)
  (session_id : str) (w : World) (before after : list (list N))
  (bad msg : list N) :
  no_faults E -> persisted cfg ->
  stored_docs (redis w) session_id = before ++ bad :: after ->
  (length (before ++ bad :: after) <= 100)%nat ->
  json_loads E bad = inr msg ->
  exists h w',
    get_session_history E cfg session_id w = (Ok h, w')
    /\ round_count h = stored_count (redis w) session_id
    /\ rounds h = decode_rounds E before ++ decode_rounds E after
    /\ (length (rounds h) < length (stored_docs (redis w) session_id))%nat.
Proof.
  intros Hnf Hp Hdocs Hlen Hbad.
  destruct (get_persisted E cfg session_id w Hnf Hp) as (w' & Hget & _).
  eexists _, w'. split; [exact Hget|]. cbn [round_count rounds].
  split; [reflexivity|].
  rewrite Hdocs, take_ge by exact Hlen.
  assert (Hr : decode_rounds E (before ++ bad :: after)
               = decode_rounds E before ++ decode_rounds E after).
  { unfold decode_rounds. rewrite omap_app. cbn [omap list_omap].
    rewrite Hbad. reflexivity. }
  split; [exact Hr|]. rewrite Hr.
  assert (Hle : forall docs, (length (decode_rounds E docs) <= length docs)%nat).
  { intros docs. induction docs as [|d docs IH]; [cbn; lia|].
    unfold decode_rounds in *. cbn [omap list_omap].
    destruct (json_loads E d); cbn [length]; lia. }
  rewrite !length_app. cbn [length].
  pose proof (Hle before). pose proof (Hle after). lia.
Qed.

Definition world_with_a_broken_document : World :=
  set_redis
    {| hashes := {[ REDIS_SESSION_PREFIX ++ session_a := 3 ]};
       lists := {[ REDIS_STATEMENT_PREFIX ++ session_a :=
                     [RefJson.dumps (round_of "r03"); lit "{broken";
                      RefJson.dumps (round_of "r01")] ]} |}
    initial_world.

Lemma undecodable_documents_are_skipped_witness :
  let E := env_of silent_model in
  let w := world_with_a_broken_document in
  let before := [RefJson.dumps (round_of "r03")] in
  let after := [RefJson.dumps (round_of "r01")] in
  no_faults E /\ persisted redis_config
  /\ stored_docs (redis w) session_a = before ++ lit "{broken" :: after
  /\ (length (before ++ lit "{broken" :: after) <= 100)%nat
  /\ (exists msg, json_loads E (lit "{broken") = inr msg)
  /\ exists h w',
       get_session_history E redis_config session_a w = (Ok h, w')
       /\ round_count h = stored_count (redis w) session_a
       /\ rounds h = decode_rounds E before ++ decode_rounds E after
       /\ (length (rounds h) < length (stored_docs (redis w) session_a))%nat.
Proof.
  cbv zeta.
  assert (Hnf : no_faults (env_of silent_model)) by (intros n; reflexivity).
  assert (Hdocs : stored_docs (redis world_with_a_broken_document) session_a
                  = [RefJson.dumps (round_of "r03")]
                    ++ lit "{broken" :: [RefJson.dumps (round_of "r01")])
    by (vm_compute; reflexivity).
  assert (Hlen : (length ([RefJson.dumps (round_of "r03")]
                          ++ lit "{broken" :: [RefJson.dumps (round_of "r01")])
                  <= 100)%nat) by (cbn; lia).
  split; [exact Hnf|]. split; [reflexivity|]. split; [exact Hdocs|].
  split; [exact Hlen|].
  split; [eexists; vm_compute; reflexivity|].
  apply (undecodable_documents_are_skipped (env_of silent_model) redis_config
           session_a world_with_a_broken_document _ _ _
           (match json_loads (env_of silent_model) (lit "{broken") with
            | inr m => m
            | inl _ => []
            end) Hnf eq_refl Hdocs Hlen).
  vm_compute. reflexivity.
Defined.

(** ** The prompt log *)

(** The list stored under [key] is as it was. *)
Definition key_kept (key : list N) (w w' : World) : Prop :=
  lists (redis w') !! key = lists (redis w) !! key.

Lemma key_kept_trans key a b c :
  key_kept key a b -> key_kept key b c -> key_kept key a c.
Proof. unfold key_kept. congruence. Qed.

Lemma statements_key_is_no_log_key (a b : list N) :
  REDIS_STATEMENT_PREFIX ++ a <> REDIS_SESSION_PREFIX ++ b.
Proof. intros H. vm_compute in H. discriminate H. Qed.

Lemma responses_key_is_not_prompts_key (sid : list N) :
  REDIS_SESSION_PREFIX ++ sid ++ lit ":responses"
  <> REDIS_SESSION_PREFIX ++ sid ++ lit ":prompts".
Proof.
  intros H. apply app_inv_head in H. apply app_inv_head in H.
  vm_compute in H. discriminate H.
Qed.

Ltac keeps_key key :=
  repeat first
    [ apply preserves_ret; reflexivity
    | apply preserves_raise; reflexivity
    | apply preserves_lift; reflexivity
    | eapply (preserves_bind (key_kept key) (key_kept key) (key_kept key));
      [apply key_kept_trans|auto| |intros ?]
    | eapply (preserves_try (key_kept key) (key_kept key) (key_kept key));
      [apply key_kept_trans|auto| |intros ?] ].

Section LogKeys.
Context (E : Env) (cfg : Config) (key : list N).

Lemma redis_cmd_key {A} (f : Redis -> A * Redis) :
  (forall r, lists (snd (f r)) !! key = lists r !! key) ->
  preserves (key_kept key) (redis_cmd E f).
Proof.
  intros Hf w r w'. rewrite redis_cmd_run.
  destruct (redis_fault E (redis_calls w)); intros [= _ <-];
    [reflexivity|apply Hf].
Qed.

Lemma hashes_cmd_key {A} (f : Redis -> A * gmap (list N) Z) :
  preserves (key_kept key)
    (redis_cmd E (fun r => (fst (f r), with_hashes (snd (f r)) r))).
Proof. apply redis_cmd_key. reflexivity. Qed.

Lemma read_cmd_key {A} (f : Redis -> A) :
  preserves (key_kept key) (redis_cmd E (fun r => (f r, r))).
Proof. apply redis_cmd_key. reflexivity. Qed.

Lemma lpush_key k v : k <> key -> preserves (key_kept key) (lpush E k v).
Proof.
  intros Hne. apply redis_cmd_key. intros r. cbn [snd lists with_lists].
  apply lookup_insert_ne. exact Hne.
Qed.

Lemma ltrim_key k start stop :
  k <> key -> preserves (key_kept key) (ltrim E k start stop).
Proof.
  intros Hne. apply redis_cmd_key. intros r. cbn [snd lists with_lists].
  destruct (take _ _);
    [apply lookup_delete_ne|apply lookup_insert_ne]; exact Hne.
Qed.

Lemma dumps_key v : preserves (key_kept key) (dumps E v).
Proof. unfold dumps. destruct (json_dumps E v); keeps_key key. Qed.

Lemma get_session_id_key : preserves (key_kept key) (get_session_id E).
Proof.
  intros w r w'. unfold get_session_id.
  destruct (current_session_id w) as [[|? ?]|]; intros [= _ <-]; reflexivity.
Qed.

Lemma get_session_history_key sid :
  preserves (key_kept key) (get_session_history E cfg sid).
Proof.
  unfold get_session_history, hgetall, hset, expire, lrange.
  destruct (redis_client cfg); cbn [negb].
  2: { intros w r w' [= _ <-]. reflexivity. }
  eapply (preserves_try (key_kept key) (key_kept key) (key_kept key));
    [apply key_kept_trans|auto| |intros _ w r w' [= _ <-]; reflexivity].
  eapply (preserves_bind (key_kept key) (key_kept key) (key_kept key));
    [apply key_kept_trans|auto|apply read_cmd_key|intros data].
  eapply (preserves_bind (key_kept key) (key_kept key) (key_kept key));
    [apply key_kept_trans|auto| |intros count].
  - destruct data; keeps_key key; apply redis_cmd_key; reflexivity.
  - keeps_key key. apply read_cmd_key.
Qed.

Lemma update_session_history_key sid v :
  REDIS_STATEMENT_PREFIX ++ sid <> key ->
  preserves (key_kept key) (update_session_history E cfg sid v).
Proof.
  intros Hne. unfold update_session_history, update_memory, modify.
  destruct (redis_client cfg); cbn [negb].
  2: { intros w r w' [= _ <-]. reflexivity. }
  unfold hincrby, expire, llen.
  eapply (preserves_try (key_kept key) (key_kept key) (key_kept key));
    [apply key_kept_trans|auto| |intros _ w r w' [= _ <-]; reflexivity].
  keeps_key key;
    first [apply lpush_key; exact Hne | apply ltrim_key; exact Hne
          |apply dumps_key | apply redis_cmd_key; reflexivity].
Qed.

Lemma read_clock_key : preserves (key_kept key) (read_clock E).
Proof. intros w r w' [= _ <-]. reflexivity. Qed.

Lemma store_log_key k entry :
  k <> key -> preserves (key_kept key) (store_log E cfg k entry).
Proof.
  intros Hne. unfold store_log, expire.
  destruct (redis_client cfg); keeps_key key;
    first [apply lpush_key; exact Hne | apply ltrim_key; exact Hne
          |apply dumps_key | apply redis_cmd_key; reflexivity].
Qed.

Lemma process_response_key response_text :
  (forall sid, REDIS_STATEMENT_PREFIX ++ sid <> key) ->
  preserves (key_kept key) (process_response E cfg response_text).
Proof.
  intros Hne. unfold process_response, llen, loads.
  eapply (preserves_try (key_kept key) (key_kept key) (key_kept key));
    [apply key_kept_trans|auto| |intros e; destruct e; keeps_key key].
  eapply (preserves_bind (key_kept key) (key_kept key) (key_kept key));
    [apply key_kept_trans|auto| |intros round_data].
  { destruct (json_loads E _); keeps_key key. }
  eapply (preserves_bind (key_kept key) (key_kept key) (key_kept key));
    [apply key_kept_trans|auto|keeps_key key|intros statements].
  eapply (preserves_bind (key_kept key) (key_kept key) (key_kept key));
    [apply key_kept_trans|auto|apply get_session_id_key|intros sid].
  eapply (preserves_bind (key_kept key) (key_kept key) (key_kept key));
    [apply key_kept_trans|auto
    |apply update_session_history_key, Hne|intros _].
  eapply (preserves_bind (key_kept key) (key_kept key) (key_kept key));
    [apply key_kept_trans|auto|keeps_key key|intros _].
  eapply (preserves_bind (key_kept key) (key_kept key) (key_kept key));
    [apply key_kept_trans|auto| |intros _; keeps_key key].
  destruct (redis_client cfg); keeps_key key. apply read_cmd_key.
Qed.

End LogKeys.

Section PromptLog.
Context (E : Env) (cfg : Config).

Lemma store_log_pushes key entry d w :
  no_faults E -> persisted cfg -> json_dumps E entry = Some d ->
  exists w',
    store_log E cfg key entry w = (Ok tt, w')
    /\ list_at (redis w') key = take 100 (d :: list_at (redis w) key)
    /\ llm_calls w' = llm_calls w
    /\ clock_reads w' = clock_reads w.
Proof.
  intros Hnf Hp Hd. unfold persisted in Hp.
  unfold store_log, dumps, lpush, ltrim, expire. rewrite Hp, Hd.
  run_cmds Hnf. eexists. split; [reflexivity|].
  cbn [redis set_redis set_redis_calls llm_calls clock_reads].
  split; [|split; reflexivity].
  unfold list_at. cbn [hashes lists with_hashes with_lists].
  rewrite !lookup_insert_eq.
  change (Z.to_nat (REDIS_MAX_HISTORY - 1 + 1 - 0)) with 100%nat.
  change (Z.to_nat 0) with 0%nat. rewrite drop_0.
  cbv [default from_option id]. cbn [take].
  rewrite lookup_insert_eq. reflexivity.
Qed.

(** What follows the model's answer in [request_round]. *)
Lemma response_handling_key key sid round_number response_text :
  REDIS_SESSION_PREFIX ++ sid ++ lit ":responses" <> key ->
  (forall sid', REDIS_STATEMENT_PREFIX ++ sid' <> key) ->
  preserves (key_kept key)
    (t2 <- read_clock E ;;
     store_log E cfg (REDIS_SESSION_PREFIX ++ sid ++ lit ":responses")
       (response_log round_number response_text t2) ;;;
     process_response E cfg response_text).
Proof.
  intros Hr Hs.
  eapply (preserves_bind (key_kept key) (key_kept key) (key_kept key));
    [apply key_kept_trans|auto|apply read_clock_key|intros t2].
  eapply (preserves_bind (key_kept key) (key_kept key) (key_kept key));
    [apply key_kept_trans|auto|apply store_log_key, Hr|intros _].
  apply process_response_key, Hs.
Qed.

Lemma response_handling_calls sid round_number response_text :
  preserves calls_kept
    (t2 <- read_clock E ;;
     store_log E cfg (REDIS_SESSION_PREFIX ++ sid ++ lit ":responses")
       (response_log round_number response_text t2) ;;;
     process_response E cfg response_text).
Proof.
  eapply (preserves_bind calls_kept calls_kept calls_kept);
    [apply calls_kept_trans|auto|apply read_clock_calls|intros t2].
  eapply (preserves_bind calls_kept calls_kept calls_kept);
    [apply calls_kept_trans|auto|apply store_log_calls|intros _].
  apply process_response_calls.
Qed.

Lemma request_round_logs_the_prompt sid prompt history_text round_number d w :
  no_faults E -> persisted cfg ->
  let full := prompt_to_send prompt history_text round_number in
  let prompts_key := REDIS_SESSION_PREFIX ++ sid ++ lit ":prompts" in
  json_dumps E (prompt_log round_number prompt history_text full
                  (now E (clock_reads w))) = Some d ->
  exists v w',
    request_round E cfg sid prompt history_text round_number w = (Ok v, w')
    /\ list_at (redis w') prompts_key
       = take 100 (d :: list_at (redis w) prompts_key)
    /\ llm_calls w' = llm_calls w ++ [full].
Proof.
  intros Hnf Hp full prompts_key Hd.
  unfold request_round, try_except. fold full.
  unfold bind at 1. unfold read_clock at 1.
  unfold bind at 1.
  destruct (store_log_pushes prompts_key _ d
              (set_clock_reads (S (clock_reads w)) w) Hnf Hp Hd)
    as (w1 & Hlog & Hlist & Hcalls & _).
  fold prompts_key. rewrite Hlog.
  unfold bind at 1. unfold call_model at 1. rewrite Hcalls.
  cbn [llm_calls set_clock_reads].
  destruct (llm E (length (llm_calls w)) full) as [response_text|e].
  - match goal with
    | |- context [bind (read_clock E) ?k ?w0] =>
        destruct (bind (read_clock E) k w0) as [[v|e] w2] eqn:Hrest
    end;
      (pose proof (response_handling_key prompts_key sid round_number
                     response_text
                     (responses_key_is_not_prompts_key sid)
                     (fun sid' => statements_key_is_no_log_key sid' _)
                     _ _ _ Hrest) as Hkey;
       pose proof (response_handling_calls sid round_number response_text
                     _ _ _ Hrest) as Hc;
       unfold key_kept in Hkey; unfold calls_kept in Hc;
       cbn [redis llm_calls set_llm_calls] in Hkey, Hc;
       eexists _, w2; split; [reflexivity|];
       split; [unfold list_at in *; rewrite Hkey; exact Hlist|exact Hc]).
  - eexists _, _. split; [reflexivity|]. split; [exact Hlist|reflexivity].
Qed.

End PromptLog.

(** With Redis and no failing command, a generation whose preconditions
    hold and whose history renders records its prompt before it asks the
    model: whatever follows (a round, a response that does not parse, a
    failing model call), the generation returns, the model was asked once
    with the prompt of the round, and the log entry of that prompt (round
    number, base prompt, history context, full prompt, easter-egg flag,
    timestamp) is the first of the session's prompt log, which keeps at
    most a hundred entries. *)
Theorem the_prompt_is_logged_whatever_follows (E : Env) (cfg : Config)
  (w : World) (c p : N) (s prompt history_text d : list N) :
  no_faults E -> persisted cfg ->
  anthropic_client cfg = true ->
  claude_prompt cfg = Some (p :: prompt) ->
  current_session_id w = Some (c :: s) ->
  let session_id := c :: s in
  let history :=
    {| round_count := stored_count (redis w) session_id;
       rounds := decode_rounds E (take 100 (stored_docs (redis w) session_id))
    |} in
  build_history_text E history = Ok history_text ->
  let round_number := round_count history + 1 in
  let full := prompt_to_send (p :: prompt) history_text round_number in
  let prompts_key := REDIS_SESSION_PREFIX ++ session_id ++ lit ":prompts" in
  json_dumps E (prompt_log round_number (p :: prompt) history_text full
                  (now E (clock_reads w))) = Some d ->
  exists v w',
    generate_new_round E cfg w = (Ok v, w')
    /\ list_at (redis w') prompts_key
       = take 100 (d :: list_at (redis w) prompts_key)
    /\ llm_calls w' = llm_calls w ++ [full].
Proof.
  intros Hnf Hp Hc Hprompt Hsid session_id history Hb round_number full
    prompts_key Hd.
  unfold generate_new_round. rewrite Hc, Hprompt. cbn [negb].
  unfold bind at 1. rewrite (get_session_id_known E c s w Hsid).
  unfold bind at 1.
  destruct (get_persisted E cfg session_id w Hnf Hp) as (w1 & Hget & _).
  fold session_id. rewrite Hget.
  pose proof (get_session_history_kept E cfg session_id _ _ _ Hget)
    as (_ & _ & _ & Hcalls & Hclock).
  pose proof (get_session_history_key E cfg prompts_key session_id _ _ _ Hget)
    as Hkey.
  unfold bind at 1, lift. fold history. rewrite Hb.
  fold round_number.
  rewrite <- Hclock in Hd.
  destruct (request_round_logs_the_prompt E cfg session_id (p :: prompt)
              history_text round_number d w1 Hnf Hp Hd)
    as (v & w' & Hrun & Hlist & Hl).
  exists v, w'. split; [exact Hrun|]. split.
  - unfold key_kept in Hkey. subst prompts_key. unfold list_at in *.
    rewrite <- Hkey. exact Hlist.
  - rewrite Hl, Hcalls. reflexivity.
Qed.

Lemma the_prompt_is_logged_whatever_follows_witness :
  let E := env_of silent_model in
  let w := set_session_id (Some session_a) 1 initial_world in
  let prompt := lit "Write two truths and a lie as JSON." in
  let history :=
    {| round_count := stored_count (redis w) session_a;
       rounds := decode_rounds E (take 100 (stored_docs (redis w) session_a))
    |} in
  let round_number := round_count history + 1 in
  let full := prompt_to_send prompt [] round_number in
  let prompts_key := REDIS_SESSION_PREFIX ++ session_a ++ lit ":prompts" in
  let d := RefJson.dumps (prompt_log round_number prompt [] full
                            (now E (clock_reads w))) in
  no_faults E /\ persisted redis_config
  /\ build_history_text E history = Ok []
  /\ exists v w',
       generate_new_round E redis_config w = (Ok v, w')
       /\ list_at (redis w') prompts_key
          = take 100 (d :: list_at (redis w) prompts_key)
       /\ llm_calls w' = llm_calls w ++ [full].
Proof.
  cbv zeta.
  assert (Hnf : no_faults (env_of silent_model)) by (intros n; reflexivity).
  split; [exact Hnf|]. split; [reflexivity|]. split; [reflexivity|].
  apply (the_prompt_is_logged_whatever_follows (env_of silent_model)
           redis_config (set_session_id (Some session_a) 1 initial_world)
           51%N 87%N (tail session_a)
           (lit "rite two truths and a lie as JSON.") [] _
           Hnf eq_refl eq_refl eq_refl eq_refl eq_refl eq_refl).
Defined.

(** ** A round that is handed out was recorded *)

Section RoundsAreRecorded.
Context (E : Env) (cfg : Config).

Lemma read_clock_history w t w' :
  read_clock E w = (Ok t, w') -> session_history w' = session_history w.
Proof. intros [= _ <-]. reflexivity. Qed.

Lemma call_model_history prompt w r w' :
  call_model E prompt w = (r, w') -> session_history w' = session_history w.
Proof.
  unfold call_model.
  destruct (llm E (length (llm_calls w)) prompt); intros [= _ <-]; reflexivity.
Qed.

Lemma store_log_in_memory key entry w :
  in_memory cfg -> store_log E cfg key entry w = (Ok tt, w).
Proof. unfold in_memory, store_log. intros ->. reflexivity. Qed.

Lemma process_response_records response_text w v w' :
  in_memory cfg ->
  process_response E cfg response_text w = (Ok v, w') ->
  is_error v = false ->
  exists statements,
    statements_of v = Ok statements
    /\ session_history w' = memory_append statements (session_history w).
Proof.
  intros Hm Hrun Hne. unfold process_response in Hrun.
  apply try_except_Ok_inv in Hrun as [Hrun|(e & w1 & _ & Hh)].
  2: { destruct e; try discriminate. injection Hh as <- _.
       rewrite is_error_error_result in Hne. discriminate. }
  apply bind_Ok_inv in Hrun as (round_data & w1 & Hloads & Hrun).
  assert (w1 = w) as ->.
  { unfold loads in Hloads. destruct (json_loads E _); [|discriminate].
    injection Hloads as _ <-. reflexivity. }
  apply bind_Ok_inv in Hrun as (statements & w2 & Hst & Hrun).
  unfold lift in Hst. injection Hst as Hst <-.
  apply bind_Ok_inv in Hrun as (sid & w3 & Hid & Hrun).
  apply get_session_id_frame in Hid as [Hh3 _].
  apply bind_Ok_inv in Hrun as (u & w4 & Hup & Hrun).
  rewrite (update_in_memory E cfg _ _ _ Hm) in Hup. injection Hup as _ <-.
  apply bind_Ok_inv in Hrun as (u1 & w5 & Hlog & Hrun).
  unfold lift in Hlog. injection Hlog as _ <-.
  apply bind_Ok_inv in Hrun as (u2 & w6 & Hlen & Hrun).
  unfold in_memory in Hm. rewrite Hm in Hlen. injection Hlen as _ <-.
  injection Hrun as <- <-.
  exists statements. split; [exact Hst|].
  cbn [session_history set_session_history]. rewrite Hh3. reflexivity.
Qed.

Lemma generate_new_round_records w v w' :
  in_memory cfg ->
  generate_new_round E cfg w = (Ok v, w') ->
  is_error v = false ->
  exists statements,
    statements_of v = Ok statements
    /\ session_history w' = memory_append statements (session_history w).
Proof.
  intros Hm Hrun Hne. unfold generate_new_round in Hrun.
  destruct (anthropic_client cfg); cbn [negb] in Hrun.
  2: { injection Hrun as <- _. discriminate. }
  destruct (claude_prompt cfg) as [[|c prompt]|].
  1, 3: injection Hrun as <- _; discriminate.
  apply bind_Ok_inv in Hrun as (sid & w1 & Hid & Hrun).
  apply get_session_id_frame in Hid as [Hh1 _].
  apply bind_Ok_inv in Hrun as (h & w2 & Hget & Hrun).
  rewrite (get_in_memory E cfg _ _ Hm) in Hget. injection Hget as _ <-.
  apply bind_Ok_inv in Hrun as (history_text & w3 & Hlift & Hrun).
  unfold lift in Hlift. injection Hlift as _ <-.
  unfold request_round in Hrun.
  apply try_except_Ok_inv in Hrun as [Hrun|(e & wx & _ & Hh)].
  2: { injection Hh as <- _. rewrite is_error_api_error in Hne.
       discriminate. }
  apply bind_Ok_inv in Hrun as (t1 & w4 & Hc1 & Hrun).
  apply read_clock_history in Hc1.
  apply bind_Ok_inv in Hrun as (u1 & w5 & Hs1 & Hrun).
  rewrite (store_log_in_memory _ _ _ Hm) in Hs1. injection Hs1 as _ <-.
  apply bind_Ok_inv in Hrun as (response_text & w6 & Hcall & Hrun).
  apply call_model_history in Hcall.
  apply bind_Ok_inv in Hrun as (t2 & w7 & Hc2 & Hrun).
  apply read_clock_history in Hc2.
  apply bind_Ok_inv in Hrun as (u2 & w8 & Hs2 & Hrun).
  rewrite (store_log_in_memory _ _ _ Hm) in Hs2. injection Hs2 as _ <-.
  destruct (process_response_records _ _ _ _ Hm Hrun Hne)
    as (statements & Hst & Hhist).
  exists statements. split; [exact Hst|]. congruence.
Qed.

End RoundsAreRecorded.

(** With the in-memory fallback, every round that [generate_new_round]
    returns (a result that is not an error object) was appended to the
    history exactly once, as the value of its [statements] key, or as the
    empty list when the key is absent, and counted. *)
Theorem a_returned_round_was_recorded_once (E : Env) (cfg : Config)
  (w : World) (v : json) (w' : World) :
  in_memory cfg ->
  generate_new_round E cfg w = (Ok v, w') ->
  is_error v = false ->
  exists statements,
    statements_of v = Ok statements
    /\ rounds (session_history w')
       = rounds (memory_append statements (session_history w))
    /\ round_count (session_history w') = round_count (session_history w) + 1.
Proof.
  intros Hm Hrun Hne.
  destruct (generate_new_round_records E cfg w v w' Hm Hrun Hne)
    as (statements & Hst & Hh).
  exists statements. rewrite Hh. auto.
Qed.

Lemma a_returned_round_was_recorded_once_witness :
  let E := env_of (answering good_response) in
  let w' := snd (generate_new_round E memory_config initial_world) in
  in_memory memory_config
  /\ generate_new_round E memory_config initial_world = (Ok good_document, w')
  /\ is_error good_document = false
  /\ exists statements,
       statements_of good_document = Ok statements
       /\ rounds (session_history w')
          = rounds (memory_append statements (session_history initial_world))
       /\ round_count (session_history w')
          = round_count (session_history initial_world) + 1.
Proof.
  cbv zeta.
  assert (Hrun : generate_new_round (env_of (answering good_response))
                   memory_config initial_world
                 = (Ok good_document,
                    snd (generate_new_round (env_of (answering good_response))
                           memory_config initial_world)))
    by (vm_compute; reflexivity).
  split; [reflexivity|]. split; [exact Hrun|]. split; [reflexivity|].
  apply (a_returned_round_was_recorded_once
           (env_of (answering good_response)) memory_config initial_world
           good_document _ eq_refl Hrun eq_refl).
Defined.

(** ** The prompt that reaches the model *)

Section PromptSent.
Context (E : Env) (cfg : Config).

Lemma get_session_id_returns w :
  exists session_id w1,
    get_session_id E w = (Ok session_id, w1)
    /\ llm_calls w1 = llm_calls w
    /\ session_history w1 = session_history w
    /\ redis w1 = redis w.
Proof.
  unfold get_session_id.
  destruct (current_session_id w) as [[|c s]|]; eexists _, _;
    (split; [reflexivity|]; repeat split).
Qed.

Lemma store_log_returns key entry w :
  exists w',
    store_log E cfg key entry w = (Ok tt, w') /\ llm_calls w' = llm_calls w.
Proof.
  pose proof (store_log_calls E cfg key entry w) as Hcalls.
  destruct (store_log E cfg key entry w) as [[[]|e] w'] eqn:Hrun.
  - exists w'. split; [reflexivity|]. eapply Hcalls. reflexivity.
  - exfalso. unfold store_log in Hrun.
    destruct (redis_client cfg); [|discriminate].
    unfold try_except in Hrun.
    match type of Hrun with
    | (let (_, _) := ?m in _) = _ => destruct m as [[?|?] ?]
    end; discriminate.
Qed.

(** [request_round] always returns, and asks the model exactly once, with
    the prompt built from its arguments. *)
Lemma request_round_asks_once sid prompt history_text round_number w :
  exists v w',
    request_round E cfg sid prompt history_text round_number w = (Ok v, w')
    /\ llm_calls w'
       = llm_calls w ++ [prompt_to_send prompt history_text round_number].
Proof.
  unfold request_round, try_except.
  unfold bind at 1. unfold read_clock at 1.
  unfold bind at 1.
  destruct (store_log_returns
              (REDIS_SESSION_PREFIX ++ sid ++ lit ":prompts")
              (prompt_log round_number prompt history_text
                 (prompt_to_send prompt history_text round_number)
                 (now E (clock_reads w)))
              (set_clock_reads (S (clock_reads w)) w))
    as (w1 & Hlog & Hcalls).
  rewrite Hlog.
  unfold bind at 1. unfold call_model at 1. rewrite Hcalls.
  cbn [llm_calls set_clock_reads].
  destruct (llm E (length (llm_calls w))
              (prompt_to_send prompt history_text round_number))
    as [response_text|e].
  - match goal with
    | |- context [bind (read_clock E) ?k ?w0] =>
        destruct (bind (read_clock E) k w0) as [[v|e] w2] eqn:Hrest
    end;
      (pose proof (response_handling_calls E cfg sid round_number
                     response_text _ _ _ Hrest) as Hc;
       unfold calls_kept in Hc; cbn [llm_calls set_llm_calls] in Hc;
       eexists _, w2; split; [reflexivity|exact Hc]).
  - eexists _, _. split; reflexivity.
Qed.

(** The generator with both preconditions met: it reads the session's
    history; when the history renders it returns, having asked the model
    once with the prompt of round [round_count + 1]; when the rendering
    raises, the exception leaves the generator and the model is not asked. *)
Lemma generate_sends_the_prompt w p prompt :
  anthropic_client cfg = true ->
  claude_prompt cfg = Some (p :: prompt) ->
  exists session_id w1 history w2,
    get_session_id E w = (Ok session_id, w1)
    /\ get_session_history E cfg session_id w1 = (Ok history, w2)
    /\ session_history w1 = session_history w
    /\ redis w1 = redis w
    /\ match build_history_text E history with
       | Ok history_text =>
           exists v w',
             generate_new_round E cfg w = (Ok v, w')
             /\ llm_calls w'
                = llm_calls w
                  ++ [prompt_to_send (p :: prompt) history_text
                        (round_count history + 1)]
       | Raise e =>
           exists w',
             generate_new_round E cfg w = (Raise e, w')
             /\ llm_calls w' = llm_calls w
       end.
Proof.
  intros Hc Hp.
  destruct (get_session_id_returns w) as (sid & w1 & Hid & Hl1 & Hh1 & Hr1).
  destruct (get_session_history_returns E cfg sid w1) as (h & w2 & Hget).
  pose proof (get_session_history_calls E cfg sid _ _ _ Hget) as Hl2.
  unfold calls_kept in Hl2.
  exists sid, w1, h, w2. split; [exact Hid|]. split; [exact Hget|].
  split; [exact Hh1|]. split; [exact Hr1|].
  assert (Hgen : generate_new_round E cfg w
                 = match build_history_text E h with
                   | Ok history_text =>
                       request_round E cfg sid (p :: prompt) history_text
                         (round_count h + 1) w2
                   | Raise e => (Raise e, w2)
                   end).
  { unfold generate_new_round. rewrite Hc, Hp. cbn [negb].
    unfold bind at 1. rewrite Hid. unfold bind at 1. rewrite Hget.
    unfold bind at 1, lift. reflexivity. }
  rewrite Hgen.
  destruct (build_history_text E h) as [history_text|e].
  - destruct (request_round_asks_once sid (p :: prompt) history_text
                (round_count h + 1) w2) as (v & w' & Hrun & Hl).
    exists v, w'. split; [exact Hrun|]. rewrite Hl, Hl2, Hl1. reflexivity.
  - exists w2. split; [reflexivity|]. rewrite Hl2, Hl1. reflexivity.
Qed.

End PromptSent.

(** C4: [generate_new_round] with both preconditions met, from any state.
    The generator reads the history of the current session (with the
    in-memory fallback it is the stored history; with Redis and no failing
    command its [round_count] is the stored counter) and uses the round
    number [r = round_count + 1]. When the history renders, the generator
    returns, the model was asked exactly once, and the payload it was sent
    ends with the easter-egg instruction exactly when [r mod 3 = 0]; the
    instruction appended is that text when [r mod 3 = 0] and empty
    otherwise. When the rendering of the history raises, no payload is
    sent. *)
Theorem easter_egg_every_third_round (E : Env) (cfg : Config) (w : World)
  (p : N) (prompt : list N) :
  anthropic_client cfg = true ->
  claude_prompt cfg = Some (p :: prompt) ->
  exists session_id w1 history w2,
    get_session_id E w = (Ok session_id, w1)
    /\ get_session_history E cfg session_id w1 = (Ok history, w2)
    /\ (in_memory cfg -> history = session_history w)
    /\ (persisted cfg -> no_faults E ->
        round_count history = stored_count (redis w) session_id)
    /\ let r := round_count history + 1 in
       match build_history_text E history with
       | Ok history_text =>
           exists v w' payload,
             generate_new_round E cfg w = (Ok v, w')
             /\ llm_calls w' = llm_calls w ++ [payload]
             /\ payload = prompt_to_send (p :: prompt) history_text r
             /\ (easter_egg_text r `suffix_of` payload <-> r mod 3 = 0)
             /\ (easter_egg_instruction r = easter_egg_text r <-> r mod 3 = 0)
             /\ (easter_egg_instruction r = [] <-> r mod 3 <> 0)
       | Raise e =>
           exists w',
             generate_new_round E cfg w = (Raise e, w')
             /\ llm_calls w' = llm_calls w
       end.
Proof.
  intros Hc Hp.
  destruct (generate_sends_the_prompt E cfg w p prompt Hc Hp)
    as (sid & w1 & h & w2 & Hid & Hget & Hh1 & Hr1 & Hgen).
  exists sid, w1, h, w2. split; [exact Hid|]. split; [exact Hget|].
  split; [|split].
  - intros Hm. rewrite (get_in_memory E cfg sid w1 Hm) in Hget.
    injection Hget as <- _. exact Hh1.
  - intros Hpers Hnf.
    destruct (get_persisted E cfg sid w1 Hnf Hpers) as (w3 & Hget3 & _).
    rewrite Hget in Hget3. injection Hget3 as -> _.
    cbn [round_count]. rewrite Hr1. reflexivity.
  - cbv zeta. destruct (build_history_text E h) as [history_text|e];
      [|exact Hgen].
    destruct Hgen as (v & w' & Hrun & Hl).
    exists v, w', (prompt_to_send (p :: prompt) history_text
                     (round_count h + 1)).
    split; [exact Hrun|]. split; [exact Hl|]. split; [reflexivity|].
    apply (prompt_to_send_easter_egg (p :: prompt) history_text
             (round_count h + 1)).
Qed.

(** The in-memory store after two rounds of the session. *)
Definition memory_with_two_rounds : World :=
  snd (append_all (env_of silent_model) memory_config session_a two_rounds
         (set_session_id (Some session_a) 1 initial_world)).

Lemma easter_egg_every_third_round_witness :
  let E := env_of silent_model in
  let cfg := memory_config in
  let w := memory_with_two_rounds in
  anthropic_client cfg = true
  /\ claude_prompt cfg = Some (lit "Write two truths and a lie as JSON.")
  /\ round_count (session_history w) + 1 = 3
  /\ exists session_id w1 history w2,
       get_session_id E w = (Ok session_id, w1)
       /\ get_session_history E cfg session_id w1 = (Ok history, w2)
       /\ (in_memory cfg -> history = session_history w)
       /\ (persisted cfg -> no_faults E ->
           round_count history = stored_count (redis w) session_id)
       /\ let r := round_count history + 1 in
          match build_history_text E history with
          | Ok history_text =>
              exists v w' payload,
                generate_new_round E cfg w = (Ok v, w')
                /\ llm_calls w' = llm_calls w ++ [payload]
                /\ payload
                   = prompt_to_send (lit "Write two truths and a lie as JSON.")
                       history_text r
                /\ (easter_egg_text r `suffix_of` payload <-> r mod 3 = 0)
                /\ (easter_egg_instruction r = easter_egg_text r
                    <-> r mod 3 = 0)
                /\ (easter_egg_instruction r = [] <-> r mod 3 <> 0)
          | Raise e =>
              exists w',
                generate_new_round E cfg w = (Raise e, w')
                /\ llm_calls w' = llm_calls w
          end.
Proof.
  cbv zeta. split; [reflexivity|]. split; [reflexivity|].
  split; [reflexivity|].
  apply (easter_egg_every_third_round (env_of silent_model) memory_config
           memory_with_two_rounds 87%N
           (lit "rite two truths and a lie as JSON.") eq_refl eq_refl).
Defined.

(** With the in-memory fallback, both preconditions met and a stored history
    with at least one round whose first fifteen rounds are lists of
    statement objects, the generator returns and the model was asked exactly
    once, with this payload: the base prompt; the header of the history
    context; for each of the first fifteen stored rounds a block ["Round i:"]
    with one LIE or TRUTH line per statement, numbered from
    [round_count - n + 1]; the notice with the number [n] of listed rounds;
    the instruction not to repeat them, naming round [round_count + 1]; and
    the easter-egg instruction of that round. *)
Theorem rendered_history_reaches_the_model (E : Env) (cfg : Config)
  (w : World) (p : N) (prompt : list N) :
  in_memory cfg ->
  anthropic_client cfg = true ->
  claude_prompt cfg = Some (p :: prompt) ->
  rounds (session_history w) <> [] ->
  Forall is_round (recent_rounds (session_history w)) ->
  let h := session_history w in
  let n := Z.of_nat (length (recent_rounds h)) in
  let context :=
    lit "Here are the previous statements used in this session:" ++ nl
    ++ rounds_block E (round_count h - n + 1) (take 15 (rounds h)) ++ nl
    ++ lit "IMPORTANT: You've now seen " ++ str_of_Z n
    ++ lit " previous rounds. Please generate completely new statements that don't overlap with ANY previous topics or facts." in
  exists v w',
    generate_new_round E cfg w = (Ok v, w')
    /\ llm_calls w'
       = llm_calls w
         ++ [(p :: prompt) ++ nl ++ nl ++ context ++ nl ++ nl
             ++ lit "IMPORTANT: DO NOT repeat any of the facts or topics above. This is round "
             ++ str_of_Z (round_count h + 1)
             ++ lit ", so ensure complete variety."
             ++ easter_egg_instruction (round_count h + 1)].
Proof.
  intros Hm Hc Hp Hne Hall. cbv zeta.
  destruct (generate_sends_the_prompt E cfg w p prompt Hc Hp)
    as (sid & w1 & h & w2 & Hid & Hget & Hh1 & _ & Hgen).
  rewrite (get_in_memory E cfg sid w1 Hm) in Hget.
  injection Hget as <- _. rewrite Hh1 in Hgen.
  destruct (payload_of_history E (p :: prompt) (session_history w) Hne Hall)
    as [Hbuild Hsend].
  rewrite Hbuild in Hgen. destruct Hgen as (v & w' & Hrun & Hl).
  exists v, w'. split; [exact Hrun|]. rewrite Hl, Hsend. reflexivity.
Qed.

Lemma rendered_history_reaches_the_model_witness :
  let E := env_of silent_model in
  let w := memory_with_two_rounds in
  let h := session_history w in
  let n := Z.of_nat (length (recent_rounds h)) in
  let context :=
    lit "Here are the previous statements used in this session:" ++ nl
    ++ rounds_block E (round_count h - n + 1) (take 15 (rounds h)) ++ nl
    ++ lit "IMPORTANT: You've now seen " ++ str_of_Z n
    ++ lit " previous rounds. Please generate completely new statements that don't overlap with ANY previous topics or facts." in
  in_memory memory_config
  /\ rounds h <> []
  /\ Forall is_round (recent_rounds h)
  /\ exists v w',
       generate_new_round E memory_config w = (Ok v, w')
       /\ llm_calls w'
          = llm_calls w
            ++ [lit "Write two truths and a lie as JSON." ++ nl ++ nl
                ++ context ++ nl ++ nl
                ++ lit "IMPORTANT: DO NOT repeat any of the facts or topics above. This is round "
                ++ str_of_Z (round_count h + 1)
                ++ lit ", so ensure complete variety."
                ++ easter_egg_instruction (round_count h + 1)].
Proof.
  cbv zeta.
  assert (Hne : rounds (session_history memory_with_two_rounds) <> [])
    by (vm_compute; discriminate).
  assert (Hall : Forall is_round
                   (recent_rounds (session_history memory_with_two_rounds))).
  { change (recent_rounds (session_history memory_with_two_rounds))
      with [round_of "first"; round_of "second"].
    repeat constructor; apply round_of_is_round. }
  split; [reflexivity|]. split; [exact Hne|]. split; [exact Hall|].
  apply (rendered_history_reaches_the_model (env_of silent_model)
           memory_config memory_with_two_rounds 87%N
           (lit "rite two truths and a lie as JSON.")
           eq_refl eq_refl eq_refl Hne Hall).
Defined.
